(** * chroma-cli.py: the Chroma inspection tool of jikime-mem

    A shallow embedding of [scripts/chroma-cli.py] and the properties its
    specification states about it.

    Conventions of the embedding.
    - A Python [str] is the list of its code points ([str := list N]);
      [len], slicing and [replace] therefore count characters, as Python
      does.  Literals of the script are written [u "..."], the code points
      of the UTF-8 text between the quotes.
    - A Python [int] is a [Z].
    - A Python [float] is an IEEE 754 binary64, as the Standard Library
      specifies it ([SpecFloat]), with its rounding.
    - The metadata of a document is a dict from field names to values, a
      value being a [str], an [int], a [float] or a [bool], or it is
      [None]; the text of a document is a [str] or [None].  Operations
      that Python refuses on such a value ([None.get], slicing or [len()]
      of a number) raise.
    - Standard output is the list of the arguments of the [print] calls, in
      order.  [print] itself never fails.
    - The chromadb client, [int()] on a string, [str()] of a float and the
      home directory are parameters of the program: a [Runtime] (see
      below). *)

From Stdlib Require Import ZArith QArith List String Ascii Lia Bool.
From Stdlib Require Import Sorting.Sorted Permutation DecimalString.
From Stdlib Require Import Floats.SpecFloat.
Import ListNotations.
Open Scope Z_scope.

(** ** Python strings *)

Module PyStr.

Definition str := list N.

Fixpoint bytes_of (s : string) : list N :=
  match s with
  | EmptyString => []
  | String a s' => N_of_ascii a :: bytes_of s'
  end.

Definition low6 (b : N) : N := N.land b 63.

(** Decoder for the UTF-8 text of a literal.  A truncated sequence at the
    end of the input is kept byte by byte. *)
Fixpoint utf8_decode (bs : list N) : list N :=
  match bs with
  | [] => []
  | b0 :: r0 =>
    if (b0 <? 128)%N then b0 :: utf8_decode r0 else
    match r0 with
    | [] => [b0]
    | b1 :: r1 =>
      if (b0 <? 224)%N
      then (N.shiftl (N.land b0 31) 6 + low6 b1)%N :: utf8_decode r1 else
      match r1 with
      | [] => [b0; b1]
      | b2 :: r2 =>
        if (b0 <? 240)%N
        then (N.shiftl (N.land b0 15) 12 + N.shiftl (low6 b1) 6 + low6 b2)%N
             :: utf8_decode r2 else
        match r2 with
        | [] => [b0; b1; b2]
        | b3 :: r3 =>
          (N.shiftl (N.land b0 7) 18 + N.shiftl (low6 b1) 12
           + N.shiftl (low6 b2) 6 + low6 b3)%N :: utf8_decode r3
        end
      end
    end
  end.

Definition u (s : string) : str := utf8_decode (bytes_of s).

Definition NL : N := 10.      (* newline *)
Definition SP : N := 32.      (* space *)
Definition DQUOTE : N := 34.  (* double quote *)

(** [a == b] on strings. *)
Fixpoint str_eqb (a b : str) : bool :=
  match a, b with
  | [], [] => true
  | x :: a', y :: b' => (x =? y)%N && str_eqb a' b'
  | _, _ => false
  end.

(** [len(s)] *)
Definition len (s : str) : Z := Z.of_nat (List.length s).

(** [s[:k]] for a constant [k >= 0]. *)
Definition slice_to (k : nat) (s : str) : str := firstn k s.

(** [s.replace(a, b)] for one-character [a] and [b]. *)
Definition replace (a b : N) (s : str) : str :=
  map (fun c => if (c =? a)%N then b else c) s.

(** [s * n] for a one-character string. *)
Definition times (c : N) (n : nat) : str := repeat c n.

(** [str(n)] for an int. *)
Definition str_of_int (n : Z) : str :=
  bytes_of (NilZero.string_of_int (Z.to_int n)).

(** [s.startswith(p)] *)
Fixpoint startswith (p s : str) : bool :=
  match p, s with
  | [], _ => true
  | x :: p', y :: s' => (x =? y)%N && startswith p' s'
  | _ :: _, [] => false
  end.

(** [s.endswith(p)] *)
Definition endswith (p s : str) : bool := startswith (rev p) (rev s).

End PyStr.
Import PyStr.

(** ** Content preview (chroma-cli.py, lines 84-86 and 125-127)

    [preview = doc[:limit].replace('\n', ' ')], followed by ["..."] when
    [len(doc) > limit].  [cmd_list] uses the limit 80, [cmd_search] 100. *)

Definition ELLIPSIS : str := Eval vm_compute in u "...".

Definition preview (limit : nat) (doc : str) : str :=
  let p := replace NL SP (slice_to limit doc) in
  if len doc >? Z.of_nat limit then p ++ ELLIPSIS else p.

Definition LIST_PREVIEW : nat := 80.
Definition SEARCH_PREVIEW : nat := 100.



(** ** Floating point (chroma-cli.py, line 116)

    A Python [float] is an IEEE 754 binary64: a [spec_float] of the
    Standard Library, with 53 bits of precision and rounding to nearest,
    ties to even.  The ints that meet a float in the script (0, 1, 2 and
    100) are converted exactly. *)

Module Binary64.

Definition prec : Z := 53.
Definition emax : Z := 1024.

Definition float : Type := spec_float.

(** [float(n)] *)
Definition of_int (n : Z) : float := binary_normalize prec emax n 0 false.

Definition zero : float := of_int 0.
Definition one : float := of_int 1.
Definition two : float := of_int 2.
Definition hundred : float := of_int 100.

Declare Scope b64_scope.
Delimit Scope b64_scope with b64.
Notation "x / y" := (SFdiv prec emax x y) : b64_scope.
Notation "x - y" := (SFsub prec emax x y) : b64_scope.
Notation "x * y" := (SFmul prec emax x y) : b64_scope.
Notation "x < y" := (SFltb x y) : b64_scope.
Notation "x <= y" := (SFleb x y) : b64_scope.

(** [max(0, x)]: Python keeps the first argument unless [x > 0], so a NaN
    gives 0.  The int 0 is kept as the float of the same value. *)
Definition max0 (x : float) : float := if (zero < x)%b64 then x else zero.

(** The floats that Python has: the finite ones have a canonical mantissa
    and exponent. *)
Definition valid (f : float) : Prop := valid_binary prec emax f = true.

Definition is_nan (f : float) : bool :=
  match f with S754_nan => true | _ => false end.

Definition sign_of (f : float) : bool :=
  match f with
  | S754_zero s | S754_infinity s | S754_finite s _ _ => s
  | S754_nan => false
  end.

(** *** Values

    A finite binary64 is an integer multiple of [U = 2^-1074].  Exact
    results of the operations of the script are integer multiples of
    [W = 2^-1200]. *)

Definition TOP : Z := 2 ^ 2098.

(** The magnitude in units [U]; an infinity counts as [2^1024]. *)
Definition mag (f : float) : Z :=
  match f with
  | S754_zero _ => 0
  | S754_infinity _ => 2 ^ 2098
  | S754_nan => 0
  | S754_finite _ m e => Zpos m * 2 ^ (e + 1074)
  end.

(** The value in units [U]. *)
Definition val (f : float) : Z := cond_Zopp (sign_of f) (mag f).

(** [M / 2^k] rounded to the nearest integer, ties to even. *)
Definition rne (M k : Z) : Z :=
  let q := M / 2 ^ k in
  match 2 * (M mod 2 ^ k) ?= 2 ^ k with
  | Lt => q
  | Gt => q + 1
  | Eq => if Z.even q then q else q + 1
  end.

(** Where [M / 2^k] lies between [M / 2^k] rounded down and the next
    integer. *)
Definition loc_of (M k : Z) : location :=
  let r := M mod 2 ^ k in
  if r =? 0 then loc_Exact else loc_Inexact (2 * r ?= 2 ^ k).

(** The number of binary digits of [N > 0]. *)
Definition digits (N : Z) : Z := Z.log2 N + 1.

(** The bits dropped when [N] units [W] are rounded to a binary64. *)
Definition shiftW (N : Z) : Z := Z.max (digits N - 53) 126.

(** The value, in units [U], of [N] units [W] rounded to 53 bits and to a
    multiple of [U]; overflow is not taken into account. *)
Definition GW (N : Z) : Z := rne N (shiftW N) * 2 ^ (shiftW N - 126).

(** [binary_round_aux] of an exact mantissa, as arithmetic. *)
Definition round_exact (s : bool) (M E : Z) : float :=
  let k := Z.max (fexp prec emax (Zdigits2 M + E) - E) 0 in
  let m1 := rne M k in
  let t := E + k in
  let k1 := Z.max (fexp prec emax (Zdigits2 m1 + t) - t) 0 in
  match m1 / 2 ^ k1 with
  | Z0 => S754_zero s
  | Zpos m => if t + k1 <=? emax - prec then S754_finite s m (t + k1)
              else S754_infinity s
  | Zneg _ => S754_nan
  end.

(** The exponent a mantissa [p] at exponent [E] is rounded to, and the
    mantissa it then has. *)
Definition target (p : positive) (E : Z) : Z :=
  Z.max (Zpos (digits2_pos p) + E - 53) (-1074).
Definition rounded (p : positive) (E : Z) : Z :=
  rne (Zpos p) (target p E - E).

(** The magnitude of [d / 2] from that of [d]. *)
Definition halve (X : Z) : Z :=
  if TOP <=? X then TOP else Z.min (GW (X * 2 ^ 125)) TOP.

(** The value of [d / 2] from that of [d]. *)
Definition halve_signed (D : Z) : Z :=
  if D <? 0 then - halve (- D) else halve D.

(** The magnitude of [max(0, 1 - y)] from the value of [y]. *)
Definition one_minus (Y : Z) : Z :=
  if TOP <=? Y then 0
  else if Y <=? - TOP then TOP
  else let Zw := 2 ^ 1200 - Y * 2 ^ 126 in
       if 0 <? Zw then Z.min (GW Zw) TOP else 0.

(** The magnitude of [x * 100] from that of [x >= 0]. *)
Definition times_hundred (X : Z) : Z :=
  if TOP <=? X then TOP else Z.min (GW (100 * X * 2 ^ 126)) TOP.

(** The value of the similarity from that of the distance. *)
Definition similarity_value (D : Z) : Z :=
  times_hundred (one_minus (halve_signed D)).

End Binary64.
Import Binary64.

(** [similarity = max(0, 1 - (dist / 2)) * 100] *)
Definition similarity (dist : float) : float :=
  (max0 (one - dist / two) * hundred)%b64.

(** ** Exceptions and results *)

Inductive Exn : Type :=
| SystemExit (code : Z)          (* raised by sys.exit(code) *)
| Error (cls : str) (msg : str). (* an instance of Exception; msg is str(e) *)

(** [isinstance(e, Exception)]: what [except Exception] catches.  A bare
    [except:] catches every [Exn]. *)
Definition is_Exception (e : Exn) : bool :=
  match e with
  | SystemExit _ => false
  | Error _ _ => true
  end.

Inductive Res (A : Type) : Type :=
| Ok (a : A)
| Raise (e : Exn).
Arguments Ok {A} a.
Arguments Raise {A} e.

(** The exit status of the process, from how [main()] ended: 0 after a
    normal return, the code of [sys.exit], 1 after any other exception. *)
Definition exit_status {A} (r : Res A) : Z :=
  match r with
  | Ok _ => 0
  | Raise (SystemExit code) => code
  | Raise (Error _ _) => 1
  end.


(** ** Formatting numbers *)

(** [q * 10] rounded to the nearest integer, ties to even. *)
Definition round_tenths (q : Q) : Z :=
  let a := 10 * Qnum q in
  let d := Z.pos (Qden q) in
  let fl := a / d in
  let r := a mod d in
  if 2 * r <? d then fl
  else if d <? 2 * r then fl + 1
  else if Z.even fl then fl else fl + 1.

(** The rational [q] with one digit after the point. *)
Definition format_tenths (q : Q) : str :=
  let t := Z.abs (round_tenths q) in
  (if Qnum q <? 0 then u "-" else [])
  ++ str_of_int (t / 10) ++ u "." ++ str_of_int (t mod 10).

(** The exact value of a finite float. *)
Definition exact_value (s : bool) (m : positive) (e : Z) : Q :=
  let q := if 0 <=? e then Zpos m * 2 ^ e # 1
           else Zpos m # Z.to_pos (2 ^ (- e)) in
  if s then Qopp q else q.

(** [f"{x:.1f}"]: the decimal nearest to the exact value of [x]. *)
Definition format_1f (x : float) : str :=
  match x with
  | S754_nan => u "nan"
  | S754_infinity s => if s then u "-inf" else u "inf"
  | S754_zero s => if s then u "-0.0" else u "0.0"
  | S754_finite s m e => format_tenths (exact_value s m e)
  end.


(** ** Values

    What chromadb hands back for a document: its text, a string, or
    [None] when the document was stored without text; its metadata, a dict
    from field names to strings, ints, floats or bools, or [None] when the
    document was stored without metadata. *)

Inductive Value : Type :=
| VStr (s : str)
| VInt (n : Z)
| VFloat (x : float)
| VBool (b : bool).

(** A metadata dict. *)
Definition Dict := list (str * Value).

(** The metadata of a document, as the client returns it. *)
Definition Meta := option Dict.

(** [type(v).__name__] *)
Definition type_name (v : Value) : str :=
  match v with
  | VStr _ => u "str"
  | VInt _ => u "int"
  | VFloat _ => u "float"
  | VBool _ => u "bool"
  end.

(** [isinstance(v, str)] *)
Definition is_str (v : Value) : bool :=
  match v with
  | VStr _ => true
  | _ => false
  end.

(** The number an int, a bool or a float is compared as: bools count as 0
    and 1, the two zeros of the floats as 0; a float can be infinite or a
    NaN. *)
Inductive Num : Type :=
| Finite (q : Q)
| PlusInf
| MinusInf
| NotNum.

Definition num_of_float (x : float) : Num :=
  match x with
  | S754_zero _ => Finite 0
  | S754_infinity s => if s then MinusInf else PlusInf
  | S754_nan => NotNum
  | S754_finite s m e => Finite (exact_value s m e)
  end.

Definition num_of (v : Value) : option Num :=
  match v with
  | VStr _ => None
  | VInt n => Some (Finite (inject_Z n))
  | VFloat x => Some (num_of_float x)
  | VBool b => Some (Finite (if b then 1 else 0))
  end.

Definition num_eqb (a b : Num) : bool :=
  match a, b with
  | Finite p, Finite q => Qeq_bool p q
  | PlusInf, PlusInf => true
  | MinusInf, MinusInf => true
  | _, _ => false
  end.

(** [a == b]: strings by their characters, numbers by their exact value
    (so [1 == 1.0 == True]); a string never equals a number, a NaN equals
    nothing. *)
Definition py_eqb (a b : Value) : bool :=
  match a, b with
  | VStr s, VStr t => str_eqb s t
  | _, _ =>
    match num_of a, num_of b with
    | Some x, Some y => num_eqb x y
    | _, _ => false
    end
  end.

(** [d.get(key, default)] *)
Fixpoint dict_get (d : Dict) (key : str) (default : Value) : Value :=
  match d with
  | [] => default
  | (k, v) :: d' => if str_eqb k key then v else dict_get d' key default
  end.

(** The exceptions that the operations on values raise. *)
Definition NO_GET : Exn :=
  Error (u "AttributeError") (u "'NoneType' object has no attribute 'get'").
Definition not_subscriptable (type : str) : Exn :=
  Error (u "TypeError") (u "'" ++ type ++ u "' object is not subscriptable").
Definition no_len (type : str) : Exn :=
  Error (u "TypeError") (u "object of type '" ++ type ++ u "' has no len()").
Definition NONE_TYPE : str := u "NoneType".

(** [meta.get(key, default)], where [meta] can be [None]. *)
Definition meta_get (meta : Meta) (key : str) (default : Value) : Res Value :=
  match meta with
  | Some d => Ok (dict_get d key default)
  | None => Raise NO_GET
  end.

(** [v[:k]] for a value: only a string can be sliced. *)
Definition slice_value (k : nat) (v : Value) : Res str :=
  match v with
  | VStr s => Ok (slice_to k s)
  | _ => Raise (not_subscriptable (type_name v))
  end.

(** [len(v)] for a value: only a string has a length. *)
Definition len_value (v : Value) : Res Z :=
  match v with
  | VStr s => Ok (len s)
  | _ => Raise (no_len (type_name v))
  end.

(** Lines 84-86 and 125-127 for the text of a document, which can be
    [None]: the slice [doc[:limit]] then raises. *)
Definition preview_of (limit : nat) (doc : option str) : Res str :=
  match doc with
  | Some text => Ok (preview limit text)
  | None => Raise (not_subscriptable NONE_TYPE)
  end.

(** ** Counters *)

Module Counter.

(** A [collections.Counter]: the keys in the order of their first
    insertion, each with its count.  A key is found by [==]. *)
Definition t := list (Value * Z).

Definition empty : t := [].

(** [c[key] += 1]: a key that is absent counts as 0 and is added last. *)
Fixpoint incr (key : Value) (c : t) : t :=
  match c with
  | [] => [(key, 1)]
  | (k, n) :: c' =>
    if py_eqb k key then (k, n + 1) :: c' else (k, n) :: incr key c'
  end.

(** [c[key]] *)
Fixpoint get (c : t) (key : Value) : Z :=
  match c with
  | [] => 0
  | (k, n) :: c' => if py_eqb k key then n else get c' key
  end.

(** [sum(c.values())] *)
Definition total (c : t) : Z := fold_right (fun kn acc => snd kn + acc) 0 c.

(** One step of the stable descending sort: [x] goes before the first
    element whose count is not greater than its own. *)
Fixpoint insert_desc (x : Value * Z) (l : t) : t :=
  match l with
  | [] => [x]
  | y :: l' => if snd x <? snd y then y :: insert_desc x l' else x :: l
  end.

(** [c.most_common()]: [sorted(c.items(), key=count, reverse=True)], which
    keeps keys of equal count in insertion order. *)
Definition most_common (c : t) : t := fold_right insert_desc [] c.

(** [c.most_common(n)] for [n >= 0]: the first [n] of [most_common()]. *)
Definition most_common_n (n : nat) (c : t) : t := firstn n (most_common c).

End Counter.

(** ** The runtime: chromadb, [int()], [str()] of a float and the home
    directory *)

(** An element of [client.list_collections()]. *)
Record CollectionInfo : Type := { name : str }.

(** The dict returned by [collection.peek]. *)
Record GetResult : Type := {
  ids : list str;
  documents : list (option str);
  metadatas : list Meta
}.

(** The dict returned by [collection.query]: one list per query text. *)
Record QueryResult : Type := {
  q_ids : list (list str);
  q_documents : list (list (option str));
  q_metadatas : list (list Meta);
  q_distances : list (list float)
}.

(** What the script calls and does not define.  Every client call takes
    the state of the on-disk store and returns the state it leaves,
    together with its value or the exception it raises. *)
Record Runtime : Type := {
  Store : Type;
  Client : Type;
  Collection : Type;
  (* chromadb.PersistentClient(path=...) *)
  chroma_PersistentClient : str -> Store -> Store * Res Client;
  (* client.list_collections() *)
  chroma_list_collections : Client -> Store -> Store * Res (list CollectionInfo);
  (* client.get_collection(name) *)
  chroma_get_collection : Client -> str -> Store -> Store * Res Collection;
  (* collection.count() *)
  chroma_count : Collection -> Store -> Store * Res Z;
  (* collection.peek(limit=...) *)
  chroma_peek : Collection -> Z -> Store -> Store * Res GetResult;
  (* collection.query(query_texts=..., n_results=...) *)
  chroma_query : Collection -> list str -> Z -> Store -> Store * Res QueryResult;
  (* collection.get(include=['metadatas'])['metadatas'] *)
  chroma_get_metadatas : Collection -> Store -> Store * Res (list Meta);
  (* int(s): the integer, or the message of the ValueError *)
  int_ : str -> Z + str;
  (* str(x) for a float x *)
  float_str : float -> str;
  (* str(Path.home()) *)
  home : str
}.

(** ** The monad of the script: store, standard output, exceptions *)

Record Outcome (S A : Type) : Type := mkOutcome {
  store_of : S;
  stdout_of : list str;
  result_of : Res A
}.
Arguments mkOutcome {S A}.
Arguments store_of {S A}.
Arguments stdout_of {S A}.
Arguments result_of {S A}.

Definition M (S A : Type) : Type := S -> Outcome S A.

Definition ret {S A} (a : A) : M S A := fun s => mkOutcome s [] (Ok a).

Definition bind {S A B} (m : M S A) (f : A -> M S B) : M S B :=
  fun s =>
    let o := m s in
    match result_of o with
    | Ok a =>
      let o' := f a (store_of o) in
      mkOutcome (store_of o') (stdout_of o ++ stdout_of o') (result_of o')
    | Raise e => mkOutcome (store_of o) (stdout_of o) (Raise e)
    end.

Definition raise {S A} (e : Exn) : M S A := fun s => mkOutcome s [] (Raise e).

(** [print(line)] *)
Definition print {S} (line : str) : M S unit :=
  fun s => mkOutcome s [line] (Ok tt).

(** [sys.exit(code)] *)
Definition sys_exit {S A} (code : Z) : M S A := raise (SystemExit code).

(** A value computed without the store, or the exception raised instead. *)
Definition lift {S A} (r : Res A) : M S A := fun s => mkOutcome s [] r.

(** A call into the client. *)
Definition call {S A} (op : S -> S * Res A) : M S A :=
  fun s => let (s', r) := op s in mkOutcome s' [] r.

(** [try: m  except <catches> as e: handler e] *)
Definition try_except {S A} (m : M S A) (catches : Exn -> bool)
    (handler : Exn -> M S A) : M S A :=
  fun s =>
    let o := m s in
    match result_of o with
    | Ok a => o
    | Raise e =>
      if catches e then
        let o' := handler e (store_of o) in
        mkOutcome (store_of o') (stdout_of o ++ stdout_of o') (result_of o')
      else o
    end.

Declare Scope py_scope.
Delimit Scope py_scope with py.
Notation "x <- m ;; k" := (bind m (fun x => k))
  (at level 100, m at next level, right associativity) : py_scope.
Notation "m ;; k" := (bind m (fun _ => k))
  (at level 100, right associativity) : py_scope.
Open Scope py_scope.

(** [for x in l: body x] *)
Fixpoint for_each {S X} (l : list X) (body : X -> M S unit) : M S unit :=
  match l with
  | [] => ret tt
  | x :: l' => body x ;; for_each l' body
  end.

(** [for i, x in enumerate(l): body i x], counting from [i]. *)
Fixpoint for_enumerate {S X} (i : Z) (l : list X)
    (body : Z -> X -> M S unit) : M S unit :=
  match l with
  | [] => ret tt
  | x :: l' => body i x ;; for_enumerate (i + 1) l' body
  end.

(** [zip] of three and of four lists: as long as the shortest. *)
Fixpoint zip3 {A B C} (a : list A) (b : list B) (c : list C)
    : list (A * B * C) :=
  match a, b, c with
  | x :: a', y :: b', z :: c' => (x, y, z) :: zip3 a' b' c'
  | _, _, _ => []
  end.

Fixpoint zip4 {A B C D} (a : list A) (b : list B) (c : list C) (d : list D)
    : list (A * B * C * D) :=
  match a, b, c, d with
  | x :: a', y :: b', z :: c', t :: d' => (x, y, z, t) :: zip4 a' b' c' d'
  | _, _, _, _ => []
  end.

(** [l[0]] *)
Definition index0 {S X} (l : list X) : M S X :=
  match l with
  | [] => raise (Error (u "IndexError") (u "list index out of range"))
  | x :: _ => ret x
  end.

(** [for x in l: acc = body acc x], giving the last [acc]. *)
Fixpoint for_fold {S X A} (l : list X) (acc : A) (body : A -> X -> M S A)
    : M S A :=
  match l with
  | [] => ret acc
  | x :: l' => acc' <- body acc x ;; for_fold l' acc' body
  end.

(** ["=" * 50] *)
Definition RULE : str := times 61%N 50.

(** The module docstring, [__doc__]. *)
Definition DOC : str :=
  [NL] ++ u "Chroma CLI - jikime-mem Chroma 데이터 확인 도구" ++ [NL]
  ++ [NL]
  ++ u "사용법:" ++ [NL]
  ++ u "  python scripts/chroma-cli.py status      # 컬렉션 상태 확인" ++ [NL]
  ++ u "  python scripts/chroma-cli.py list [n]    # 문서 목록 (기본 10개)"
  ++ [NL]
  ++ u "  python scripts/chroma-cli.py search " ++ [DQUOTE] ++ u "쿼리"
  ++ [DQUOTE] ++ u "  # 시맨틱 검색" ++ [NL]
  ++ u "  python scripts/chroma-cli.py types       # 문서 타입별 통계" ++ [NL].

Definition COLLECTION_NAME : str := u "jm__jikime_mem".

Definition UNKNOWN : str := u "unknown".


(** [f"{v}"] for a value: [str(v)]. *)
Definition str_of_value (rt : Runtime) (v : Value) : str :=
  match v with
  | VStr s => s
  | VInt n => str_of_int n
  | VFloat x => float_str rt x
  | VBool b => if b then u "True" else u "False"
  end.

(** The emoji shown for a document type (lines 78, 118 and 160). *)
Definition emoji_of (doc_type : Value) : str :=
  if py_eqb doc_type (VStr (u "prompt")) then u "📝"
  else if py_eqb doc_type (VStr (u "response")) then u "💬"
  else u "📄".

(** The lines the script prints. *)
Definition NOT_FOUND : str :=
  u "❌ Collection '" ++ COLLECTION_NAME ++ u "' not found".
Definition error_detail (msg : str) : str := u "   Error: " ++ msg.
Definition USAGE_SEARCH : str :=
  u "Usage: chroma-cli.py search " ++ [DQUOTE] ++ u "query" ++ [DQUOTE].
Definition unknown_command (cmd : str) : str := u "Unknown command: " ++ cmd.
Definition NO_DOCUMENTS : str := u "   (no documents)".
Definition NO_RESULTS : str := u "   (no results)".

Definition count_line (col : CollectionInfo) (count : Z) : str :=
  u "   • " ++ name col ++ u ": " ++ str_of_int count ++ u " documents".
Definition error_line (col : CollectionInfo) : str :=
  u "   • " ++ name col ++ u ": (error)".

Definition CONTENT : str := Eval vm_compute in u "   Content: ".
Definition content_line (limit : nat) (doc : str) : str :=
  CONTENT ++ preview limit doc.


(** Line 161. *)
Definition type_line (rt : Runtime) (row : Value * Z) : str :=
  u "   " ++ emoji_of (fst row) ++ u " " ++ str_of_value rt (fst row) ++ u ": "
  ++ str_of_int (snd row).

(** Lines 165-166: [len(session_id)] is evaluated first and raises when
    the session id is not a string. *)
Definition session_line (rt : Runtime) (row : Value * Z) : Res str :=
  let session_id := fst row in
  match len_value session_id with
  | Raise e => Raise e
  | Ok n =>
    match (if n >? 12
           then match slice_value 12 session_id with
                | Ok head => Ok (head ++ u "...")
                | Raise e => Raise e
                end
           else Ok (str_of_value rt session_id)) with
    | Raise e => Raise e
    | Ok short_id =>
      Ok (u "   📁 " ++ short_id ++ u ": " ++ str_of_int (snd row)
          ++ u " documents")
    end
  end.

Definition STATUS_TITLE : str := u "📊 Chroma Status".
Definition data_directory (dir : str) : str := u "📁 Data Directory: " ++ dir.
Definition collections_header (n : Z) : str :=
  [NL] ++ u "📚 Collections (" ++ str_of_int n ++ u "):".
Definition list_header (limit count : Z) : str :=
  u "📄 Documents (showing " ++ str_of_int limit ++ u " of "
  ++ str_of_int count ++ u ")".
Definition search_header (query : str) : str :=
  u "🔍 Search: " ++ [DQUOTE] ++ query ++ [DQUOTE].
Definition TYPES_TITLE : str := u "📈 Document Types Statistics".
Definition by_type_header (count : Z) : str :=
  [NL] ++ u "📊 By Type (Total: " ++ str_of_int count ++ u "):".
Definition BY_SESSION_HEADER : str := [NL] ++ u "📊 By Session (Top 5):".


Definition DOC_TYPE : str := u "doc_type".
Definition SESSION_ID : str := u "session_id".

(** ** The script *)

Section Script.

Variable rt : Runtime.

Definition Prog : Type -> Type := M (Store rt).

(** [VECTOR_DB_DIR = Path.home() / '.jikime-mem' / 'vector-db'], as the
    string that is printed and passed to the client. *)
Definition VECTOR_DB_DIR : str :=
  (if str_eqb (home rt) (u "/") then [] else home rt)
  ++ u "/.jikime-mem/vector-db".

(** [int(s)] *)
Definition int (s : str) : Prog Z :=
  match int_ rt s with
  | inl n => ret n
  | inr msg => raise (Error (u "ValueError") msg)
  end.

Definition get_client : Prog (Client rt) :=
  call (chroma_PersistentClient rt VECTOR_DB_DIR).

Definition get_collection (client : Client rt) : Prog (Collection rt) :=
  try_except (call (chroma_get_collection rt client COLLECTION_NAME))
    is_Exception
    (fun e =>
       print NOT_FOUND ;;
       print (error_detail (match e with Error _ msg => msg | _ => [] end)) ;;
       sys_exit 1).

(** Lines 47-52: the body of the loop of [cmd_status]; the bare [except:]
    catches whatever the two calls raise. *)
Definition status_entry (client : Client rt) (col : CollectionInfo)
    : Prog unit :=
  try_except
    (collection <- call (chroma_get_collection rt client (name col)) ;;
     count <- call (chroma_count rt collection) ;;
     print (count_line col count))
    (fun _ => true)
    (fun _ => print (error_line col)).

Definition cmd_status : Prog unit :=
  client <- get_client ;;
  print RULE ;;
  print STATUS_TITLE ;;
  print RULE ;;
  print (data_directory VECTOR_DB_DIR) ;;
  collections <- call (chroma_list_collections rt client) ;;
  print (collections_header (Z.of_nat (List.length collections))) ;;
  for_each collections (status_entry client).

(** Lines 73-87: what [cmd_list] does for the document at index [i].  The
    metadata is read before anything is printed, the text of the document
    after the first two lines. *)
Definition list_entry (i : Z) (x : str * option str * Meta) : Prog unit :=
  let '(id, doc, meta) := x in
  doc_type <- lift (meta_get meta DOC_TYPE (VStr UNKNOWN)) ;;
  session <- lift (meta_get meta SESSION_ID (VStr UNKNOWN)) ;;
  session_id <- lift (slice_value 8 session) ;;
  let emoji := emoji_of doc_type in
  print ([NL] ++ emoji ++ u " [" ++ str_of_int (i + 1) ++ u "] " ++ id) ;;
  print (u "   Type: " ++ str_of_value rt doc_type ++ u " | Session: "
         ++ session_id ++ u "...") ;;
  preview <- lift (preview_of LIST_PREVIEW doc) ;;
  print (CONTENT ++ preview).

Definition cmd_list (limit : Z) : Prog unit :=
  client <- get_client ;;
  collection <- get_collection client ;;
  count <- call (chroma_count rt collection) ;;
  let limit := Z.min limit count in
  print RULE ;;
  print (list_header limit count) ;;
  print RULE ;;
  if count =? 0 then print NO_DOCUMENTS
  else
    result <- call (chroma_peek rt collection limit) ;;
    for_enumerate 0 (zip3 (ids result) (documents result) (metadatas result))
      list_entry.

(** Lines 108-128: what [cmd_search] does for the result at index [i]. *)
Definition search_entry (i : Z) (x : str * option str * Meta * float)
    : Prog unit :=
  let '(id, doc, meta, dist) := x in
  doc_type <- lift (meta_get meta DOC_TYPE (VStr UNKNOWN)) ;;
  let emoji := emoji_of doc_type in
  print ([NL] ++ emoji ++ u " [" ++ str_of_int (i + 1) ++ u "] "
         ++ format_1f (similarity dist) ++ u "% match") ;;
  print (u "   ID: " ++ id) ;;
  print (u "   Type: " ++ str_of_value rt doc_type) ;;
  preview <- lift (preview_of SEARCH_PREVIEW doc) ;;
  print (CONTENT ++ preview).

Definition cmd_search (query : str) (limit : Z) : Prog unit :=
  client <- get_client ;;
  collection <- get_collection client ;;
  print RULE ;;
  print (search_header query) ;;
  print RULE ;;
  result <- call (chroma_query rt collection [query] limit) ;;
  ids0 <- index0 (q_ids result) ;;
  match ids0 with
  | [] => print NO_RESULTS
  | _ :: _ =>
    ids0 <- index0 (q_ids result) ;;
    documents0 <- index0 (q_documents result) ;;
    metadatas0 <- index0 (q_metadatas result) ;;
    distances0 <- index0 (q_distances result) ;;
    for_enumerate 0 (zip4 ids0 documents0 metadatas0 distances0) search_entry
  end.

(** Lines 152-156: the body of the loop that counts; [counts] is the pair
    of [type_counts] and [session_counts]. *)
Definition tally_entry (counts : Counter.t * Counter.t) (meta : Meta)
    : Prog (Counter.t * Counter.t) :=
  doc_type <- lift (meta_get meta DOC_TYPE (VStr UNKNOWN)) ;;
  session_id <- lift (meta_get meta SESSION_ID (VStr UNKNOWN)) ;;
  ret (Counter.incr doc_type (fst counts),
       Counter.incr session_id (snd counts)).

(** Lines 164-166: the body of the loop over the sessions. *)
Definition session_entry (row : Value * Z) : Prog unit :=
  line <- lift (session_line rt row) ;;
  print line.

Definition cmd_types : Prog unit :=
  client <- get_client ;;
  collection <- get_collection client ;;
  count <- call (chroma_count rt collection) ;;
  print RULE ;;
  print TYPES_TITLE ;;
  print RULE ;;
  if count =? 0 then print NO_DOCUMENTS
  else
    metas <- call (chroma_get_metadatas rt collection) ;;
    counts <- for_fold metas (Counter.empty, Counter.empty) tally_entry ;;
    let type_counts := fst counts in
    let session_counts := snd counts in
    print (by_type_header count) ;;
    for_each (Counter.most_common type_counts)
      (fun row => print (type_line rt row)) ;;
    print BY_SESSION_HEADER ;;
    for_each (Counter.most_common_n 5 session_counts) session_entry.

(** [limit = int(sys.argv[k]) if len(sys.argv) > k else 10], where [rest]
    is [sys.argv[k:]]. *)
Definition limit_arg (rest : list str) : Prog Z :=
  match rest with
  | n :: _ => int n
  | [] => ret 10
  end.

Definition main (argv : list str) : Prog unit :=
  match argv with
  | [] | [_] => print DOC ;; sys_exit 0
  | _ :: cmd :: args =>
    if str_eqb cmd (u "status") then cmd_status
    else if str_eqb cmd (u "list") then
      limit <- limit_arg args ;;
      cmd_list limit
    else if str_eqb cmd (u "search") then
      match args with
      | [] => print USAGE_SEARCH ;; sys_exit 1
      | query :: args' =>
        limit <- limit_arg args' ;;
        cmd_search query limit
      end
    else if str_eqb cmd (u "types") then cmd_types
    else
      print (unknown_command cmd) ;;
      print DOC ;;
      sys_exit 1
  end.

End Script.

(** ** An in-memory runtime

    A small stand-in for chromadb, to run the script on concrete stores:
    a store is a list of collections, a collection a list of documents,
    each with the distance a query reports for it.  A collection can be
    marked broken, in which case counting it raises.  A document can be
    without text and without metadata. *)

Module Mem.

Record Doc : Type := {
  d_id : str;
  d_text : option str;
  d_meta : Meta;
  d_dist : float
}.

Record Coll : Type := {
  c_name : str;
  c_docs : list Doc;
  c_broken : bool
}.

Definition store := list Coll.

Definition first_docs (n : Z) (c : Coll) : list Doc :=
  firstn (Z.to_nat n) (c_docs c).

Definition lookup (nm : str) (s : store) : Res Coll :=
  match find (fun c => str_eqb (c_name c) nm) s with
  | Some c => Ok c
  | None =>
    Raise (Error (u "ValueError") (u "Collection " ++ nm ++ u " does not exist."))
  end.

Definition count_of (c : Coll) : Res Z :=
  if c_broken c then Raise (Error (u "RuntimeError") (u "segment unavailable"))
  else Ok (Z.of_nat (List.length (c_docs c))).

(** A limit below 0 is refused. *)
Definition NEGATIVE_LIMIT : Exn :=
  Error (u "OverflowError") (u "can't convert negative int to unsigned").

Definition peek_of (c : Coll) (n : Z) : Res GetResult :=
  if n <? 0 then Raise NEGATIVE_LIMIT
  else Ok {| ids := map d_id (first_docs n c);
             documents := map d_text (first_docs n c);
             metadatas := map d_meta (first_docs n c) |}.

(** A number of results below 1 is refused. *)
Definition NO_RESULTS_ASKED (n : Z) : Exn :=
  Error (u "TypeError")
        (u "Number of requested results " ++ str_of_int n
         ++ u ", cannot be negative, or zero.").

Definition query_of (c : Coll) (n : Z) : Res QueryResult :=
  if n <=? 0 then Raise (NO_RESULTS_ASKED n)
  else Ok {| q_ids := [map d_id (first_docs n c)];
             q_documents := [map d_text (first_docs n c)];
             q_metadatas := [map d_meta (first_docs n c)];
             q_distances := [map d_dist (first_docs n c)] |}.

Definition is_space (c : N) : bool :=
  ((c =? 32) || (9 <=? c) && (c <=? 13))%N.

Definition is_digit (c : N) : bool := ((48 <=? c) && (c <=? 57))%N.

Fixpoint lstrip (s : str) : str :=
  match s with
  | c :: s' => if is_space c then lstrip s' else s
  | [] => []
  end.

Definition strip (s : str) : str := rev (lstrip (rev (lstrip s))).

(** Digits, with single underscores between them. *)
Fixpoint digits (acc : Z) (after_digit : bool) (s : str) : option Z :=
  match s with
  | [] => if after_digit then Some acc else None
  | c :: s' =>
    if is_digit c then digits (acc * 10 + (Z.of_N c - 48)) true s'
    else if (c =? 95)%N && after_digit then digits acc false s'
    else None
  end.

(** [int(s)] on ASCII strings: blanks around an optional sign and digits.
    Digits and blanks outside ASCII are not recognised. *)
Definition parse_int (s : str) : Z + str :=
  let bad := inr (u "invalid literal for int() with base 10") in
  match strip s with
  | 43%N :: ds => match digits 0 false ds with Some n => inl n | None => bad end
  | 45%N :: ds => match digits 0 false ds with Some n => inl (- n) | None => bad end
  | ds => match digits 0 false ds with Some n => inl n | None => bad end
  end.

Definition runtime : Runtime := {|
  Store := store;
  Client := unit;
  Collection := Coll;
  chroma_PersistentClient := fun _ s => (s, Ok tt);
  chroma_list_collections := fun _ s =>
    (s, Ok (map (fun c => {| name := c_name c |}) s));
  chroma_get_collection := fun _ nm s => (s, lookup nm s);
  chroma_count := fun c s => (s, count_of c);
  chroma_peek := fun c n s => (s, peek_of c n);
  chroma_query := fun c _ n s => (s, query_of c n);
  chroma_get_metadatas := fun c s => (s, Ok (map d_meta (c_docs c)));
  int_ := parse_int;
  (* floats are written with one digit after the point *)
  float_str := format_1f;
  home := u "/home/user"
|}.

(** A document with text and the metadata [d]. *)
Definition with_meta (id text : string) (d : Dict) : Doc :=
  {| d_id := u id; d_text := Some (u text); d_meta := Some d;
     d_dist := zero |}.

(** A document stored with text only. *)
Definition bare (id text : string) : Doc :=
  {| d_id := u id; d_text := Some (u text); d_meta := None; d_dist := zero |}.

Definition doc (id text doc_type session : string) (dist : float) : Doc :=
  {| d_id := u id; d_text := Some (u text);
     d_meta := Some [(DOC_TYPE, VStr (u doc_type));
                     (SESSION_ID, VStr (u session))];
     d_dist := dist |}.

Definition coll (docs : list Doc) : Coll :=
  {| c_name := COLLECTION_NAME; c_docs := docs; c_broken := false |}.

(** Three documents of types prompt, response, prompt. *)
Definition three : store :=
  [coll [doc "p1" "hello" "prompt" "s-1" zero;
         doc "r1" "hi there" "response" "s-1" (one / two)%b64;
         doc "p2" "bye" "prompt" "s-2" two]].

(** Six prompts, each of a session of its own. *)
Definition six : store :=
  [coll [doc "a" "one" "prompt" "s-1" zero; doc "b" "two" "prompt" "s-2" zero;
         doc "c" "three" "prompt" "s-3" zero; doc "d" "four" "prompt" "s-4" zero;
         doc "e" "five" "prompt" "s-5" zero; doc "f" "six" "prompt" "s-6" zero]].

(** The collection of the tool next to one that cannot be counted. *)
Definition flaky : store :=
  three ++ [{| c_name := u "scratch"; c_docs := []; c_broken := true |}].

(** A prompt followed by a document stored without metadata. *)
Definition unlabelled : store :=
  [coll [doc "p1" "hello" "prompt" "s-1" zero; bare "n1" "a note"]].

(** A document whose session id is the int 7. *)
Definition numbered : store :=
  [coll [with_meta "a" "one"
           [(DOC_TYPE, VStr (u "prompt")); (SESSION_ID, VInt 7)]]].

(** A document of type [unknown] and one whose metadata has no
    [doc_type]. *)
Definition unknowns : store :=
  [coll [with_meta "a" "one"
           [(DOC_TYPE, VStr (u "unknown")); (SESSION_ID, VStr (u "s-1"))];
         with_meta "b" "two" [(SESSION_ID, VStr (u "s-1"))]]].

(** Two documents whose types are the int 1 and the bool [True]. *)
Definition mixed : store :=
  [coll [with_meta "a" "one"
           [(DOC_TYPE, VInt 1); (SESSION_ID, VStr (u "s-1"))];
         with_meta "b" "two"
           [(DOC_TYPE, VBool true); (SESSION_ID, VStr (u "s-1"))]]].

(** The metadata dicts of the documents of a store that have metadata. *)
Definition dicts (s : store) : list Dict :=
  flat_map (fun d => match d_meta d with Some m => [m] | None => [] end)
           (flat_map c_docs s).

(** The collection of the tool in a store, when it is the first. *)
Definition first_coll (s : store) : Coll := hd (coll []) s.

(** Run the script with the arguments [args] after the script name. *)
Definition run (args : list str) (s : store) : Outcome store unit :=
  main runtime (u "chroma-cli.py" :: args) s.

End Mem.


(** * Vocabulary of the properties *)

(** The outcome [o], after [lines] were printed first. *)
Definition prepend {S A} (lines : list str) (o : Outcome S A) : Outcome S A :=
  mkOutcome (store_of o) (lines ++ stdout_of o) (result_of o).

Definition COMMANDS : list str :=
  [u "status"; u "list"; u "search"; u "types"].

(** Inspecting [col] in the store [t] fails: its retrieval raises, or its
    count does. *)
Definition inspection_fails (rt : Runtime) (client : Client rt)
    (col : CollectionInfo) (t : Store rt) : Prop :=
  match chroma_get_collection rt client (name col) t with
  | (_, Raise _) => True
  | (t1, Ok c) => exists e, snd (chroma_count rt c t1) = Raise e
  end.

(** Inspecting [col] in the store [t] gives the count [n]: it is retrieved
    and counted. *)
Definition inspection_counts (rt : Runtime) (client : Client rt)
    (col : CollectionInfo) (t : Store rt) (n : Z) : Prop :=
  match chroma_get_collection rt client (name col) t with
  | (_, Raise _) => False
  | (t1, Ok c) => snd (chroma_count rt c t1) = Ok n
  end.

(** The store that the inspection of [col] in [t] leaves. *)
Definition after_inspection (rt : Runtime) (client : Client rt)
    (col : CollectionInfo) (t : Store rt) : Store rt :=
  match chroma_get_collection rt client (name col) t with
  | (t1, Raise _) => t1
  | (t1, Ok c) => fst (chroma_count rt c t1)
  end.

(** The listing of [status]: [lines] are the lines of the collections
    [cols], inspected one after the other from the store [t]; a collection
    whose inspection fails has the line [(error)], one that is counted the
    line with its count. *)
Inductive listing (rt : Runtime) (client : Client rt)
    : Store rt -> list CollectionInfo -> list str -> Store rt -> Prop :=
| listing_done (t : Store rt) : listing rt client t [] [] t
| listing_error (t t' : Store rt) (col : CollectionInfo)
    (cols : list CollectionInfo) (lines : list str) :
    inspection_fails rt client col t ->
    listing rt client (after_inspection rt client col t) cols lines t' ->
    listing rt client t (col :: cols) (error_line col :: lines) t'
| listing_count (t t' : Store rt) (col : CollectionInfo) (n : Z)
    (cols : list CollectionInfo) (lines : list str) :
    inspection_counts rt client col t n ->
    listing rt client (after_inspection rt client col t) cols lines t' ->
    listing rt client t (col :: cols) (count_line col n :: lines) t'.

(** A line of the listing of [status] for [col]. *)
Definition status_line_of (col : CollectionInfo) (line : str) : Prop :=
  line = error_line col \/ exists n, line = count_line col n.

(** The lines [status] prints before the listing. *)
Definition status_heading (rt : Runtime) (n : Z) : list str :=
  [RULE; STATUS_TITLE; RULE; data_directory (VECTOR_DB_DIR rt);
   collections_header n].

(** The count argument, when given, is one that [int()] accepts. *)
Definition limit_ok (rt : Runtime) (args : list str) : Prop :=
  match args with
  | [] => True
  | n :: _ => exists z, int_ rt n = inl z
  end.

(** The count a command works with: [int()] of the argument that follows
    the command's own, 10 when there is none. *)
Definition limit_is (rt : Runtime) (args : list str) (n : Z) : Prop :=
  match args with
  | [] => n = 10
  | a :: _ => int_ rt a = inl n
  end.

(** A program that leaves the store as it found it, however it ends. *)
Definition preserves {S A} (m : M S A) : Prop := forall s, store_of (m s) = s.

(** The client calls of the script are reads: none of them changes the
    collections or the documents of the store. *)
Record read_only (rt : Runtime) : Prop := {
  ro_PersistentClient :
    forall path s, fst (chroma_PersistentClient rt path s) = s;
  ro_list_collections :
    forall client s, fst (chroma_list_collections rt client s) = s;
  ro_get_collection :
    forall client nm s, fst (chroma_get_collection rt client nm s) = s;
  ro_count : forall c s, fst (chroma_count rt c s) = s;
  ro_peek : forall c n s, fst (chroma_peek rt c n s) = s;
  ro_query : forall c qs n s, fst (chroma_query rt c qs n s) = s;
  ro_get_metadatas : forall c s, fst (chroma_get_metadatas rt c s) = s
}.

(** The line of [status] for [col], read from the store [s]. *)
Definition status_line (rt : Runtime) (client : Client rt) (s : Store rt)
    (col : CollectionInfo) : str :=
  match chroma_get_collection rt client (name col) s with
  | (s', Ok c) =>
    match chroma_count rt c s' with
    | (_, Ok n) => count_line col n
    | (_, Raise _) => error_line col
    end
  | (_, Raise _) => error_line col
  end.

(** ** Tallies *)

(** [meta.get(field, 'unknown')] for a document that has metadata. *)
Definition field_of (field : str) (d : Dict) : Value :=
  dict_get d field (VStr UNKNOWN).

(** Lines 149-156 for documents that all have metadata: the tally of
    [field] over their dicts. *)
Definition tally (field : str) (dicts : list Dict) : Counter.t :=
  fold_left (fun c d => Counter.incr (field_of field d) c)
            dicts Counter.empty.

(** The documents all have metadata: their dicts. *)
Definition all_have_metadata (metas : list Meta) (dicts : list Dict) : Prop :=
  metas = map Some dicts.

(** The values are all strings. *)
Definition all_str (values : list Value) : Prop :=
  Forall (fun v => is_str v = true) values.

(** In every dict, [field] is a string when it is there. *)
Definition strings_at (field : str) (dicts : list Dict) : Prop :=
  Forall (fun d => is_str (field_of field d) = true) dicts.

(** [d[key]] when [key in d]. *)
Fixpoint dict_find (d : Dict) (key : str) : option Value :=
  match d with
  | [] => None
  | (k, v) :: d' => if str_eqb k key then Some v else dict_find d' key
  end.

(** The number of documents whose metadata has [field], with a value equal
    to [v]. *)
Definition carrying (field : str) (v : Value) (dicts : list Dict) : Z :=
  Z.of_nat (List.length
    (filter (fun d => match dict_find d field with
                      | Some w => py_eqb w v
                      | None => false
                      end) dicts)).

(** The number of documents whose metadata has no [field]. *)
Definition lacking (field : str) (dicts : list Dict) : Z :=
  Z.of_nat (List.length
    (filter (fun d => match dict_find d field with
                      | Some _ => false
                      | None => true
                      end) dicts)).

(** The number of documents whose [field] reads [v]. *)
Definition occurrences (field : str) (v : Value) (dicts : list Dict) : Z :=
  Z.of_nat (List.length (filter (fun d => py_eqb (field_of field d) v) dicts)).

(** The keys of a counter, in order. *)
Definition keys (c : Counter.t) : list Value := map fst c.

(** Counts in descending order. *)
Definition descending (c : Counter.t) : Prop :=
  StronglySorted (fun a b => snd b <= snd a) c.

(** The counter [c] after [c[v] += 1] for each [v] of [values]. *)
Definition count_from (c : Counter.t) (values : list Value) : Counter.t :=
  fold_left (fun c v => Counter.incr v c) values c.

(** [key in c] *)
Definition has_key (c : Counter.t) (key : Value) : bool :=
  existsb (fun k => py_eqb k key) (keys c).

(** The values of [l] without repetition, each at its first occurrence. *)
Fixpoint distinct (l : list Value) : list Value :=
  match l with
  | [] => []
  | x :: l' => x :: filter (fun y => negb (py_eqb y x)) (distinct l')
  end.

(** The results of [f] on the elements of [l], when none raises. *)
Fixpoint collect {A B} (f : A -> Res B) (l : list A) : Res (list B) :=
  match l with
  | [] => Ok []
  | x :: l' =>
    match f x with
    | Raise e => Raise e
    | Ok y =>
      match collect f l' with
      | Raise e => Raise e
      | Ok ys => Ok (y :: ys)
      end
    end
  end.

(** The three lines every command but [status] starts with. *)
Definition list_heading (limit count : Z) : list str :=
  [RULE; list_header limit count; RULE].
Definition search_heading (query : str) : list str :=
  [RULE; search_header query; RULE].
Definition types_heading : list str := [RULE; TYPES_TITLE; RULE].

(** What [types] prints for a collection of [count] documents with the
    metadata [dicts], [session_lines] being the lines of the sessions
    shown. *)
Definition types_report (rt : Runtime) (count : Z) (dicts : list Dict)
    (session_lines : list str) : list str :=
  types_heading
  ++ (if count =? 0 then [NO_DOCUMENTS]
      else by_type_header count
           :: map (type_line rt) (Counter.most_common (tally DOC_TYPE dicts))
           ++ BY_SESSION_HEADER :: session_lines).

(** ** Listings *)

(** The number of documents shown in an output: each document, and nothing
    else, gets a line that starts with the content label. *)
Definition displayed (out : list str) : nat :=
  List.length (filter (startswith CONTENT) out).

(** [peek] answered with [k] records. *)
Definition returns_records (result : GetResult) (k : Z) : Prop :=
  List.length (ids result) = Z.to_nat k /\
  List.length (documents result) = Z.to_nat k /\
  List.length (metadatas result) = Z.to_nat k.

(** [list(enumerate(l, i))] *)
Fixpoint enumerate {X} (i : Z) (l : list X) : list (Z * X) :=
  match l with
  | [] => []
  | x :: l' => (i, x) :: enumerate (i + 1) l'
  end.

(** A record that [list] can show: it has text and metadata, and its
    session id is a string. *)
Definition list_ready (x : str * option str * Meta) : bool :=
  match x with
  | (_, Some _, Some d) => is_str (field_of SESSION_ID d)
  | _ => false
  end.

(** A result that [search] can show: it has text and metadata. *)
Definition search_ready (x : str * option str * Meta * float) : bool :=
  match x with
  | (_, Some _, Some _, _) => true
  | _ => false
  end.

(** What [list] prints for the record at index [i] and how that ends
    (lines 74-87). *)
Definition list_step (rt : Runtime) (i : Z) (x : str * option str * Meta)
    : list str * Res unit :=
  let '(id, doc, meta) := x in
  match meta with
  | None => ([], Raise NO_GET)
  | Some d =>
    match field_of SESSION_ID d with
    | VStr session =>
      let shown :=
        [[NL] ++ emoji_of (field_of DOC_TYPE d) ++ u " ["
           ++ str_of_int (i + 1) ++ u "] " ++ id;
         u "   Type: " ++ str_of_value rt (field_of DOC_TYPE d)
           ++ u " | Session: " ++ slice_to 8 session ++ u "..."] in
      match doc with
      | Some text => (shown ++ [content_line LIST_PREVIEW text], Ok tt)
      | None => (shown, Raise (not_subscriptable NONE_TYPE))
      end
    | v => ([], Raise (not_subscriptable (type_name v)))
    end
  end.

(** What [search] prints for the result at index [i] and how that ends
    (lines 114-128). *)
Definition search_step (rt : Runtime) (i : Z)
    (x : str * option str * Meta * float) : list str * Res unit :=
  let '(id, doc, meta, dist) := x in
  match meta with
  | None => ([], Raise NO_GET)
  | Some d =>
    let shown :=
      [[NL] ++ emoji_of (field_of DOC_TYPE d) ++ u " ["
         ++ str_of_int (i + 1) ++ u "] " ++ format_1f (similarity dist)
         ++ u "% match";
       u "   ID: " ++ id;
       u "   Type: " ++ str_of_value rt (field_of DOC_TYPE d)] in
    match doc with
    | Some text => (shown ++ [content_line SEARCH_PREVIEW text], Ok tt)
    | None => (shown, Raise (not_subscriptable NONE_TYPE))
    end
  end.

(** A loop over numbered records in which the record at index [i] prints
    the lines and ends as [step i] says: the lines of the loop and how it
    ends, which is at the first record that raises. *)
Fixpoint loop_steps {X} (step : Z -> X -> list str * Res unit) (i : Z)
    (l : list X) : list str * Res unit :=
  match l with
  | [] => ([], Ok tt)
  | x :: l' =>
    match snd (step i x) with
    | Ok _ =>
      (fst (step i x) ++ fst (loop_steps step (i + 1) l'),
       snd (loop_steps step (i + 1) l'))
    | Raise e => (fst (step i x), Raise e)
    end
  end.

(** The lines of the numbered record [ix] in such a loop. *)
Definition step_lines {X} (step : Z -> X -> list str * Res unit)
    (ix : Z * X) : list str :=
  fst (step (fst ix) (snd ix)).

(** [l[0]] raised. *)
Definition INDEX_ERROR : Exn :=
  Error (u "IndexError") (u "list index out of range").

(** ** Clients that fail

    The in-memory runtime with failures injected: each call of the client
    can be made to raise, and [query] to give a chosen answer. *)

Module Faulty.

Record Faults : Type := {
  on_open : option Exn;
  on_list_collections : option Exn;
  on_count : option Exn;
  on_peek : option Exn;
  on_query : option (Res QueryResult);
  on_get : option Exn
}.

(** What chromadb raises when the store cannot be opened or read. *)
Definition UNAVAILABLE : Exn :=
  Error (u "InternalError") (u "database is locked").

(** The store cannot be opened. *)
Definition locked : Faults := {|
  on_open := Some UNAVAILABLE; on_list_collections := None;
  on_count := None; on_peek := None; on_query := None; on_get := None
|}.

(** The collections can be retrieved and counted, their documents cannot
    be read. *)
Definition unreadable : Faults := {|
  on_open := None; on_list_collections := None; on_count := None;
  on_peek := Some UNAVAILABLE; on_query := Some (Raise UNAVAILABLE);
  on_get := Some UNAVAILABLE
|}.

(** An answer to a query that has one id and no list of documents. *)
Definition truncated_answer : QueryResult := {|
  q_ids := [[u "p1"]]; q_documents := []; q_metadatas := [[Some []]];
  q_distances := [[of_int 0]]
|}.

Definition truncated : Faults := {|
  on_open := None; on_list_collections := None; on_count := None;
  on_peek := None; on_query := Some (Ok truncated_answer); on_get := None
|}.

Definition or_raise {A} (fault : option Exn)
    (op : Mem.store -> Mem.store * Res A) : Mem.store -> Mem.store * Res A :=
  fun s => match fault with
           | Some e => (s, Raise e)
           | None => op s
           end.

Definition runtime (f : Faults) : Runtime := {|
  Store := Mem.store;
  Client := unit;
  Collection := Mem.Coll;
  chroma_PersistentClient := fun path =>
    or_raise (on_open f) (chroma_PersistentClient Mem.runtime path);
  chroma_list_collections := fun client =>
    or_raise (on_list_collections f) (chroma_list_collections Mem.runtime client);
  chroma_get_collection := chroma_get_collection Mem.runtime;
  chroma_count := fun c =>
    or_raise (on_count f) (chroma_count Mem.runtime c);
  chroma_peek := fun c n =>
    or_raise (on_peek f) (chroma_peek Mem.runtime c n);
  chroma_query := fun c qs n s =>
    match on_query f with
    | Some answer => (s, answer)
    | None => chroma_query Mem.runtime c qs n s
    end;
  chroma_get_metadatas := fun c =>
    or_raise (on_get f) (chroma_get_metadatas Mem.runtime c);
  int_ := Mem.parse_int;
  float_str := float_str Mem.runtime;
  home := home Mem.runtime
|}.

Definition run (f : Faults) (args : list str) (s : Mem.store)
    : Outcome Mem.store unit :=
  main (runtime f) (u "chroma-cli.py" :: args) s.

End Faulty.
(** * Properties *)

(** ** Strings *)

Section StrFacts.

Lemma str_eqb_refl (a : str) : str_eqb a a = true.
Proof.
  induction a as [|x a IH]; simpl; [reflexivity|].
  now rewrite N.eqb_refl.
Qed.

Lemma str_eqb_eq (a b : str) : str_eqb a b = true <-> a = b.
Proof.
  split; [|intros ->; apply str_eqb_refl].
  revert b; induction a as [|x a IH]; intros [|y b]; simpl; try discriminate.
  - reflexivity.
  - intros H. apply andb_true_iff in H as [Hx Hab].
    apply N.eqb_eq in Hx. f_equal; [exact Hx | now apply IH].
Qed.

Lemma str_eqb_neq (a b : str) : str_eqb a b = false <-> a <> b.
Proof.
  rewrite <- str_eqb_eq. destruct (str_eqb a b); split; congruence.
Qed.

Lemma replace_length (a b : N) (s : str) :
  List.length (replace a b s) = List.length s.
Proof. unfold replace. apply length_map. Qed.

Lemma replace_absent (a b : N) (s : str) : ~ In a s -> replace a b s = s.
Proof.
  induction s as [|c s IH]; simpl; intros Hin; [reflexivity|].
  destruct (N.eqb_spec c a) as [->|_].
  - exfalso. apply Hin. now left.
  - f_equal. apply IH. intros H. apply Hin. now right.
Qed.

Lemma startswith_app (p s : str) : startswith p (p ++ s) = true.
Proof.
  induction p as [|x p IH]; simpl; [reflexivity|].
  now rewrite N.eqb_refl.
Qed.

Lemma endswith_app (p s : str) : endswith p (s ++ p) = true.
Proof. unfold endswith. rewrite rev_app_distr. apply startswith_app. Qed.

End StrFacts.

(** ** Content preview *)

Section Preview.

Variables (limit : nat) (doc : str).

Lemma preview_long :
  len doc > Z.of_nat limit ->
  preview limit doc = replace NL SP (slice_to limit doc) ++ ELLIPSIS.
Proof.
  intros H. unfold preview.
  destruct (Z.gtb_spec (len doc) (Z.of_nat limit)); [reflexivity | lia].
Qed.

Lemma preview_short :
  len doc <= Z.of_nat limit -> preview limit doc = replace NL SP doc.
Proof.
  intros H. unfold preview, slice_to.
  destruct (Z.gtb_spec (len doc) (Z.of_nat limit)); [lia|].
  rewrite firstn_all2; [reflexivity|]. unfold len in H. lia.
Qed.

End Preview.

(** C3 (as amended).  Content longer than the limit is previewed as its
    first [limit] characters, newlines shown as spaces, followed by the
    ellipsis marker: [limit + 3] characters ending in the marker.  Content
    of at most [limit] characters gets no marker and is printed with each
    newline replaced by a space, hence unchanged when it has no newline.
    This holds for every limit, so for the 80 of [list] and the 100 of
    [search]. *)
Theorem preview_spec (limit : nat) (doc : str) :
  (len doc > Z.of_nat limit ->
     preview limit doc = replace NL SP (slice_to limit doc) ++ ELLIPSIS /\
     len (preview limit doc) = Z.of_nat limit + 3 /\
     endswith ELLIPSIS (preview limit doc) = true) /\
  (len doc <= Z.of_nat limit ->
     preview limit doc = replace NL SP doc /\
     len (preview limit doc) = len doc /\
     (~ In NL doc -> preview limit doc = doc)).
Proof.
  split; intros H.
  - rewrite (preview_long limit doc H). repeat split.
    + unfold len, slice_to in *.
      rewrite length_app, replace_length, firstn_length_le by lia.
      simpl. lia.
    + apply endswith_app.
  - rewrite (preview_short limit doc H). repeat split.
    + unfold len. now rewrite replace_length.
    + apply replace_absent.
Qed.

Lemma preview_spec_witness :
  len (preview LIST_PREVIEW (times 97%N 81)) = 83 /\
  len (preview SEARCH_PREVIEW (times 97%N 101)) = 103 /\
  preview SEARCH_PREVIEW (u "hello") = u "hello".
Proof.
  split; [|split].
  - destruct (preview_spec LIST_PREVIEW (times 97%N 81)) as [Hlong _].
    destruct Hlong as (_ & Hlen & _); [vm_compute; reflexivity | exact Hlen].
  - destruct (preview_spec SEARCH_PREVIEW (times 97%N 101)) as [Hlong _].
    destruct Hlong as (_ & Hlen & _); [vm_compute; reflexivity | exact Hlen].
  - destruct (preview_spec SEARCH_PREVIEW (u "hello")) as [_ Hshort].
    destruct Hshort as (_ & _ & Hsame); [vm_compute; discriminate|].
    apply Hsame. vm_compute. intuition discriminate.
Defined.

(** C3, counterexample.  A three-character content with a newline in the
    middle is under both limits, and its preview differs from it: the
    newline is printed as a space. *)
Lemma preview_newline_modified :
  let doc := [97; NL; 98]%N in
  len doc <= Z.of_nat LIST_PREVIEW /\
  len doc <= Z.of_nat SEARCH_PREVIEW /\
  preview LIST_PREVIEW doc = [97; SP; 98]%N /\
  preview LIST_PREVIEW doc <> doc /\
  preview SEARCH_PREVIEW doc <> doc /\
  content_line LIST_PREVIEW doc <> CONTENT ++ doc.
Proof.
  cbv zeta. repeat split; try (vm_compute; discriminate); vm_compute; reflexivity.
Qed.


(** ** Similarity

    The three operations of line 116 each round once.  Their results are
    followed as integers: the value of a float in units of [2^-1074], the
    exact result before rounding in units of [2^-1200]. *)

Module Rounding.

Lemma pow2_pos k : 0 <= k -> 0 < 2 ^ k.
Proof. intros. apply Z.pow_pos_nonneg; lia. Qed.

Lemma rne_bounds M k : 0 <= k -> M / 2 ^ k <= rne M k <= M / 2 ^ k + 1.
Proof.
  intros Hk. unfold rne.
  destruct (2 * (M mod 2 ^ k) ?= 2 ^ k); [destruct (Z.even _)| |]; lia.
Qed.

Lemma rne_mono M1 M2 k : 0 <= k -> M1 <= M2 -> rne M1 k <= rne M2 k.
Proof.
  intros Hk HM. pose proof (pow2_pos k Hk) as Hp.
  pose proof (Z.div_le_mono M1 M2 (2 ^ k) Hp HM) as Hq.
  pose proof (rne_bounds M1 k Hk). pose proof (rne_bounds M2 k Hk).
  destruct (Z.eq_dec (M1 / 2 ^ k) (M2 / 2 ^ k)) as [E|NE]; [|lia].
  pose proof (Z.div_mod M1 (2 ^ k) ltac:(lia)) as D1.
  pose proof (Z.div_mod M2 (2 ^ k) ltac:(lia)) as D2.
  assert (Hr : M1 mod 2 ^ k <= M2 mod 2 ^ k) by (rewrite E in D1; lia).
  unfold rne. rewrite E.
  destruct (Z.compare_spec (2 * (M1 mod 2 ^ k)) (2 ^ k));
    destruct (Z.compare_spec (2 * (M2 mod 2 ^ k)) (2 ^ k));
    try destruct (Z.even (M2 / 2 ^ k)); lia.
Qed.

Lemma rne_scale M k a : 0 <= k -> 0 <= a -> rne (M * 2 ^ a) (k + a) = rne M k.
Proof.
  intros Hk Ha. pose proof (pow2_pos k Hk). pose proof (pow2_pos a Ha).
  unfold rne. rewrite Z.pow_add_r by lia.
  rewrite Z.div_mul_cancel_r by lia.
  rewrite Z.mul_mod_distr_r by lia.
  replace (2 * (M mod 2 ^ k * 2 ^ a)) with (2 * (M mod 2 ^ k) * 2 ^ a) by ring.
  rewrite <- Zmult_compare_compat_r by lia. reflexivity.
Qed.

Lemma rne_exact M k : 0 <= k -> rne (M * 2 ^ k) k = M.
Proof.
  intros Hk. replace k with (0 + k) at 2 by lia.
  rewrite rne_scale by lia. unfold rne. simpl.
  rewrite Z.div_1_r, Z.mod_1_r. reflexivity.
Qed.

Lemma round_loc_of M k :
  0 <= k -> round_nearest_even (M / 2 ^ k) (loc_of M k) = rne M k.
Proof.
  intros Hk. pose proof (pow2_pos k Hk). unfold loc_of, rne.
  destruct (Z.eqb_spec (M mod 2 ^ k) 0) as [E|NE].
  - rewrite E.
    replace (2 * 0 ?= 2 ^ k) with Lt by (symmetry; apply Z.compare_lt_iff; lia).
    reflexivity.
  - cbn [round_nearest_even].
    destruct (2 * (M mod 2 ^ k) ?= 2 ^ k); reflexivity.
Qed.

Lemma iter_pos_nat {A} (f : A -> A) (p : positive) : forall x,
  iter_pos f p x = Nat.iter (Pos.to_nat p) f x.
Proof.
  induction p as [p IH|p IH|]; intros x; simpl iter_pos.
  - rewrite !IH, Pos2Nat.inj_xI.
    replace (S (2 * Pos.to_nat p)) with (Pos.to_nat p + (Pos.to_nat p + 1))%nat by lia.
    rewrite !Nat.iter_add. reflexivity.
  - rewrite !IH, Pos2Nat.inj_xO.
    replace (2 * Pos.to_nat p)%nat with (Pos.to_nat p + Pos.to_nat p)%nat by lia.
    rewrite Nat.iter_add. reflexivity.
  - reflexivity.
Qed.

Lemma shr_1_spec m r s :
  0 <= m ->
  shr_1 {| shr_m := m; shr_r := r; shr_s := s |}
  = {| shr_m := m / 2; shr_r := Z.odd m; shr_s := r || s |}.
Proof.
  intros Hm. destruct m as [|p|p]; [reflexivity| |lia].
  destruct p as [p|p|]; cbn [shr_1].
  - f_equal. rewrite Pos2Z.inj_xI.
    apply (Z.div_unique_pos _ 2 _ 1); lia.
  - f_equal. rewrite Pos2Z.inj_xO.
    apply (Z.div_unique_pos _ 2 _ 0); lia.
  - reflexivity.
Qed.

Lemma loc_of_shr_record_step q r s M j :
  0 <= j -> 0 <= M -> q = M / 2 ^ j ->
  loc_of_shr_record {| shr_m := q; shr_r := r; shr_s := s |} = loc_of M j ->
  loc_of_shr_record {| shr_m := q / 2; shr_r := Z.odd q; shr_s := r || s |}
  = loc_of M (j + 1).
Proof.
  intros Hj HM Hq Hloc. pose proof (pow2_pos j Hj) as Hp.
  assert (Hrest : (r || s = false) <-> M mod 2 ^ j = 0).
  { unfold loc_of in Hloc. simpl in Hloc.
    destruct (Z.eqb_spec (M mod 2 ^ j) 0); destruct r, s; simpl;
      split; intros; try discriminate; try congruence; try lia. }
  pose proof (Z.mod_pos_bound M (2 ^ j) Hp) as Hb.
  assert (HR : M mod 2 ^ (j + 1) = M mod 2 ^ j + 2 ^ j * (q mod 2)).
  { rewrite Z.pow_add_r by lia. rewrite Z.rem_mul_r by lia. now subst q. }
  assert (Hpow : 2 ^ (j + 1) = 2 * 2 ^ j) by (rewrite Z.pow_add_r by lia; lia).
  unfold loc_of. rewrite HR, Hpow.
  rewrite (Zmod_odd q).
  destruct (Z.odd q); destruct (r || s) eqn:Ers; cbn [loc_of_shr_record].
  - assert (M mod 2 ^ j <> 0) by (intros E; apply Hrest in E; discriminate).
    destruct (Z.eqb_spec (M mod 2 ^ j + 2 ^ j * 1) 0); [lia|].
    f_equal. symmetry. apply Z.compare_gt_iff. lia.
  - assert (M mod 2 ^ j = 0) as -> by now apply Hrest.
    destruct (Z.eqb_spec (0 + 2 ^ j * 1) 0); [lia|].
    f_equal. symmetry. apply Z.compare_eq_iff. lia.
  - assert (M mod 2 ^ j <> 0) by (intros E; apply Hrest in E; discriminate).
    destruct (Z.eqb_spec (M mod 2 ^ j + 2 ^ j * 0) 0); [lia|].
    f_equal. symmetry. apply Z.compare_lt_iff. lia.
  - assert (M mod 2 ^ j = 0) as -> by now apply Hrest.
    destruct (Z.eqb_spec (0 + 2 ^ j * 0) 0); [reflexivity | lia].
Qed.

Lemma iter_shr_1 M (j : nat) :
  0 <= M ->
  let rec := Nat.iter j shr_1 {| shr_m := M; shr_r := false; shr_s := false |} in
  shr_m rec = M / 2 ^ Z.of_nat j /\ loc_of_shr_record rec = loc_of M (Z.of_nat j).
Proof.
  intros HM. induction j as [|j IH]; cbv zeta in *.
  - simpl. rewrite Z.div_1_r. split; [reflexivity|].
    unfold loc_of. simpl. now rewrite Z.mod_1_r.
  - rewrite Nat2Z.inj_succ, <- Z.add_1_r. simpl Nat.iter.
    destruct (Nat.iter j shr_1 _) as [q r s]. simpl in IH.
    destruct IH as [Hq Hloc].
    assert (0 <= q) by (subst q; apply Z.div_pos; [lia | apply pow2_pos; lia]).
    rewrite shr_1_spec by assumption. split.
    + simpl. subst q. rewrite Z.div_div by (try apply pow2_pos; lia).
      rewrite Z.pow_add_r by lia. reflexivity.
    + apply loc_of_shr_record_step; auto; lia.
Qed.

(** Shifting [M] right by [k > 0] bits and rounding to nearest even. *)
Lemma shr_round M (k : positive) :
  0 <= M ->
  let rec := iter_pos shr_1 k {| shr_m := M; shr_r := false; shr_s := false |} in
  round_nearest_even (shr_m rec) (loc_of_shr_record rec) = rne M (Zpos k).
Proof.
  intros HM rec. unfold rec. rewrite iter_pos_nat.
  destruct (iter_shr_1 M (Pos.to_nat k) HM) as [Hq Hloc].
  rewrite Hq, Hloc, positive_nat_Z. apply round_loc_of. lia.
Qed.

Lemma digits2_bounds (m : positive) :
  2 ^ (Zpos (digits2_pos m) - 1) <= Zpos m < 2 ^ Zpos (digits2_pos m).
Proof.
  assert (Hstep : forall d, 0 < d -> 2 ^ d = 2 * 2 ^ (d - 1)).
  { intros d Hd. replace d with (Z.succ (d - 1)) at 1 by lia.
    apply Z.pow_succ_r. lia. }
  induction m as [m IH|m IH|]; simpl digits2_pos.
  - rewrite Pos2Z.inj_succ, (Hstep (Z.succ _)) by lia.
    replace (Z.succ (Zpos (digits2_pos m)) - 1) with (Zpos (digits2_pos m)) by lia.
    rewrite (Hstep (Zpos (digits2_pos m))) in * by lia. lia.
  - rewrite Pos2Z.inj_succ, (Hstep (Z.succ _)) by lia.
    replace (Z.succ (Zpos (digits2_pos m)) - 1) with (Zpos (digits2_pos m)) by lia.
    rewrite (Hstep (Zpos (digits2_pos m))) in * by lia. lia.
  - simpl. lia.
Qed.

Lemma digits_pos (m : positive) : digits (Zpos m) = Zpos (digits2_pos m).
Proof.
  unfold digits. pose proof (digits2_bounds m) as [Hlo Hhi].
  rewrite (Z.log2_unique (Zpos m) (Zpos (digits2_pos m) - 1)); [lia | lia |].
  replace (Z.succ (Zpos (digits2_pos m) - 1)) with (Zpos (digits2_pos m)) by lia.
  split; assumption.
Qed.

Lemma digits_bounds N : 0 < N -> 2 ^ (digits N - 1) <= N < 2 ^ digits N.
Proof.
  intros H. unfold digits. pose proof (Z.log2_spec N H).
  replace (Z.log2 N + 1 - 1) with (Z.log2 N) by lia.
  replace (Z.log2 N + 1) with (Z.succ (Z.log2 N)) by lia. assumption.
Qed.

Lemma digits_scale N a : 0 < N -> 0 <= a -> digits (N * 2 ^ a) = digits N + a.
Proof. intros HN Ha. unfold digits. rewrite Z.log2_mul_pow2 by lia. lia. Qed.

Lemma digits_mono N1 N2 : 0 < N1 -> N1 <= N2 -> digits N1 <= digits N2.
Proof. intros H1 H2. unfold digits. pose proof (Z.log2_le_mono N1 N2 H2). lia. Qed.

Lemma digits_positive N : 0 < N -> 0 < digits N.
Proof. intros H. unfold digits. pose proof (Z.log2_nonneg N). lia. Qed.

Lemma pow2_le a b : 0 <= a <= b -> 2 ^ a <= 2 ^ b.
Proof. intros. apply Z.pow_le_mono_r; lia. Qed.

Lemma pow2_lt a b : 0 <= a < b -> 2 ^ a < 2 ^ b.
Proof. intros. apply Z.pow_lt_mono_r; lia. Qed.

Lemma pow2_split a b : 0 <= a -> 0 <= b -> 2 ^ (a + b) = 2 ^ a * 2 ^ b.
Proof. intros. apply Z.pow_add_r; lia. Qed.

Lemma rne_le_pow N k b : 0 <= k -> 0 <= b -> N < 2 ^ (k + b) -> rne N k <= 2 ^ b.
Proof.
  intros Hk Hb HN. pose proof (pow2_pos k Hk). pose proof (rne_bounds N k Hk).
  assert (N / 2 ^ k < 2 ^ b); [|lia].
  apply Z.div_lt_upper_bound; [lia|]. rewrite <- pow2_split by lia. exact HN.
Qed.

Lemma rne_ge_pow N k b : 0 <= k -> 0 <= b -> 2 ^ (k + b) <= N -> 2 ^ b <= rne N k.
Proof.
  intros Hk Hb HN. pose proof (pow2_pos k Hk). pose proof (rne_bounds N k Hk).
  assert (2 ^ b <= N / 2 ^ k); [|lia].
  apply Z.div_le_lower_bound; [lia|]. rewrite <- pow2_split by lia. exact HN.
Qed.

Lemma rne_nonneg N k : 0 <= k -> 0 <= N -> 0 <= rne N k.
Proof.
  intros Hk HN. pose proof (rne_bounds N k Hk).
  pose proof (Z.div_pos N (2 ^ k) HN (pow2_pos k Hk)). lia.
Qed.


Lemma shiftW_ge N : 126 <= shiftW N.
Proof. unfold shiftW. lia. Qed.

Lemma GW_mono N1 N2 : 0 < N1 -> N1 <= N2 -> GW N1 <= GW N2.
Proof.
  intros H1 H12. unfold GW.
  pose proof (shiftW_ge N1). pose proof (shiftW_ge N2).
  pose proof (digits_mono N1 N2 H1 H12) as Hd.
  assert (Hk : shiftW N1 <= shiftW N2) by (unfold shiftW; lia).
  destruct (Z.eq_dec (shiftW N1) (shiftW N2)) as [E|NE].
  - rewrite <- E. apply Z.mul_le_mono_nonneg_r.
    + apply Z.pow_nonneg. lia.
    + apply rne_mono; lia.
  - set (k1 := shiftW N1) in *. set (k2 := shiftW N2) in *.
    assert (Hk2 : k2 = digits N2 - 53) by (unfold k2, k1, shiftW in *; lia).
    assert (Hk1 : digits N1 - 53 <= k1) by (unfold k1, shiftW; lia).
    pose proof (digits_bounds N1 H1) as [_ Hhi].
    pose proof (digits_bounds N2 ltac:(lia)) as [Hlo _].
    assert (Hup : rne N1 k1 <= 2 ^ 53).
    { apply rne_le_pow; try lia.
      eapply Z.lt_le_trans; [exact Hhi|].
      apply pow2_le. pose proof (digits_positive N1 H1). lia. }
    assert (Hdown : 2 ^ 52 <= rne N2 k2).
    { apply rne_ge_pow; try lia.
      replace (k2 + 52) with (digits N2 - 1) by lia. exact Hlo. }
    apply Z.le_trans with (2 ^ 53 * 2 ^ (k1 - 126)).
    + apply Z.mul_le_mono_nonneg_r; [apply Z.pow_nonneg; lia | exact Hup].
    + apply Z.le_trans with (2 ^ 52 * 2 ^ (k2 - 126)).
      * rewrite <- !pow2_split by lia. apply pow2_le. lia.
      * apply Z.mul_le_mono_nonneg_r; [apply Z.pow_nonneg; lia | exact Hdown].
Qed.

Lemma GW_nonneg N : 0 <= N -> 0 <= GW N.
Proof.
  intros H. unfold GW. pose proof (shiftW_ge N).
  apply Z.mul_nonneg_nonneg; [apply rne_nonneg; lia | apply Z.pow_nonneg; lia].
Qed.

(** *** Values of floats *)


Lemma fexp_eq x : fexp prec emax x = Z.max (x - 53) (-1074).
Proof. reflexivity. Qed.

Lemma valid_finite s m e :
  valid (S754_finite s m e) <->
  Z.max (Zpos (digits2_pos m) + e - 53) (-1074) = e /\ e <= 971.
Proof.
  unfold valid, valid_binary, bounded, canonical_mantissa.
  rewrite fexp_eq, andb_true_iff, Z.eqb_eq, Z.leb_le. reflexivity.
Qed.

Lemma valid_bounds s m e :
  valid (S754_finite s m e) ->
  -1074 <= e <= 971 /\ Zpos (digits2_pos m) <= 53 /\
  (-1074 < e -> Zpos (digits2_pos m) = 53).
Proof. rewrite valid_finite. lia. Qed.

Lemma mag_finite_lt s m e : valid (S754_finite s m e) -> 0 < mag (S754_finite s m e) < 2 ^ 2098.
Proof.
  intros H. apply valid_bounds in H as (He & Hd & _). cbn [mag].
  pose proof (digits2_bounds m) as [_ Hhi].
  pose proof (pow2_pos (e + 1074) ltac:(lia)).
  split; [apply Z.mul_pos_pos; lia|].
  apply Z.lt_le_trans with (2 ^ 53 * 2 ^ (e + 1074)).
  - apply Z.mul_lt_mono_pos_r; [lia|].
    eapply Z.lt_le_trans; [exact Hhi|]. apply pow2_le. lia.
  - rewrite <- pow2_split by lia. apply pow2_le. lia.
Qed.

Lemma mag_lt_exp s1 m1 e1 s2 m2 e2 :
  valid (S754_finite s1 m1 e1) -> valid (S754_finite s2 m2 e2) ->
  e1 < e2 ->
  Zpos m1 * 2 ^ (e1 + 1074) < Zpos m2 * 2 ^ (e2 + 1074).
Proof.
  intros V1 V2 He.
  apply valid_bounds in V1 as (He1 & Hd1 & _).
  apply valid_bounds in V2 as (He2 & _ & Hd2).
  specialize (Hd2 ltac:(lia)).
  pose proof (digits2_bounds m1) as [_ Hhi].
  pose proof (digits2_bounds m2) as [Hlo _]. rewrite Hd2 in Hlo.
  pose proof (pow2_pos (e1 + 1074) ltac:(lia)).
  pose proof (pow2_pos (e2 + 1074) ltac:(lia)).
  apply Z.lt_le_trans with (2 ^ 53 * 2 ^ (e1 + 1074)).
  - apply Z.mul_lt_mono_pos_r; [lia|].
    eapply Z.lt_le_trans; [exact Hhi|]. apply pow2_le. lia.
  - apply Z.le_trans with (2 ^ (53 - 1) * 2 ^ (e2 + 1074)).
    + rewrite <- !pow2_split by lia. apply pow2_le. lia.
    + apply Z.mul_le_mono_nonneg_r; lia.
Qed.

Lemma compare_mag s1 m1 e1 s2 m2 e2 :
  valid (S754_finite s1 m1 e1) -> valid (S754_finite s2 m2 e2) ->
  match e1 ?= e2 with
  | Lt => Lt
  | Gt => Gt
  | Eq => Pos.compare_cont Eq m1 m2
  end = (Zpos m1 * 2 ^ (e1 + 1074) ?= Zpos m2 * 2 ^ (e2 + 1074)).
Proof.
  intros V1 V2. destruct (Z.compare_spec e1 e2) as [E|L|G].
  - subst e2. apply valid_bounds in V1 as (He1 & _).
    rewrite <- Zmult_compare_compat_r by (apply Z.lt_gt, pow2_pos; lia).
    reflexivity.
  - symmetry. apply Z.compare_lt_iff. now apply (mag_lt_exp s1 m1 e1 s2 m2 e2).
  - symmetry. apply Z.compare_gt_iff. now apply (mag_lt_exp s2 m2 e2 s1 m1 e1).
Qed.

Lemma compare_val f1 f2 :
  valid f1 -> valid f2 -> is_nan f1 = false -> is_nan f2 = false ->
  SFcompare f1 f2 = Some (val f1 ?= val f2).
Proof.
  intros V1 V2 N1 N2.
  destruct f1 as [s1|s1| |s1 m1 e1]; try discriminate;
  destruct f2 as [s2|s2| |s2 m2 e2]; try discriminate;
  unfold val; cbn [SFcompare sign_of mag].
  - destruct s1, s2; reflexivity.
  - destruct s1, s2; reflexivity.
  - pose proof (mag_finite_lt s2 m2 e2 V2) as [Hpos _]. cbn [mag] in Hpos.
    destruct s1, s2; cbn [cond_Zopp]; f_equal; symmetry;
      try (apply Z.compare_lt_iff; lia); apply Z.compare_gt_iff; lia.
  - destruct s1, s2; reflexivity.
  - destruct s1, s2; reflexivity.
  - pose proof (mag_finite_lt s2 m2 e2 V2) as [Hpos Hlt]. cbn [mag] in Hpos, Hlt.
    destruct s1, s2; cbn [cond_Zopp]; f_equal; symmetry;
      try (apply Z.compare_lt_iff; lia); apply Z.compare_gt_iff; lia.
  - pose proof (mag_finite_lt s1 m1 e1 V1) as [Hpos _]. cbn [mag] in Hpos.
    destruct s1, s2; cbn [cond_Zopp]; f_equal; symmetry;
      try (apply Z.compare_lt_iff; lia); apply Z.compare_gt_iff; lia.
  - pose proof (mag_finite_lt s1 m1 e1 V1) as [Hpos Hlt]. cbn [mag] in Hpos, Hlt.
    destruct s1, s2; cbn [cond_Zopp]; f_equal; symmetry;
      try (apply Z.compare_lt_iff; lia); apply Z.compare_gt_iff; lia.
  - pose proof (mag_finite_lt s1 m1 e1 V1) as [Hp1 _].
    pose proof (mag_finite_lt s2 m2 e2 V2) as [Hp2 _]. cbn [mag] in Hp1, Hp2.
    destruct s1, s2; cbn [cond_Zopp]; f_equal.
    + rewrite Z.compare_opp.
      rewrite <- (compare_mag true m2 e2 true m1 e1 V2 V1).
      rewrite (Z.compare_antisym e1 e2).
      destruct (e1 ?= e2); try reflexivity. cbn [CompOpp].
      rewrite !Pos.compare_cont_spec, (Pos.compare_antisym m1 m2).
      unfold Pos.switch_Eq. destruct (m1 ?= m2)%positive; reflexivity.
    + symmetry. apply Z.compare_lt_iff. lia.
    + symmetry. apply Z.compare_gt_iff. lia.
    + apply (compare_mag false m1 e1 false m2 e2 V1 V2).
Qed.

Lemma leb_val f1 f2 :
  valid f1 -> valid f2 -> is_nan f1 = false -> is_nan f2 = false ->
  SFleb f1 f2 = (val f1 <=? val f2).
Proof.
  intros V1 V2 N1 N2. unfold SFleb. rewrite (compare_val f1 f2) by assumption.
  unfold Z.leb. destruct (val f1 ?= val f2); reflexivity.
Qed.

Lemma ltb_val f1 f2 :
  valid f1 -> valid f2 -> is_nan f1 = false -> is_nan f2 = false ->
  SFltb f1 f2 = (val f1 <? val f2).
Proof.
  intros V1 V2 N1 N2. unfold SFltb. rewrite (compare_val f1 f2) by assumption.
  unfold Z.ltb. destruct (val f1 ?= val f2); reflexivity.
Qed.

(** [shr_fexp] on an exact mantissa, as arithmetic. *)
Lemma shr_fexp_exact (M E : Z) :
  0 <= M ->
  let k := fexp prec emax (Zdigits2 M + E) - E in
  let (mrs, e) := shr_fexp prec emax M E loc_Exact in
  e = E + Z.max k 0 /\
  shr_m mrs = M / 2 ^ Z.max k 0 /\
  round_nearest_even (shr_m mrs) (loc_of_shr_record mrs) = rne M (Z.max k 0).
Proof.
  intros HM k. unfold shr_fexp. fold k. cbn [shr_record_of_loc].
  destruct k as [|kp|kp] eqn:Ek; cbn [shr].
  - replace (Z.max 0 0) with 0 by reflexivity.
    rewrite Z.add_0_r. cbn [shr_m loc_of_shr_record round_nearest_even].
    change (2 ^ 0) with 1. rewrite Z.div_1_r.
    repeat split. unfold rne. change (2 ^ 0) with 1.
    now rewrite Z.div_1_r, Z.mod_1_r.
  - replace (Z.max (Zpos kp) 0) with (Zpos kp) by lia.
    split; [reflexivity|]. split.
    + rewrite iter_pos_nat.
      destruct (iter_shr_1 M (Pos.to_nat kp) HM) as [Hq _].
      rewrite Hq, positive_nat_Z. reflexivity.
    + apply shr_round. exact HM.
  - replace (Z.max (Zneg kp) 0) with 0 by lia.
    rewrite Z.add_0_r. cbn [shr_m loc_of_shr_record round_nearest_even].
    change (2 ^ 0) with 1. rewrite Z.div_1_r.
    repeat split. unfold rne. change (2 ^ 0) with 1.
    now rewrite Z.div_1_r, Z.mod_1_r.
Qed.


Lemma binary_round_aux_exact s M E :
  0 <= M -> binary_round_aux prec emax s M E loc_Exact = round_exact s M E.
Proof.
  intros HM. unfold binary_round_aux, round_exact.
  pose proof (shr_fexp_exact M E HM) as H1. cbv zeta in H1.
  destruct (shr_fexp prec emax M E loc_Exact) as [mrs' e'].
  destruct H1 as (He' & _ & Hm1). rewrite Hm1, He'.
  set (k := Z.max (fexp prec emax (Zdigits2 M + E) - E) 0).
  assert (Hm1' : 0 <= rne M k) by (apply rne_nonneg; unfold k; lia).
  pose proof (shr_fexp_exact (rne M k) (E + k) Hm1') as H2. cbv zeta in H2.
  destruct (shr_fexp prec emax (rne M k) (E + k) loc_Exact) as [mrs'' e''].
  destruct H2 as (He'' & Hm2 & _). rewrite Hm2, He''. reflexivity.
Qed.

Lemma digits2_le (q : positive) b : 0 <= b -> Zpos q < 2 ^ b -> Zpos (digits2_pos q) <= b.
Proof.
  intros Hb Hq. pose proof (digits2_bounds q) as [Hlo _].
  destruct (Z_le_gt_dec (Zpos (digits2_pos q)) b) as [H|H]; [exact H|].
  exfalso. assert (2 ^ b <= 2 ^ (Zpos (digits2_pos q) - 1)) by (apply pow2_le; lia).
  lia.
Qed.

Lemma digits2_ge (q : positive) b : 0 <= b -> 2 ^ b <= Zpos q -> b < Zpos (digits2_pos q).
Proof.
  intros Hb Hq. pose proof (digits2_bounds q) as [_ Hhi].
  destruct (Z_lt_le_dec b (Zpos (digits2_pos q))) as [H|H]; [exact H|].
  exfalso. assert (2 ^ Zpos (digits2_pos q) <= 2 ^ b) by (apply pow2_le; lia).
  lia.
Qed.

Section RoundExact.

Variables (s : bool) (p : positive) (E : Z).

Hypothesis E_low : -1200 <= E.
Hypothesis aligned : 53 <= Zpos (digits2_pos p) \/ E <= -1074.

Ltac name_parts :=
  unfold rounded, target in *;
  set (n := Zpos (digits2_pos p)) in *;
  set (t := Z.max (n + E - 53) (-1074)) in *;
  set (m1 := rne (Zpos p) (t - E)) in *;
  set (N := Zpos p * 2 ^ (E + 1200)) in *.

Lemma round_exact_shift : 0 <= target p E - E.
Proof. unfold target. lia. Qed.

Lemma round_exact_m1_bounds : 0 <= rounded p E <= 2 ^ 53.
Proof.
  pose proof round_exact_shift. name_parts. split.
  - apply rne_nonneg; lia.
  - apply rne_le_pow; try lia. pose proof (digits2_bounds p) as [_ Hhi]. fold n in Hhi.
    eapply Z.lt_le_trans; [exact Hhi|]. apply pow2_le. unfold t. lia.
Qed.

Lemma round_exact_m1_normal : -1074 < target p E -> 2 ^ 52 <= rounded p E.
Proof.
  intros Ht. pose proof round_exact_shift. name_parts.
  apply rne_ge_pow; try lia. pose proof (digits2_bounds p) as [Hlo _]. fold n in Hlo.
  replace (t - E + 52) with (n - 1) by (unfold t in *; lia). exact Hlo.
Qed.

Lemma round_exact_GW :
  GW (Zpos p * 2 ^ (E + 1200)) = rounded p E * 2 ^ (target p E + 1074).
Proof.
  pose proof round_exact_shift. name_parts.
  assert (Hs : shiftW N = t + 1200).
  { unfold shiftW, N. rewrite digits_scale, digits_pos by lia. unfold t. fold n. lia. }
  unfold GW. rewrite Hs. f_equal; [|f_equal; lia].
  unfold N. replace (t + 1200) with (t - E + (E + 1200)) by lia.
  rewrite rne_scale by lia. reflexivity.
Qed.

Lemma round_exact_spec :
  let r := round_exact s (Zpos p) E in
  valid r /\ is_nan r = false /\ sign_of r = s
  /\ mag r = Z.min (GW (Zpos p * 2 ^ (E + 1200))) (2 ^ 2098).
Proof.
  pose proof round_exact_shift as Hk.
  pose proof round_exact_m1_bounds as [Hm0 Hm53].
  pose proof round_exact_GW as HGW.
  pose proof round_exact_m1_normal as Hnormal.
  name_parts.
  assert (Ht : -1074 <= t) by (unfold t; lia).
  cbv zeta. unfold round_exact.
  change (Zdigits2 (Zpos p)) with n. rewrite fexp_eq. fold t.
  replace (Z.max (t - E) 0) with (t - E) by lia. fold m1.
  replace (E + (t - E)) with t by lia. rewrite fexp_eq.
  change (emax - prec) with 971.
  destruct (Z.eq_dec m1 (2 ^ 53)) as [Ecarry|Hnocarry].
  - (* the rounding carried into the next binade *)
    rewrite Ecarry. change (Zdigits2 (2 ^ 53)) with 54.
    replace (Z.max (Z.max (54 + t - 53) (-1074) - t) 0) with 1 by lia.
    change (2 ^ 53 / 2 ^ 1) with (Zpos 4503599627370496).
    assert (Hval : GW N = Zpos 4503599627370496 * 2 ^ (t + 1 + 1074)).
    { rewrite HGW, Ecarry. replace (t + 1 + 1074) with (1 + (t + 1074)) by lia.
      rewrite (pow2_split 1) by lia. change (2 ^ 53) with (4503599627370496 * 2 ^ 1). ring. }
    destruct (Z.leb_spec (t + 1) 971) as [Hfin|Hinf].
    + assert (V : valid (S754_finite s 4503599627370496 (t + 1))).
      { apply valid_finite. change (Zpos (digits2_pos 4503599627370496)) with 53. lia. }
      repeat split; try assumption. rewrite Hval.
      pose proof (mag_finite_lt _ _ _ V) as [_ Hlt]. cbn [mag] in *. lia.
    + repeat split. cbn [mag]. rewrite Hval.
      assert (2 ^ 2098 <= Zpos 4503599627370496 * 2 ^ (t + 1 + 1074)); [|lia].
      change (Zpos 4503599627370496) with (2 ^ 52).
      rewrite <- pow2_split by lia. apply pow2_le. lia.
  - destruct m1 as [|q|q] eqn:Em1; [| |lia].
    + (* rounded to zero *)
      change (Zdigits2 0) with 0.
      replace (Z.max (Z.max (0 + t - 53) (-1074) - t) 0) with 0 by lia.
      change (0 / 2 ^ 0) with 0. repeat split.
      cbn [mag]. rewrite HGW. lia.
    + assert (Hq : Zpos q < 2 ^ 53) by lia.
      pose proof (digits2_le q 53 ltac:(lia) Hq) as Hn1.
      change (Zdigits2 (Zpos q)) with (Zpos (digits2_pos q)).
      replace (Z.max (Z.max (Zpos (digits2_pos q) + t - 53) (-1074) - t) 0) with 0 by lia.
      change (2 ^ 0) with 1. rewrite Z.div_1_r, Z.add_0_r.
      assert (Hcanon : Z.max (Zpos (digits2_pos q) + t - 53) (-1074) = t).
      { destruct (Z.eq_dec t (-1074)) as [Esub|Hnorm]; [lia|].
        pose proof (Hnormal ltac:(lia)) as Hlow. try rewrite Em1 in Hlow.
        pose proof (digits2_ge q 52 ltac:(lia) Hlow). lia. }
      destruct (Z.leb_spec t 971) as [Hfin|Hinf].
      * assert (V : valid (S754_finite s q t)) by (apply valid_finite; lia).
        repeat split; try assumption.
        pose proof (mag_finite_lt _ _ _ V) as [_ Hlt]. cbn [mag] in *.
        rewrite HGW. lia.
      * repeat split. cbn [mag]. rewrite HGW.
        pose proof (Hnormal ltac:(lia)) as Hlow. try rewrite Em1 in Hlow.
        assert (2 ^ 2098 <= Zpos q * 2 ^ (t + 1074)); [|lia].
        apply Z.le_trans with (2 ^ 52 * 2 ^ (t + 1074)).
        -- rewrite <- pow2_split by lia. apply pow2_le. lia.
        -- apply Z.mul_le_mono_nonneg_r; [apply Z.pow_nonneg|]; lia.
Qed.

End RoundExact.

Lemma GW_zero : GW 0 = 0.
Proof. reflexivity. Qed.

Lemma mul_hundred_spec (x : spec_float) :
  valid x -> is_nan x = false -> sign_of x = false ->
  let r := SFmul prec emax x hundred in
  valid r /\ is_nan r = false /\ sign_of r = false /\
  mag r = times_hundred (mag x).
Proof.
  intros V Nn Hs. destruct x as [s|s| |s m e]; try discriminate;
    cbn [sign_of] in Hs; subst s.
  - repeat split.
  - repeat split.
  - change hundred with (S754_finite false 7036874417766400 (-46)).
    cbn [SFmul xorb]. rewrite binary_round_aux_exact by lia.
    pose proof (valid_bounds _ _ _ V) as (He & Hd & _).
    pose proof (mag_finite_lt _ _ _ V) as [Hpos Hlt]. cbn [mag] in Hpos, Hlt.
    assert (Halign : 53 <= Zpos (digits2_pos (m * 7036874417766400))
                     \/ e + -46 <= -1074).
    { left.
      assert (52 < Zpos (digits2_pos (m * 7036874417766400))); [|lia].
      apply digits2_ge; [lia|]. rewrite Pos2Z.inj_mul.
      change (2 ^ 52) with 4503599627370496. lia. }
    pose proof (round_exact_spec false (m * 7036874417766400) (e + -46)
                  ltac:(lia) Halign) as Hspec.
    cbv zeta in Hspec. destruct Hspec as (Vr & Nr & Sr & Mr).
    repeat split; try assumption.
    rewrite Mr. unfold times_hundred, TOP. cbn [mag].
    destruct (Z.leb_spec (2 ^ 2098) (Zpos m * 2 ^ (e + 1074))); [lia|].
    f_equal. f_equal. rewrite Pos2Z.inj_mul.
    replace (e + -46 + 1200) with ((e + 1074) + 80) by lia.
    replace 126 with (46 + 80) at 2 by lia.
    rewrite !pow2_split by lia.
    change (Zpos 7036874417766400) with (100 * 2 ^ 46). ring.
Qed.

Lemma pos_iter_xO (m d : positive) : Zpos (Pos.iter xO m d) = Zpos m * 2 ^ Zpos d.
Proof.
  induction d as [|d IH] using Pos.peano_ind.
  - cbn [Pos.iter]. rewrite Pos2Z.inj_xO. change (2 ^ 1) with 2. ring.
  - rewrite Pos.iter_succ, Pos2Z.inj_xO, IH, Pos2Z.inj_succ, Z.pow_succ_r by lia.
    ring.
Qed.

Lemma scale_eq (m a b c d : Z) :
  0 <= a -> 0 <= b -> 0 <= c -> 0 <= d -> a + b = c + d ->
  m * 2 ^ a * 2 ^ b = m * 2 ^ c * 2 ^ d.
Proof.
  intros Ha Hb Hc Hd H.
  rewrite <- !Z.mul_assoc, <- !pow2_split by assumption. now rewrite H.
Qed.

Lemma shl_align_spec (mx : positive) (ex ez : Z) :
  ez <= ex ->
  snd (shl_align mx ex ez) = ez /\
  Zpos (fst (shl_align mx ex ez)) = Zpos mx * 2 ^ (ex - ez).
Proof.
  intros H. unfold shl_align. destruct (ez - ex) as [|d|d] eqn:Ed; cbn [fst snd].
  - replace (ex - ez) with 0 by lia. change (2 ^ 0) with 1. split; lia.
  - lia.
  - rewrite pos_iter_xO. replace (ex - ez) with (Zpos d) by lia. split; reflexivity.
Qed.

Lemma shl_align_noop (mx : positive) (ex ez : Z) :
  ex <= ez -> shl_align mx ex ez = (mx, ex).
Proof.
  intros H. unfold shl_align. destruct (ez - ex) as [|d|d] eqn:Ed; try reflexivity. lia.
Qed.

Lemma binary_round_spec (s : bool) (p : positive) (e : Z) :
  -1200 <= e ->
  let r := binary_round prec emax s p e in
  valid r /\ is_nan r = false /\ sign_of r = s
  /\ mag r = Z.min (GW (Zpos p * 2 ^ (e + 1200))) TOP.
Proof.
  intros He. cbv zeta. unfold binary_round. rewrite fexp_eq.
  set (n := Zpos (digits2_pos p)).
  set (t := Z.max (n + e - 53) (-1074)).
  destruct (Z_le_gt_dec e t) as [Hle|Hgt].
  - rewrite shl_align_noop by exact Hle.
    rewrite binary_round_aux_exact by lia.
    apply round_exact_spec; [exact He|]. fold n. unfold t in Hle. lia.
  - pose proof (shl_align_spec p e t ltac:(lia)) as [Hsnd Hfst].
    destruct (shl_align p e t) as [p' e']. cbn [fst snd] in Hsnd, Hfst. subst e'.
    rewrite binary_round_aux_exact by lia.
    assert (Hd : Zpos (digits2_pos p') = n + (e - t)).
    { rewrite <- digits_pos, Hfst, digits_scale, digits_pos by lia. reflexivity. }
    pose proof (round_exact_spec s p' t ltac:(unfold t; lia)
                  ltac:(rewrite Hd; unfold t; lia)) as Hspec.
    cbv zeta in Hspec. destruct Hspec as (Vr & Nr & Sr & Mr).
    repeat split; try assumption. rewrite Mr, Hfst. f_equal. f_equal.
    replace (e + 1200) with ((e - t) + (t + 1200)) by lia.
    rewrite (pow2_split (e - t) (t + 1200)) by (unfold t in *; lia). ring.
Qed.


Lemma GW_unit_multiple K : 0 < K -> 0 < GW (K * 2 ^ 126).
Proof.
  intros HK. apply Z.lt_le_trans with (GW (1 * 2 ^ 126)); [reflexivity|].
  apply GW_mono; [reflexivity|].
  apply Z.mul_le_mono_nonneg_r; [apply Z.pow_nonneg|]; lia.
Qed.

Lemma positive_float (x : spec_float) :
  is_nan x = false -> sign_of x = false -> 0 < mag x -> SFltb zero x = true.
Proof.
  destruct x as [s|s| |s m e]; cbn [is_nan sign_of mag]; try discriminate;
    intros _ -> H; try reflexivity; lia.
Qed.

Lemma negative_float (x : spec_float) :
  is_nan x = false -> sign_of x = true -> SFltb zero x = false.
Proof.
  destruct x as [s|s| |s m e]; cbn [is_nan sign_of]; try discriminate;
    intros _ ->; reflexivity.
Qed.

Lemma max0_sub_spec (y : spec_float) :
  valid y -> is_nan y = false ->
  let x := max0 (SFsub prec emax one y) in
  valid x /\ is_nan x = false /\ sign_of x = false /\ mag x = one_minus (val y).
Proof.
  intros V Nn. destruct y as [s|s| |s my ey]; try discriminate.
  - destruct s; repeat split; vm_compute; reflexivity.
  - destruct s; repeat split.
  - change one with (S754_finite false 4503599627370496 (-52)).
    cbn [SFsub cond_Zopp].
    pose proof (valid_bounds _ _ _ V) as (He & Hd & _).
    pose proof (mag_finite_lt _ _ _ V) as [Hpos Hlt]. cbn [mag] in Hpos, Hlt.
    set (ez := Z.min (-52) ey).
    pose proof (shl_align_spec 4503599627370496 (-52) ez ltac:(unfold ez; lia)) as [_ HA].
    pose proof (shl_align_spec my ey ez ltac:(unfold ez; lia)) as [_ HB].
    rewrite HA, HB.
    set (z := Zpos 4503599627370496 * 2 ^ (-52 - ez)
              - cond_Zopp s (Zpos my * 2 ^ (ey - ez))).
    assert (Hz : z * 2 ^ (ez + 1200)
                 = 2 ^ 1200 - val (S754_finite s my ey) * 2 ^ 126).
    { unfold z, val. cbn [sign_of mag].
      rewrite Z.mul_sub_distr_r.
      f_equal.
      - change (Zpos 4503599627370496) with (2 ^ 52).
        rewrite <- !pow2_split by (unfold ez; lia). f_equal. lia.
      - destruct s; cbn [cond_Zopp]; rewrite ?Z.mul_opp_l; [f_equal|];
          apply scale_eq; unfold ez; lia. }
    assert (Hval : - TOP < val (S754_finite s my ey) < TOP).
    { unfold val, TOP. cbn [sign_of mag]. destruct s; cbn [cond_Zopp]; lia. }
    unfold one_minus.
    destruct (Z.leb_spec TOP (val (S754_finite s my ey))); [lia|].
    destruct (Z.leb_spec (val (S754_finite s my ey)) (- TOP)); [lia|].
    cbv zeta. rewrite <- Hz.
    assert (Hp : 0 < 2 ^ (ez + 1200)) by (apply pow2_pos; unfold ez; lia).
    destruct z as [|pz|pz] eqn:Ez; cbn [binary_normalize].
    + repeat split.
    + pose proof (binary_round_spec false pz ez ltac:(unfold ez; lia)) as Hspec.
      cbv zeta in Hspec. destruct Hspec as (Vx & Nx & Sx & Mx).
      assert (Hgw : 0 < GW (Zpos pz * 2 ^ (ez + 1200))).
      { replace (ez + 1200) with ((ez + 1074) + 126) by lia.
        rewrite pow2_split, Z.mul_assoc by (unfold ez; lia).
        apply GW_unit_multiple. apply Z.mul_pos_pos; [lia|].
        apply pow2_pos. unfold ez. lia. }
      assert (Hmag : 0 < mag (binary_round prec emax false pz ez))
        by (rewrite Mx; unfold TOP; lia).
      unfold max0. rewrite (positive_float _ Nx Sx Hmag).
      destruct (Z.ltb_spec 0 (Zpos pz * 2 ^ (ez + 1200))) as [_|Hneg];
        [repeat split; assumption|].
      pose proof (Z.mul_pos_pos (Zpos pz) _ ltac:(lia) Hp). lia.
    + pose proof (binary_round_spec true pz ez ltac:(unfold ez; lia)) as Hspec.
      cbv zeta in Hspec. destruct Hspec as (Vx & Nx & Sx & Mx).
      unfold max0. rewrite (negative_float _ Nx Sx).
      destruct (Z.ltb_spec 0 (Zneg pz * 2 ^ (ez + 1200))) as [Hpos'|_];
        [|repeat split].
      pose proof (Z.mul_pos_pos (Zpos pz) _ ltac:(lia) Hp).
      change (Zneg pz) with (- Zpos pz) in Hpos'. lia.
Qed.

Lemma div_eucl_pow2 (a b : Z) :
  0 < b -> Z.div_eucl (a * b) b = (a, 0).
Proof.
  intros Hb.
  pose proof (Z.div_mul a b ltac:(lia)) as Hq.
  pose proof (Z.mod_mul a b ltac:(lia)) as Hr.
  unfold Z.div, Z.modulo in Hq, Hr.
  destruct (Z.div_eucl (a * b) b) as [q r]. now subst.
Qed.

(** Halving a float above the smallest binade is exact. *)
Lemma div_two_exact (s : bool) (m : positive) (e : Z) :
  valid (S754_finite s m e) -> -1074 < e ->
  SFdiv prec emax (S754_finite s m e) two
  = round_exact s (Zpos m * 2 ^ (e - 1 - Z.max (e - 2) (-1074)))
                (Z.max (e - 2) (-1074)).
Proof.
  intros V He. pose proof (valid_bounds _ _ _ V) as (Hb & _ & Hd).
  specialize (Hd He).
  change two with (S754_finite false 4503599627370496 (-51)).
  unfold SFdiv, SFdiv_core_binary.
  change (Zdigits2 (Zpos m)) with (Zpos (digits2_pos m)). rewrite Hd.
  change (Zdigits2 (Zpos 4503599627370496)) with 53.
  rewrite fexp_eq.
  set (e' := Z.max (e - 2) (-1074)).
  replace (Z.min (Z.max (53 + e - (53 + -51) - 53) (-1074)) (e - -51)) with e'
    by (unfold e'; lia).
  assert (Hs : 52 <= e - -51 - e' <= 53) by (unfold e'; lia).
  destruct (e - -51 - e') as [|sp|sp] eqn:Es; try lia.
  rewrite Z.shiftl_mul_pow2 by lia.
  replace (Zpos m * 2 ^ Zpos sp)
    with (Zpos m * 2 ^ (e - 1 - e') * Zpos 4503599627370496).
  2:{ change (Zpos 4503599627370496) with (2 ^ 52).
      rewrite <- Z.mul_assoc, <- pow2_split by (unfold e' in *; lia).
      do 2 f_equal. unfold e' in *. lia. }
  rewrite div_eucl_pow2 by lia.
  change (new_location 4503599627370496 0) with loc_Exact.
  rewrite xorb_false_r.
  apply binary_round_aux_exact.
  apply Z.mul_nonneg_nonneg; [lia | apply Z.pow_nonneg; lia].
Qed.

Lemma div_eucl_half (m : Z) :
  0 <= m ->
  Z.div_eucl (m * 2 ^ 51) 4503599627370496 = (m / 2, (m mod 2) * 2 ^ 51).
Proof.
  intros Hm.
  pose proof (Z.div_mod m 2 ltac:(lia)) as Hdm.
  pose proof (Z.mod_pos_bound m 2 ltac:(lia)) as Hr.
  assert (Hq : (m * 2 ^ 51) / 4503599627370496 = m / 2).
  { symmetry. apply (Z.div_unique_pos _ _ _ ((m mod 2) * 2 ^ 51)).
    - change (2 ^ 51) with 2251799813685248. lia.
    - change (2 ^ 51) with 2251799813685248. lia. }
  assert (Hm' : (m * 2 ^ 51) mod 4503599627370496 = (m mod 2) * 2 ^ 51).
  { symmetry. apply (Z.mod_unique_pos _ _ (m / 2)).
    - change (2 ^ 51) with 2251799813685248. lia.
    - change (2 ^ 51) with 2251799813685248. lia. }
  unfold Z.div, Z.modulo in Hq, Hm'.
  destruct (Z.div_eucl (m * 2 ^ 51) 4503599627370496) as [q r]. now subst.
Qed.

Lemma Zdigits2_small (q : Z) b : 0 <= q < 2 ^ b -> 0 <= b -> 0 <= Zdigits2 q <= b.
Proof.
  intros [H0 H1] Hb. destruct q as [|p|p]; cbn [Zdigits2]; try lia.
  pose proof (digits2_le p b Hb H1). lia.
Qed.

(** Rounding a tie at the smallest exponent. *)
Lemma round_tie_min (s : bool) (q : Z) :
  0 <= q < 2 ^ 52 ->
  binary_round_aux prec emax s q (-1074) (loc_Inexact Eq)
  = match (if Z.even q then q else q + 1) with
    | Z0 => S754_zero s
    | Zpos p => S754_finite s p (-1074)
    | Zneg _ => S754_nan
    end.
Proof.
  intros Hq. unfold binary_round_aux.
  pose proof (Zdigits2_small q 52 Hq ltac:(lia)) as Hdq.
  unfold shr_fexp at 1. rewrite fexp_eq.
  replace (Z.max (Zdigits2 q + -1074 - 53) (-1074) - -1074) with 0 by lia.
  cbn [shr_record_of_loc shr shr_m loc_of_shr_record round_nearest_even].
  set (m1 := if Z.even q then q else q + 1).
  assert (Hm1 : 0 <= m1 < 2 ^ 53).
  { unfold m1. change (2 ^ 53) with 9007199254740992.
    change (2 ^ 52) with 4503599627370496 in Hq. destruct (Z.even q); lia. }
  pose proof (shr_fexp_exact m1 (-1074) ltac:(lia)) as H2. cbv zeta in H2.
  pose proof (Zdigits2_small m1 53 Hm1 ltac:(lia)) as Hd1.
  rewrite fexp_eq in H2.
  replace (Z.max (Z.max (Zdigits2 m1 + -1074 - 53) (-1074) - -1074) 0) with 0 in H2 by lia.
  destruct (shr_fexp prec emax m1 (-1074) loc_Exact) as [mrs'' e''].
  destruct H2 as (He'' & Hm2 & _). rewrite Hm2, He''.
  change (2 ^ 0) with 1. rewrite Z.div_1_r.
  destruct m1; reflexivity.
Qed.

Lemma rne_half (m : Z) :
  rne m 1 = if Z.even m then m / 2 else if Z.even (m / 2) then m / 2 else m / 2 + 1.
Proof.
  unfold rne. change (2 ^ 1) with 2. rewrite (Zmod_even m).
  destruct (Z.even m); reflexivity.
Qed.

Lemma GW_small (m : Z) :
  0 < m < 2 ^ 53 -> GW (m * 2 ^ 125) = rne m 1.
Proof.
  intros Hm.
  assert (Hd : digits m <= 53).
  { destruct m as [|p|p]; try lia. rewrite digits_pos. apply digits2_le; lia. }
  pose proof (digits_positive m ltac:(lia)).
  assert (Hs : shiftW (m * 2 ^ 125) = 126).
  { unfold shiftW. rewrite digits_scale by lia. lia. }
  unfold GW. rewrite Hs. change (2 ^ (126 - 126)) with 1. rewrite Z.mul_1_r.
  change 126 with (1 + 125). apply rne_scale; lia.
Qed.

Lemma div_two_min (s : bool) (m : positive) :
  valid (S754_finite s m (-1074)) ->
  let y := SFdiv prec emax (S754_finite s m (-1074)) two in
  valid y /\ is_nan y = false /\ sign_of y = s
  /\ mag y = Z.min (GW (Zpos m * 2 ^ 125)) TOP.
Proof.
  intros V. pose proof (valid_bounds _ _ _ V) as (_ & Hd & _).
  pose proof (digits2_bounds m) as [_ Hhi].
  assert (Hm : 0 < Zpos m < 2 ^ 53).
  { split; [lia|]. eapply Z.lt_le_trans; [exact Hhi|]. apply pow2_le. lia. }
  cbv zeta.
  change two with (S754_finite false 4503599627370496 (-51)).
  unfold SFdiv, SFdiv_core_binary.
  change (Zdigits2 (Zpos m)) with (Zpos (digits2_pos m)).
  change (Zdigits2 (Zpos 4503599627370496)) with 53.
  rewrite fexp_eq.
  replace (Z.min (Z.max (Zpos (digits2_pos m) + -1074 - (53 + -51) - 53) (-1074))
                 (-1074 - -51)) with (-1074) by lia.
  change (-1074 - -51 - -1074) with 51.
  rewrite Z.shiftl_mul_pow2 by lia.
  rewrite div_eucl_half by lia.
  rewrite xorb_false_r.
  rewrite GW_small, rne_half by exact Hm.
  pose proof (Z.div_mod (Zpos m) 2 ltac:(lia)) as Hdm.
  rewrite (Zmod_even (Zpos m)) in *.
  change (2 ^ 53) with 9007199254740992 in Hm.
  destruct (Z.even (Zpos m)) eqn:Ev.
  - (* even mantissa: the half is exact *)
    change (0 * 2 ^ 51) with 0.
    change (new_location 4503599627370496 0) with loc_Exact.
    rewrite binary_round_aux_exact by (apply Z.div_pos; lia).
    destruct (Zpos m / 2) as [|q|q] eqn:Eq; try lia.
    pose proof (round_exact_spec s q (-1074) ltac:(lia) ltac:(lia)) as Hspec.
    cbv zeta in Hspec. destruct Hspec as (Vr & Nr & Sr & Mr).
    repeat split; try assumption. rewrite Mr. fold TOP. f_equal.
    change (-1074 + 1200) with 126.
    replace (Zpos q * 2 ^ 126) with ((2 * Zpos q) * 2 ^ 125)
      by (change (2 ^ 126) with (2 * 2 ^ 125); ring).
    rewrite GW_small by (change (2 ^ 53) with 9007199254740992; lia).
    rewrite rne_half, Z.even_mul. cbn [Z.even orb].
    rewrite Z.mul_comm, Z.div_mul by lia. reflexivity.
  - (* odd mantissa: a tie *)
    change (1 * 2 ^ 51) with 2251799813685248.
    change (new_location 4503599627370496 2251799813685248) with (loc_Inexact Eq).
    assert (Hq : 0 <= Zpos m / 2 < 2 ^ 52).
    { change (2 ^ 52) with 4503599627370496.
      pose proof (Z.div_pos (Zpos m) 2 ltac:(lia) ltac:(lia)). lia. }
    rewrite round_tie_min by exact Hq.
    set (m1 := if Z.even (Zpos m / 2) then Zpos m / 2 else Zpos m / 2 + 1).
    assert (Hm1 : 0 <= m1 <= 2 ^ 52).
    { unfold m1. destruct (Z.even (Zpos m / 2)); lia. }
    assert (Htop : m1 < TOP).
    { eapply Z.le_lt_trans; [apply Hm1|]. unfold TOP. apply pow2_lt. lia. }
    destruct m1 as [|p1|p1] eqn:E1; try lia.
    + repeat split; cbn [mag]; lia.
    + assert (Vr : valid (S754_finite s p1 (-1074))).
      { apply valid_finite.
        assert (Zpos (digits2_pos p1) <= 53); [|lia].
        apply digits2_le; [lia|].
        eapply Z.le_lt_trans; [apply Hm1|]. apply pow2_lt. lia. }
      repeat split; try assumption; cbn [mag];
        change (2 ^ (-1074 + 1074)) with 1; lia.
Qed.

Lemma div_two_spec (d : spec_float) :
  valid d -> is_nan d = false ->
  let y := SFdiv prec emax d two in
  valid y /\ is_nan y = false /\ sign_of y = sign_of d /\ mag y = halve (mag d).
Proof.
  intros V Nn. destruct d as [s|s| |s m e]; try discriminate.
  - destruct s; repeat split.
  - destruct s; repeat split.
  - pose proof (valid_bounds _ _ _ V) as (He & Hd & Hn).
    pose proof (mag_finite_lt _ _ _ V) as [Hpos Hlt].
    cbv zeta. unfold halve. fold TOP in Hlt.
    destruct (Z.leb_spec TOP (mag (S754_finite s m e))); [lia|].
    cbn [mag sign_of] in *.
    destruct (Z.eq_dec e (-1074)) as [->|Hne].
    + change (2 ^ (-1074 + 1074)) with 1. rewrite Z.mul_1_r.
      apply (div_two_min s m V).
    + rewrite (div_two_exact s m e V ltac:(lia)).
      specialize (Hn ltac:(lia)).
      set (e' := Z.max (e - 2) (-1074)).
      assert (Hk : 0 <= e - 1 - e') by (unfold e'; lia).
      pose proof (pow2_pos _ Hk) as Hp.
      destruct (Zpos m * 2 ^ (e - 1 - e')) as [|M|M] eqn:EM; try lia.
      assert (Hdig : Zpos (digits2_pos M) = 53 + (e - 1 - e')).
      { rewrite <- digits_pos, <- EM, digits_scale, digits_pos by lia. lia. }
      pose proof (round_exact_spec s M e' ltac:(unfold e'; lia) ltac:(lia)) as Hspec.
      cbv zeta in Hspec. destruct Hspec as (Vr & Nr & Sr & Mr).
      repeat split; try assumption. rewrite Mr. fold TOP. f_equal. f_equal.
      rewrite <- EM. apply scale_eq; unfold e' in *; lia.
Qed.

(** *** Monotonicity of the three stages, on values *)

Lemma TOP_pos : 0 < TOP.
Proof. unfold TOP. apply pow2_pos. lia. Qed.

Lemma halve_mono (X1 X2 : Z) : 0 <= X1 <= X2 -> halve X1 <= halve X2.
Proof.
  intros H. unfold halve. pose proof TOP_pos.
  destruct (Z.leb_spec TOP X1); destruct (Z.leb_spec TOP X2); try lia.
  destruct (Z.eq_dec X1 0) as [->|Hpos].
  - change (GW (0 * 2 ^ 125)) with 0.
    pose proof (GW_nonneg (X2 * 2 ^ 125)
                  ltac:(apply Z.mul_nonneg_nonneg; [lia|apply Z.pow_nonneg; lia])).
    lia.
  - assert (GW (X1 * 2 ^ 125) <= GW (X2 * 2 ^ 125)); [|lia].
    apply GW_mono.
    + apply Z.mul_pos_pos; [lia | apply pow2_pos; lia].
    + apply Z.mul_le_mono_nonneg_r; [apply Z.pow_nonneg|]; lia.
Qed.

Lemma halve_bounds (X : Z) : 0 <= X -> 0 <= halve X <= TOP.
Proof.
  intros H. unfold halve. pose proof TOP_pos.
  destruct (Z.leb_spec TOP X); [lia|].
  pose proof (GW_nonneg (X * 2 ^ 125)
                ltac:(apply Z.mul_nonneg_nonneg; [lia|apply Z.pow_nonneg; lia])).
  lia.
Qed.

Lemma halve_top (X : Z) : halve X = TOP -> 0 <= X -> TOP <= X \/ 0 < X.
Proof.
  intros H H0. destruct (Z.eq_dec X 0) as [->|]; [|lia].
  vm_compute in H. discriminate.
Qed.

Lemma one_minus_bounds (Y : Z) : 0 <= one_minus Y <= TOP.
Proof.
  unfold one_minus. pose proof TOP_pos. cbv zeta.
  destruct (Z.leb_spec TOP Y); [lia|].
  destruct (Z.leb_spec Y (- TOP)); [lia|].
  destruct (Z.ltb_spec 0 (2 ^ 1200 - Y * 2 ^ 126)); [|lia].
  pose proof (GW_nonneg (2 ^ 1200 - Y * 2 ^ 126) ltac:(lia)). lia.
Qed.

Lemma one_minus_anti (Y1 Y2 : Z) : Y1 <= Y2 -> one_minus Y2 <= one_minus Y1.
Proof.
  intros H. pose proof (one_minus_bounds Y1). pose proof (one_minus_bounds Y2).
  unfold one_minus in *. cbv zeta in *. pose proof TOP_pos.
  destruct (Z.leb_spec TOP Y2); [lia|].
  destruct (Z.leb_spec TOP Y1); [lia|].
  destruct (Z.leb_spec Y1 (- TOP)); [lia|].
  destruct (Z.leb_spec Y2 (- TOP)); [lia|].
  assert (Hp : 0 < 2 ^ 126) by (apply pow2_pos; lia).
  assert (HZ : 2 ^ 1200 - Y2 * 2 ^ 126 <= 2 ^ 1200 - Y1 * 2 ^ 126).
  { pose proof (Z.mul_le_mono_nonneg_r Y1 Y2 (2 ^ 126) ltac:(lia) H). lia. }
  destruct (Z.ltb_spec 0 (2 ^ 1200 - Y2 * 2 ^ 126)) as [Hpos2|]; [|lia].
  destruct (Z.ltb_spec 0 (2 ^ 1200 - Y1 * 2 ^ 126)); [|lia].
  pose proof (GW_mono _ _ Hpos2 HZ). lia.
Qed.

Lemma times_hundred_bounds (X : Z) : 0 <= X -> 0 <= times_hundred X <= TOP.
Proof.
  intros H. unfold times_hundred. pose proof TOP_pos.
  destruct (Z.leb_spec TOP X); [lia|].
  assert (Hp : 0 < 2 ^ 126) by (apply pow2_pos; lia).
  pose proof (GW_nonneg (100 * X * 2 ^ 126)
                ltac:(apply Z.mul_nonneg_nonneg; lia)). lia.
Qed.

Lemma times_hundred_GW (X : Z) : TOP <= X -> TOP <= GW (100 * X * 2 ^ 126).
Proof.
  intros H. pose proof TOP_pos.
  apply Z.le_trans with (GW (TOP * 2 ^ 126)).
  - unfold TOP. vm_compute. discriminate.
  - apply GW_mono.
    + apply Z.mul_pos_pos; [lia | apply pow2_pos; lia].
    + apply Z.mul_le_mono_nonneg_r; [apply Z.pow_nonneg|]; lia.
Qed.

Lemma times_hundred_mono (X1 X2 : Z) :
  0 <= X1 <= X2 -> times_hundred X1 <= times_hundred X2.
Proof.
  intros H. pose proof (times_hundred_bounds X1 ltac:(lia)).
  pose proof (times_hundred_bounds X2 ltac:(lia)).
  unfold times_hundred in *. pose proof TOP_pos.
  destruct (Z.leb_spec TOP X1); destruct (Z.leb_spec TOP X2); try lia.
  assert (Hp : 0 < 2 ^ 126) by (apply pow2_pos; lia).
  destruct (Z.eq_dec X1 0) as [->|Hpos].
  - change (GW (100 * 0 * 2 ^ 126)) with 0. lia.
  - assert (GW (100 * X1 * 2 ^ 126) <= GW (100 * X2 * 2 ^ 126)); [|lia].
    apply GW_mono.
    + apply Z.mul_pos_pos; lia.
    + apply Z.mul_le_mono_nonneg_r; lia.
Qed.

Lemma val_nonneg_sign (x : spec_float) : sign_of x = false -> val x = mag x.
Proof. unfold val. now intros ->. Qed.

Lemma mag_nonneg (x : spec_float) : 0 <= mag x.
Proof.
  destruct x as [s|s| |s m e]; cbn [mag]; lia.
Qed.

Lemma halve_zero : halve 0 = 0.
Proof. reflexivity. Qed.

Lemma halve_signed_val (d y : spec_float) :
  sign_of y = sign_of d -> mag y = halve (mag d) -> val y = halve_signed (val d).
Proof.
  intros Hs Hm. unfold val, halve_signed. rewrite Hs, Hm.
  pose proof (mag_nonneg d).
  destruct (sign_of d); cbn [cond_Zopp].
  - destruct (Z.ltb_spec (- mag d) 0).
    + now rewrite Z.opp_involutive.
    + replace (mag d) with 0 by lia. reflexivity.
  - destruct (Z.ltb_spec (mag d) 0); [lia | reflexivity].
Qed.

Lemma halve_signed_mono (D1 D2 : Z) : D1 <= D2 -> halve_signed D1 <= halve_signed D2.
Proof.
  intros H. unfold halve_signed.
  destruct (Z.ltb_spec D1 0); destruct (Z.ltb_spec D2 0); try lia.
  - pose proof (halve_mono (- D2) (- D1) ltac:(lia)). lia.
  - pose proof (halve_bounds (- D1) ltac:(lia)).
    pose proof (halve_bounds D2 ltac:(lia)). lia.
  - apply halve_mono. lia.
Qed.

Lemma similarity_value_anti (D1 D2 : Z) :
  D1 <= D2 -> similarity_value D2 <= similarity_value D1.
Proof.
  intros H. unfold similarity_value.
  apply times_hundred_mono. split; [apply one_minus_bounds|].
  apply one_minus_anti, halve_signed_mono, H.
Qed.

(** The similarity of a distance that is a number: a binary64 that is not
    negative and whose value is [similarity_value]. *)
Lemma similarity_spec_value (d : spec_float) :
  valid d -> is_nan d = false ->
  valid (similarity d) /\ is_nan (similarity d) = false
  /\ sign_of (similarity d) = false
  /\ val (similarity d) = similarity_value (val d).
Proof.
  intros V Nn.
  pose proof (div_two_spec d V Nn) as Hy. cbv zeta in Hy.
  destruct Hy as (Vy & Ny & Sy & My).
  pose proof (max0_sub_spec _ Vy Ny) as Hx. cbv zeta in Hx.
  destruct Hx as (Vx & Nx & Sx & Mx).
  pose proof (mul_hundred_spec _ Vx Nx Sx) as Hr. cbv zeta in Hr.
  destruct Hr as (Vr & Nr & Sr & Mr).
  unfold similarity. repeat split; try assumption.
  rewrite (val_nonneg_sign _ Sr), Mr, Mx.
  unfold similarity_value. now rewrite (halve_signed_val d _ Sy My).
Qed.

Lemma leb_true_not_nan (f1 f2 : spec_float) :
  SFleb f1 f2 = true -> is_nan f1 = false /\ is_nan f2 = false.
Proof.
  unfold SFleb. destruct f1, f2; cbn [SFcompare is_nan]; try discriminate; auto.
Qed.

Lemma similarity_monotone (d1 d2 : spec_float) :
  valid d1 -> valid d2 -> SFleb d1 d2 = true ->
  SFleb (similarity d2) (similarity d1) = true.
Proof.
  intros V1 V2 Hle.
  destruct (leb_true_not_nan _ _ Hle) as [N1 N2].
  rewrite (leb_val d1 d2 V1 V2 N1 N2) in Hle. apply Z.leb_le in Hle.
  destruct (similarity_spec_value d1 V1 N1) as (Vs1 & Ns1 & _ & Hv1).
  destruct (similarity_spec_value d2 V2 N2) as (Vs2 & Ns2 & _ & Hv2).
  rewrite (leb_val _ _ Vs2 Vs1 Ns2 Ns1), Hv1, Hv2.
  apply Z.leb_le, similarity_value_anti, Hle.
Qed.

Lemma zero_of_value (x : spec_float) :
  valid x -> is_nan x = false -> sign_of x = false -> mag x = 0 -> x = zero.
Proof.
  intros V Nn Hs Hm. destruct x as [s|s| |s m e]; try discriminate;
    cbn [sign_of] in Hs; subst s.
  - reflexivity.
  - pose proof (mag_finite_lt _ _ _ V). lia.
Qed.

Lemma similarity_far (d : spec_float) :
  valid d -> SFleb two d = true -> similarity d = zero.
Proof.
  intros V Hle.
  destruct (leb_true_not_nan _ _ Hle) as [_ Nn].
  rewrite (leb_val two d ltac:(reflexivity) V ltac:(reflexivity) Nn) in Hle.
  apply Z.leb_le in Hle.
  destruct (similarity_spec_value d V Nn) as (Vs & Ns & Ss & Hv).
  apply zero_of_value; try assumption.
  rewrite <- (val_nonneg_sign _ Ss), Hv.
  pose proof (similarity_value_anti _ _ Hle) as Hanti.
  pose proof (mag_nonneg (similarity d)) as Hge.
  rewrite <- (val_nonneg_sign _ Ss), Hv in Hge.
  assert (Hz : similarity_value (val two) = 0) by (vm_compute; reflexivity).
  lia.
Qed.

Lemma similarity_zero (s : bool) : similarity (S754_zero s) = hundred.
Proof. destruct s; vm_compute; reflexivity. Qed.

Lemma round_sign_false mx ex lx :
  SFltb (binary_round_aux prec emax false mx ex lx) zero = false.
Proof.
  unfold binary_round_aux.
  destruct (shr_fexp prec emax mx ex lx) as [mrs' e'].
  destruct (shr_fexp prec emax _ e' loc_Exact) as [mrs'' e''].
  destruct (shr_m mrs''); try reflexivity.
  destruct (e'' <=? emax - prec); reflexivity.
Qed.

Lemma similarity_not_negative (d : spec_float) :
  SFltb (similarity d) zero = false.
Proof.
  unfold similarity, max0.
  destruct (SFsub prec emax one (SFdiv prec emax d two)) as [s|s| |s m e];
    try reflexivity.
  - destruct s; reflexivity.
  - destruct s; [reflexivity|].
    change (SFltb zero (S754_finite false m e)) with true. cbv iota.
    change hundred with (S754_finite false 7036874417766400 (-46)).
    cbn [SFmul xorb]. apply round_sign_false.
Qed.

Example similarity_half :
  similarity (SFdiv prec emax one two) = of_int 75.
Proof. vm_compute. reflexivity. Qed.

End Rounding.

(** C4.  The similarity computed by [search] is [max(0, 1 - d/2) * 100] in
    binary64 arithmetic.  Over the floats of Python it does not increase
    when the distance grows; distance 0 gives 100, every distance of at
    least 2 gives 0, and no distance, not even a NaN, gives a negative
    value. *)
Theorem similarity_spec :
  (forall d, similarity d = (max0 (one - d / two) * hundred)%b64) /\
  (forall d1 d2, valid d1 -> valid d2 -> (d1 <= d2)%b64 = true ->
     (similarity d2 <= similarity d1)%b64 = true) /\
  (forall s, similarity (S754_zero s) = hundred /\ val hundred = 100 * 2 ^ 1074) /\
  (forall d, valid d -> (two <= d)%b64 = true -> similarity d = zero) /\
  (forall d, (similarity d < zero)%b64 = false).
Proof.
  split; [|split; [|split; [|split]]].
  - reflexivity.
  - apply Rounding.similarity_monotone.
  - intros s. split; [apply Rounding.similarity_zero | reflexivity].
  - apply Rounding.similarity_far.
  - apply Rounding.similarity_not_negative.
Qed.

Lemma similarity_spec_witness :
  (similarity (of_int 3 / two) <= similarity (one / two))%b64 = true /\
  similarity (of_int 5 / two)%b64 = zero.
Proof.
  destruct similarity_spec as (_ & Hmono & _ & Hfar & _).
  split.
  - apply Hmono; reflexivity.
  - apply Hfar; reflexivity.
Defined.

(** What [search] shows for the distances 0, 0.5, 2 and for a NaN. *)
Example similarity_shown :
  map (fun d => format_1f (similarity d))
      [zero; (one / two)%b64; two; S754_nan]
  = [u "100.0"; u "75.0"; u "0.0"; u "0.0"].
Proof. vm_compute. reflexivity. Qed.

(** ** Running programs *)


Section MonadFacts.

Context {S A B : Type}.

Lemma prepend_nil (o : Outcome S A) : prepend [] o = o.
Proof. now destruct o. Qed.

Lemma bind_ok (m : M S A) (f : A -> M S B) s s' out a :
  m s = mkOutcome s' out (Ok a) -> bind m f s = prepend out (f a s').
Proof. intros H. unfold bind. now rewrite H. Qed.

Lemma bind_raise (m : M S A) (f : A -> M S B) s s' out e :
  m s = mkOutcome s' out (Raise e) -> bind m f s = mkOutcome s' out (Raise e).
Proof. intros H. unfold bind. now rewrite H. Qed.

Lemma call_eq (op : S -> S * Res A) s s' r :
  op s = (s', r) -> call op s = mkOutcome s' [] r.
Proof. intros H. unfold call. now rewrite H. Qed.

Lemma try_except_ok (m : M S A) catches handler s s' out a :
  m s = mkOutcome s' out (Ok a) ->
  try_except m catches handler s = mkOutcome s' out (Ok a).
Proof. intros H. unfold try_except. now rewrite H. Qed.

Lemma try_except_caught (m : M S A) catches handler s s' out e :
  m s = mkOutcome s' out (Raise e) -> catches e = true ->
  try_except m catches handler s = prepend out (handler e s').
Proof. intros H C. unfold try_except. rewrite H. simpl. now rewrite C. Qed.

Lemma try_except_passed (m : M S A) catches handler s s' out e :
  m s = mkOutcome s' out (Raise e) -> catches e = false ->
  try_except m catches handler s = mkOutcome s' out (Raise e).
Proof. intros H C. unfold try_except. rewrite H. simpl. now rewrite C. Qed.

End MonadFacts.

Lemma bind_print {S B} (line : str) (f : unit -> M S B) s :
  bind (print line) f s = prepend [line] (f tt s).
Proof. reflexivity. Qed.

Lemma for_each_print {S X} (f : X -> str) (l : list X) (s : S) :
  for_each l (fun x => print (f x)) s = mkOutcome s (map f l) (Ok tt).
Proof.
  induction l as [|x l IH]; [reflexivity|].
  simpl. rewrite bind_print, IH. reflexivity.
Qed.

(** ** The dispatch of [main] *)


Section Dispatch.

Variable rt : Runtime.
Variables (argv0 : str) (args : list str).

Lemma main_status : main rt (argv0 :: u "status" :: args) = cmd_status rt.
Proof. reflexivity. Qed.

Lemma main_list :
  main rt (argv0 :: u "list" :: args)
  = (limit <- limit_arg rt args ;; cmd_list rt limit).
Proof. reflexivity. Qed.

Lemma main_search (query : str) :
  main rt (argv0 :: u "search" :: query :: args)
  = (limit <- limit_arg rt args ;; cmd_search rt query limit).
Proof. reflexivity. Qed.

Lemma main_types : main rt (argv0 :: u "types" :: args) = cmd_types rt.
Proof. reflexivity. Qed.

Lemma main_unknown (cmd : str) :
  ~ In cmd COMMANDS ->
  main rt (argv0 :: cmd :: args)
  = (print (unknown_command cmd) ;; print DOC ;; sys_exit 1).
Proof.
  intros H. unfold main.
  assert (E : forall c, In c COMMANDS -> str_eqb cmd c = false).
  { intros c Hc. apply str_eqb_neq. intros ->. now apply H. }
  rewrite !E; [reflexivity | | | |]; unfold COMMANDS; simpl; auto.
Qed.

Lemma limit_arg_ok (n : str) (rest : list str) (z : Z) (s : Store rt) :
  int_ rt n = inl z -> limit_arg rt (n :: rest) s = mkOutcome s [] (Ok z).
Proof. intros H. unfold limit_arg, int. now rewrite H. Qed.

Lemma limit_arg_bad (n : str) (rest : list str) (msg : str) (s : Store rt) :
  int_ rt n = inr msg ->
  limit_arg rt (n :: rest) s
  = mkOutcome s [] (Raise (Error (u "ValueError") msg)).
Proof. intros H. unfold limit_arg, int. now rewrite H. Qed.

End Dispatch.

(** C9.  [search] without a query prints its usage line and exits with
    status 1; a command that is none of the four prints the error line and
    the usage text and exits with status 1; no argument at all prints the
    usage text and exits with status 0.  None of the three touches the
    store. *)
Theorem main_usage (rt : Runtime) (s : Store rt) (argv0 : str) :
  (main rt [argv0; u "search"] s
     = mkOutcome s [USAGE_SEARCH] (Raise (SystemExit 1)) /\
   exit_status (result_of (main rt [argv0; u "search"] s)) = 1) /\
  (forall cmd args, ~ In cmd COMMANDS ->
     main rt (argv0 :: cmd :: args) s
       = mkOutcome s [unknown_command cmd; DOC] (Raise (SystemExit 1)) /\
     exit_status (result_of (main rt (argv0 :: cmd :: args) s)) = 1) /\
  (main rt [argv0] s = mkOutcome s [DOC] (Raise (SystemExit 0)) /\
   exit_status (result_of (main rt [argv0] s)) = 0) /\
  (main rt [] s = mkOutcome s [DOC] (Raise (SystemExit 0))).
Proof.
  split; [|split; [|split]].
  - split; reflexivity.
  - intros cmd args H. rewrite (main_unknown rt argv0 args cmd H).
    split; reflexivity.
  - split; reflexivity.
  - reflexivity.
Qed.

Lemma main_usage_witness :
  stdout_of (Mem.run [u "drop"; u "everything"] Mem.three)
    = [unknown_command (u "drop"); DOC] /\
  exit_status (result_of (Mem.run [u "drop"; u "everything"] Mem.three)) = 1.
Proof.
  destruct (main_usage Mem.runtime Mem.three (u "chroma-cli.py"))
    as (_ & Hunknown & _).
  destruct (Hunknown (u "drop") [u "everything"]) as [Hout Hstatus].
  - vm_compute. intuition discriminate.
  - split; [|exact Hstatus]. unfold Mem.run. now rewrite Hout.
Defined.

(** C10.  When [int()] refuses the count argument of [list] or of [search],
    its ValueError ends the program: nothing has been printed, no client
    call has been made (the store is the one the program started with). *)
Theorem main_bad_count (rt : Runtime) (s : Store rt) (argv0 n : str)
    (rest : list str) (msg : str) :
  int_ rt n = inr msg ->
  main rt (argv0 :: u "list" :: n :: rest) s
    = mkOutcome s [] (Raise (Error (u "ValueError") msg)) /\
  (forall query,
     main rt (argv0 :: u "search" :: query :: n :: rest) s
       = mkOutcome s [] (Raise (Error (u "ValueError") msg))).
Proof.
  intros H. split; [|intros query].
  - rewrite main_list.
    apply bind_raise, limit_arg_bad, H.
  - rewrite main_search.
    apply bind_raise, limit_arg_bad, H.
Qed.

Lemma main_bad_count_witness :
  Mem.run [u "list"; u "ten"] Mem.three
    = mkOutcome Mem.three []
        (Raise (Error (u "ValueError")
                      (u "invalid literal for int() with base 10"))) /\
  Mem.run [u "search"; u "hello"; u "ten"] Mem.three
    = mkOutcome Mem.three []
        (Raise (Error (u "ValueError")
                      (u "invalid literal for int() with base 10"))).
Proof.
  destruct (main_bad_count Mem.runtime Mem.three (u "chroma-cli.py")
              (u "ten") [] (u "invalid literal for int() with base 10"))
    as [Hlist Hsearch].
  - vm_compute. reflexivity.
  - split; [exact Hlist | exact (Hsearch (u "hello"))].
Defined.

(** ** Retrieving the collection *)

Section GetCollection.

Variable rt : Runtime.
Variables (s s1 s2 : Store rt) (client : Client rt).

Hypothesis client_opened :
  chroma_PersistentClient rt (VECTOR_DB_DIR rt) s = (s1, Ok client).

Lemma get_client_run : get_client rt s = mkOutcome s1 [] (Ok client).
Proof. apply call_eq, client_opened. Qed.

Lemma get_collection_found (c : Collection rt) :
  chroma_get_collection rt client COLLECTION_NAME s1 = (s2, Ok c) ->
  get_collection rt client s1 = mkOutcome s2 [] (Ok c).
Proof.
  intros H. unfold get_collection.
  eapply try_except_ok, call_eq, H.
Qed.

Lemma get_collection_not_found (cls msg : str) :
  chroma_get_collection rt client COLLECTION_NAME s1
    = (s2, Raise (Error cls msg)) ->
  get_collection rt client s1
    = mkOutcome s2 [NOT_FOUND; error_detail msg] (Raise (SystemExit 1)).
Proof.
  intros H. unfold get_collection.
  rewrite (try_except_caught _ _ _ _ _ _ _ (call_eq _ _ _ _ H) eq_refl).
  reflexivity.
Qed.

(** A command that starts with [get_client()] and [get_collection(client)]
    stops there when the collection cannot be retrieved. *)
Lemma not_found_stops {A} (k : Collection rt -> Prog rt A) (cls msg : str) :
  chroma_get_collection rt client COLLECTION_NAME s1
    = (s2, Raise (Error cls msg)) ->
  (client <- get_client rt ;; collection <- get_collection rt client ;;
   k collection) s
  = mkOutcome s2 [NOT_FOUND; error_detail msg] (Raise (SystemExit 1)).
Proof.
  intros H.
  rewrite (bind_ok _ _ _ _ _ _ get_client_run), prepend_nil.
  apply bind_raise, (get_collection_not_found cls msg H).
Qed.

(** The same command goes on with the collection when it is there. *)
Lemma found_continues {A} (k : Collection rt -> Prog rt A)
    (c : Collection rt) :
  chroma_get_collection rt client COLLECTION_NAME s1 = (s2, Ok c) ->
  (client <- get_client rt ;; collection <- get_collection rt client ;;
   k collection) s
  = k c s2.
Proof.
  intros H.
  rewrite (bind_ok _ _ _ _ _ _ get_client_run), prepend_nil.
  rewrite (bind_ok _ _ _ _ _ _ (get_collection_found c H)).
  apply prepend_nil.
Qed.

End GetCollection.

(** ** [status] *)


Section Status.

Variable rt : Runtime.
Variable client : Client rt.

Lemma status_entry_run (col : CollectionInfo) (t : Store rt) :
  status_entry rt client col t =
  match chroma_get_collection rt client (name col) t with
  | (t1, Raise _) => mkOutcome t1 [error_line col] (Ok tt)
  | (t1, Ok c) =>
    match chroma_count rt c t1 with
    | (t2, Raise _) => mkOutcome t2 [error_line col] (Ok tt)
    | (t2, Ok n) => mkOutcome t2 [count_line col n] (Ok tt)
    end
  end.
Proof.
  unfold status_entry, try_except, bind, call.
  destruct (chroma_get_collection rt client (name col) t) as [t1 [c|e]];
    simpl; [|reflexivity].
  destruct (chroma_count rt c t1) as [t2 [n|e]]; reflexivity.
Qed.

Lemma status_entry_fails (col : CollectionInfo) (t : Store rt) :
  inspection_fails rt client col t ->
  exists t', status_entry rt client col t
             = mkOutcome t' [error_line col] (Ok tt).
Proof.
  unfold inspection_fails. rewrite status_entry_run.
  destruct (chroma_get_collection rt client (name col) t) as [t1 [c|e]].
  - destruct (chroma_count rt c t1) as [t2 [n|e]]; simpl.
    + intros [e He]. discriminate.
    + intros _. now exists t2.
  - intros _. now exists t1.
Qed.

(** One turn of the loop: the collection fails and gets the error line,
    or it is counted and gets the line with its count. *)
Lemma status_entry_step (col : CollectionInfo) (t : Store rt) :
  (inspection_fails rt client col t /\
   status_entry rt client col t
   = mkOutcome (after_inspection rt client col t) [error_line col] (Ok tt)) \/
  (exists n,
     inspection_counts rt client col t n /\
     status_entry rt client col t
     = mkOutcome (after_inspection rt client col t) [count_line col n] (Ok tt)).
Proof.
  rewrite status_entry_run.
  unfold inspection_fails, inspection_counts, after_inspection.
  destruct (chroma_get_collection rt client (name col) t) as [t1 [c|e]].
  - destruct (chroma_count rt c t1) as [t2 [n|e]]; simpl.
    + right. exists n. split; reflexivity.
    + left. split; [now exists e | reflexivity].
  - left. split; [exact I | reflexivity].
Qed.

Lemma listing_lines (cols : list CollectionInfo) (lines : list str)
    (t t' : Store rt) :
  listing rt client t cols lines t' -> Forall2 status_line_of cols lines.
Proof.
  induction 1 as [t|t t' col cols lines _ _ IH|t t' col n cols lines _ _ IH];
    constructor; try assumption.
  - now left.
  - right. now exists n.
Qed.

Lemma status_loop (cols : list CollectionInfo) (t : Store rt) :
  exists t' lines,
    for_each cols (status_entry rt client) t = mkOutcome t' lines (Ok tt)
    /\ listing rt client t cols lines t'.
Proof.
  revert t. induction cols as [|col cols IH]; intros t.
  - exists t, []. split; [reflexivity | constructor].
  - destruct (IH (after_inspection rt client col t))
      as (t' & lines & Hloop & Hlines).
    destruct (status_entry_step col t) as [[Hfail Hentry]|(n & Hn & Hentry)].
    + exists t', (error_line col :: lines). split.
      * simpl. rewrite (bind_ok _ _ _ _ _ _ Hentry), Hloop. reflexivity.
      * now apply listing_error.
    + exists t', (count_line col n :: lines). split.
      * simpl. rewrite (bind_ok _ _ _ _ _ _ Hentry), Hloop. reflexivity.
      * now apply listing_count with (n := n).
Qed.

Lemma cmd_status_run (s s1 s2 : Store rt) (cols : list CollectionInfo) :
  chroma_PersistentClient rt (VECTOR_DB_DIR rt) s = (s1, Ok client) ->
  chroma_list_collections rt client s1 = (s2, Ok cols) ->
  exists s' lines,
    cmd_status rt s
    = mkOutcome s' (status_heading rt (Z.of_nat (List.length cols)) ++ lines)
                (Ok tt)
    /\ listing rt client s2 cols lines s'.
Proof.
  intros Hopen Hcols.
  destruct (status_loop cols s2) as (s' & lines & Hloop & Hlines).
  exists s', lines. split; [|exact Hlines].
  unfold cmd_status.
  rewrite (bind_ok _ _ _ _ _ _ (get_client_run rt s s1 client Hopen)).
  rewrite prepend_nil, !bind_print.
  rewrite (bind_ok _ _ _ _ _ _ (call_eq _ _ _ _ Hcols)).
  rewrite prepend_nil, bind_print, Hloop. reflexivity.
Qed.

End Status.

(** C8.  In [status], a collection whose retrieval or count fails gets the
    line [(error)] and the loop body ends normally.  The run prints, after
    the heading, the listing of the collections in order: for each one,
    inspected in the store as its predecessors left it, the line [(error)]
    when its inspection fails and the line with its count when it is
    counted, whatever failed before.  [status] returns and the process
    ends with status 0. *)
Theorem status_tolerates_failures (rt : Runtime) (s s1 s2 : Store rt)
    (client : Client rt) (cols : list CollectionInfo) (argv0 : str) :
  chroma_PersistentClient rt (VECTOR_DB_DIR rt) s = (s1, Ok client) ->
  chroma_list_collections rt client s1 = (s2, Ok cols) ->
  (forall col t, inspection_fails rt client col t ->
     exists t', status_entry rt client col t
                = mkOutcome t' [error_line col] (Ok tt)) /\
  (exists lines s',
     main rt [argv0; u "status"] s
       = mkOutcome s' (status_heading rt (Z.of_nat (List.length cols)) ++ lines)
           (Ok tt)
     /\ listing rt client s2 cols lines s'
     /\ Forall2 status_line_of cols lines) /\
  result_of (main rt [argv0; u "status"] s) = Ok tt /\
  exit_status (result_of (main rt [argv0; u "status"] s)) = 0.
Proof.
  intros Hopen Hcols.
  destruct (cmd_status_run rt client s s1 s2 cols Hopen Hcols)
    as (s' & lines & Hrun & Hlines).
  rewrite main_status, Hrun. simpl.
  split; [|split; [|split]]; try reflexivity.
  - intros col t. apply status_entry_fails.
  - exists lines, s'. split; [reflexivity|]. split; [exact Hlines|].
    apply (listing_lines rt client _ _ _ _ Hlines).
Qed.

Lemma status_tolerates_failures_witness :
  (exists t', status_entry Mem.runtime tt {| name := u "scratch" |} Mem.flaky
              = mkOutcome t' [error_line {| name := u "scratch" |}] (Ok tt)) /\
  (exists lines s',
     Mem.run [u "status"] Mem.flaky
       = mkOutcome s' (status_heading Mem.runtime 2 ++ lines) (Ok tt)
     /\ listing Mem.runtime tt Mem.flaky
          [{| name := COLLECTION_NAME |}; {| name := u "scratch" |}] lines s') /\
  exit_status (result_of (Mem.run [u "status"] Mem.flaky)) = 0.
Proof.
  destruct (status_tolerates_failures Mem.runtime Mem.flaky Mem.flaky Mem.flaky
              tt (map (fun c => {| name := Mem.c_name c |}) Mem.flaky)
              (u "chroma-cli.py") eq_refl eq_refl)
    as (Hentry & (lines & s' & Hrun & Hlisting & _) & _ & Hstatus).
  split; [|split; [|exact Hstatus]].
  - apply Hentry. vm_compute. eexists. reflexivity.
  - exists lines, s'. split; [exact Hrun | exact Hlisting].
Defined.

(** ** The collection that is not there *)


Section NotFound.

Variable rt : Runtime.

Lemma limit_arg_run (args : list str) (s : Store rt) :
  limit_ok rt args -> exists z, limit_arg rt args s = mkOutcome s [] (Ok z).
Proof.
  destruct args as [|n rest]; simpl.
  - intros _. now exists 10.
  - intros [z Hz]. exists z. unfold int. now rewrite Hz.
Qed.

Lemma status_line_starts_blank (col : CollectionInfo) (line : str) :
  status_line_of col line -> hd_error line = Some SP.
Proof. intros [->|[n ->]]; reflexivity. Qed.

Lemma status_heading_not_cross (n : Z) (line : str) :
  In line (status_heading rt n) -> hd_error line <> hd_error NOT_FOUND.
Proof.
  unfold status_heading. simpl.
  intros [<-|[<-|[<-|[<-|[<-|[]]]]]]; vm_compute; discriminate.
Qed.

Lemma Forall2_in_right {X Y} (P : X -> Y -> Prop) (xs : list X) (ys : list Y) :
  Forall2 P xs ys -> forall y, In y ys -> exists x, In x xs /\ P x y.
Proof.
  induction 1 as [|x y xs ys Hxy _ IH]; intros y0; simpl; [tauto|].
  intros [<-|Hin].
  - exists x. auto.
  - destruct (IH y0 Hin) as (x0 & Hx0 & HP). exists x0. auto.
Qed.

Lemma status_never_not_found (cols : list CollectionInfo) (lines : list str)
    (n : Z) :
  Forall2 status_line_of cols lines ->
  ~ In NOT_FOUND (status_heading rt n ++ lines).
Proof.
  intros Hlines Hin. apply in_app_or in Hin as [Hin|Hin].
  - now apply (status_heading_not_cross n NOT_FOUND Hin).
  - destruct (Forall2_in_right _ _ _ Hlines _ Hin) as (col & _ & Hcol).
    apply status_line_starts_blank in Hcol. vm_compute in Hcol. discriminate.
Qed.

Variables (s s1 s2 : Store rt) (client : Client rt) (e : Exn).

Hypothesis client_opened :
  chroma_PersistentClient rt (VECTOR_DB_DIR rt) s = (s1, Ok client).
Hypothesis retrieval_raised :
  chroma_get_collection rt client COLLECTION_NAME s1 = (s2, Raise e).

(** [get_collection] when the retrieval raises: an [Exception] is
    reported and turned into [sys.exit(1)], anything else passes. *)
Lemma get_collection_raised :
  get_collection rt client s1
  = match e with
    | Error _ msg =>
      mkOutcome s2 [NOT_FOUND; error_detail msg] (Raise (SystemExit 1))
    | SystemExit code => mkOutcome s2 [] (Raise (SystemExit code))
    end.
Proof.
  unfold get_collection. destruct e as [code|cls msg].
  - apply (try_except_passed _ _ _ _ _ _ _
             (call_eq _ _ _ _ retrieval_raised) eq_refl).
  - rewrite (try_except_caught _ _ _ _ _ _ _
               (call_eq _ _ _ _ retrieval_raised) eq_refl).
    reflexivity.
Qed.

Lemma retrieval_stops {A} (k : Collection rt -> Prog rt A) :
  (client <- get_client rt ;; collection <- get_collection rt client ;;
   k collection) s
  = match e with
    | Error _ msg =>
      mkOutcome s2 [NOT_FOUND; error_detail msg] (Raise (SystemExit 1))
    | SystemExit code => mkOutcome s2 [] (Raise (SystemExit code))
    end.
Proof.
  rewrite (bind_ok _ _ _ _ _ _ (get_client_run rt s s1 client client_opened)).
  rewrite prepend_nil. unfold bind at 1. rewrite get_collection_raised.
  destruct e; reflexivity.
Qed.

End NotFound.

(** C1 (as amended).  When retrieving the collection [jm__jikime_mem]
    raises an [Exception], [list], [search] with a query and [types] print
    the not-found message and the detail of the error and exit with status
    1 (a count argument, when given, being one that [int()] accepts); what
    is raised and is not an [Exception] is not caught and ends the command
    with nothing printed.  [status] does not retrieve that collection: it
    prints its heading and the listing of the collections the store has,
    one line each, never the not-found message, and ends with status 0. *)
Theorem not_found_exits (rt : Runtime) (s s1 s2 : Store rt)
    (client : Client rt) (e : Exn) (argv0 : str) :
  chroma_PersistentClient rt (VECTOR_DB_DIR rt) s = (s1, Ok client) ->
  chroma_get_collection rt client COLLECTION_NAME s1 = (s2, Raise e) ->
  let failed : Outcome (Store rt) unit :=
    match e with
    | Error _ msg =>
      mkOutcome s2 [NOT_FOUND; error_detail msg] (Raise (SystemExit 1))
    | SystemExit code => mkOutcome s2 [] (Raise (SystemExit code))
    end in
  (forall args, limit_ok rt args ->
     main rt (argv0 :: u "list" :: args) s = failed) /\
  (forall query args, limit_ok rt args ->
     main rt (argv0 :: u "search" :: query :: args) s = failed) /\
  (forall args, main rt (argv0 :: u "types" :: args) s = failed) /\
  (is_Exception e = true ->
     exit_status (result_of failed) = 1 /\
     hd_error (stdout_of failed) = Some NOT_FOUND) /\
  (forall args s3 cols,
     chroma_list_collections rt client s1 = (s3, Ok cols) ->
     (exists lines s',
        main rt (argv0 :: u "status" :: args) s
          = mkOutcome s'
              (status_heading rt (Z.of_nat (List.length cols)) ++ lines)
              (Ok tt)
        /\ listing rt client s3 cols lines s') /\
     exit_status (result_of (main rt (argv0 :: u "status" :: args) s)) = 0 /\
     ~ In NOT_FOUND (stdout_of (main rt (argv0 :: u "status" :: args) s))).
Proof.
  intros Hopen Hget failed. split; [|split; [|split; [|split]]].
  - intros args Hargs. rewrite main_list.
    destruct (limit_arg_run rt args s Hargs) as [z Hz].
    rewrite (bind_ok _ _ _ _ _ _ Hz), prepend_nil.
    unfold cmd_list.
    apply (retrieval_stops rt s s1 s2 client e Hopen Hget).
  - intros query args Hargs. rewrite main_search.
    destruct (limit_arg_run rt args s Hargs) as [z Hz].
    rewrite (bind_ok _ _ _ _ _ _ Hz), prepend_nil.
    unfold cmd_search.
    apply (retrieval_stops rt s s1 s2 client e Hopen Hget).
  - intros args. rewrite main_types. unfold cmd_types.
    apply (retrieval_stops rt s s1 s2 client e Hopen Hget).
  - unfold failed. destruct e; [discriminate|]. intros _. split; reflexivity.
  - intros args s3 cols Hcols. rewrite main_status.
    destruct (cmd_status_run rt client s s1 s3 cols Hopen Hcols)
      as (s' & lines & Hrun & Hlines).
    rewrite Hrun. split; [|split; [reflexivity|]].
    + exists lines, s'. split; [reflexivity | exact Hlines].
    + apply (status_never_not_found rt cols lines).
      apply (listing_lines rt client _ _ _ _ Hlines).
Qed.

Lemma not_found_exits_witness :
  Mem.run [u "types"] []
    = mkOutcome []
        [NOT_FOUND;
         error_detail (u "Collection jm__jikime_mem does not exist.")]
        (Raise (SystemExit 1)) /\
  Mem.run [u "list"; u "3"] []
    = mkOutcome []
        [NOT_FOUND;
         error_detail (u "Collection jm__jikime_mem does not exist.")]
        (Raise (SystemExit 1)).
Proof.
  destruct (not_found_exits Mem.runtime [] [] [] tt
              (Error (u "ValueError")
                     (u "Collection jm__jikime_mem does not exist."))
              (u "chroma-cli.py") eq_refl eq_refl)
    as (Hlist & _ & Htypes & _).
  split.
  - exact (Htypes []).
  - apply (Hlist [u "3"]). exists 3. reflexivity.
Defined.

(** C1, counterexample.  In a store without the collection [jm__jikime_mem]
    (retrieving it raises), [status] ends with status 0, not 1, and the
    not-found message is not among the lines it prints. *)
Lemma status_without_collection :
  (exists e, Mem.lookup COLLECTION_NAME [] = Raise e) /\
  exit_status (result_of (Mem.run [u "status"] [])) = 0 /\
  exit_status (result_of (Mem.run [u "status"] [])) <> 1 /\
  ~ In NOT_FOUND (stdout_of (Mem.run [u "status"] [])).
Proof.
  split; [eexists; reflexivity|].
  split; [reflexivity|]. split; [discriminate|].
  vm_compute. intuition discriminate.
Qed.
(** ** The store is only read *)


Section Frame.

Context {S : Type}.

Lemma preserves_ret {A} (a : A) : preserves (@ret S A a).
Proof. intros s. reflexivity. Qed.

Lemma preserves_raise {A} (e : Exn) : preserves (@raise S A e).
Proof. intros s. reflexivity. Qed.

Lemma preserves_print (line : str) : preserves (@print S line).
Proof. intros s. reflexivity. Qed.

Lemma preserves_call {A} (op : S -> S * Res A) :
  (forall s, fst (op s) = s) -> preserves (call op).
Proof.
  intros H s. unfold call. specialize (H s).
  destruct (op s) as [s' r]. exact H.
Qed.

Lemma preserves_bind {A B} (m : M S A) (f : A -> M S B) :
  preserves m -> (forall a, preserves (f a)) -> preserves (bind m f).
Proof.
  intros Hm Hf s. unfold bind. specialize (Hm s).
  destruct (m s) as [s' out [a|e]]; simpl in *; subst s'.
  - apply Hf.
  - reflexivity.
Qed.

Lemma preserves_try_except {A} (m : M S A) catches handler :
  preserves m -> (forall e, preserves (handler e)) ->
  preserves (try_except m catches handler).
Proof.
  intros Hm Hh s. unfold try_except. specialize (Hm s).
  destruct (m s) as [s' out [a|e]]; simpl in *; subst s'; [reflexivity|].
  destruct (catches e); simpl; [apply Hh | reflexivity].
Qed.

Lemma preserves_for_each {X} (l : list X) (body : X -> M S unit) :
  (forall x, preserves (body x)) -> preserves (for_each l body).
Proof.
  intros H. induction l as [|x l IH]; simpl.
  - apply preserves_ret.
  - apply preserves_bind; [apply H | intros _; exact IH].
Qed.

Lemma preserves_for_enumerate {X} (l : list X) (body : Z -> X -> M S unit) :
  (forall i x, preserves (body i x)) ->
  forall i, preserves (for_enumerate i l body).
Proof.
  intros H. induction l as [|x l IH]; intros i; simpl.
  - apply preserves_ret.
  - apply preserves_bind; [apply H | intros _; apply IH].
Qed.

Lemma preserves_index0 {X} (l : list X) : preserves (@index0 S X l).
Proof. destruct l; [apply preserves_raise | apply preserves_ret]. Qed.

Lemma preserves_lift {A} (r : Res A) : preserves (@lift S A r).
Proof. intros s. reflexivity. Qed.

Lemma preserves_for_fold {X A} (l : list X) (body : A -> X -> M S A) :
  (forall acc x, preserves (body acc x)) ->
  forall acc, preserves (for_fold l acc body).
Proof.
  intros H. induction l as [|x l IH]; intros acc; simpl.
  - apply preserves_ret.
  - apply preserves_bind; [apply H | intro; apply IH].
Qed.

End Frame.

Create HintDb frame.
#[local] Hint Resolve preserves_ret preserves_raise preserves_print
  preserves_index0 preserves_lift preserves_for_each preserves_for_enumerate
  preserves_for_fold : frame.
#[local] Hint Extern 2 (preserves (bind _ _)) =>
  apply preserves_bind; [|intro] : frame.
#[local] Hint Extern 2 (preserves (try_except _ _ _)) =>
  apply preserves_try_except; [|intro] : frame.
#[local] Hint Extern 2 (preserves (call _)) =>
  apply preserves_call; intro : frame.
#[local] Hint Extern 3 (preserves (if ?b then _ else _)) =>
  destruct b : frame.

Section ReadOnly.

Variable rt : Runtime.
Hypothesis reads : read_only rt.

Lemma preserves_get_client : preserves (get_client rt).
Proof. apply preserves_call. intro. apply reads. Qed.

Lemma preserves_get_collection client : preserves (get_collection rt client).
Proof.
  unfold get_collection, sys_exit.
  apply preserves_try_except.
  - apply preserves_call. intro. apply reads.
  - intro. auto with frame.
Qed.

Lemma preserves_status_entry client col :
  preserves (status_entry rt client col).
Proof.
  unfold status_entry.
  apply preserves_try_except; [|auto with frame].
  apply preserves_bind; [apply preserves_call; intro; apply reads|intro].
  apply preserves_bind; [apply preserves_call; intro; apply reads|intro].
  apply preserves_print.
Qed.

Lemma preserves_list_entry i x : preserves (list_entry rt i x).
Proof.
  destruct x as [[id doc] meta]. unfold list_entry. auto 12 with frame.
Qed.

Lemma preserves_search_entry i x : preserves (search_entry rt i x).
Proof.
  destruct x as [[[id doc] meta] dist]. unfold search_entry.
  auto 12 with frame.
Qed.

Lemma preserves_tally_entry counts meta : preserves (tally_entry rt counts meta).
Proof. unfold tally_entry. auto 8 with frame. Qed.

Lemma preserves_session_entry row : preserves (session_entry rt row).
Proof. unfold session_entry. auto with frame. Qed.

#[local] Hint Resolve preserves_get_client preserves_get_collection
  preserves_status_entry preserves_list_entry preserves_search_entry : frame.

Lemma preserves_cmd_status : preserves (cmd_status rt).
Proof.
  unfold cmd_status.
  apply preserves_bind; [auto with frame | intro client].
  do 4 (apply preserves_bind; [apply preserves_print | intros _]).
  apply preserves_bind; [apply preserves_call; intro; apply reads | intro].
  auto with frame.
Qed.

Lemma preserves_cmd_list limit : preserves (cmd_list rt limit).
Proof.
  unfold cmd_list.
  apply preserves_bind; [auto with frame | intro client].
  apply preserves_bind; [auto with frame | intro c].
  apply preserves_bind; [apply preserves_call; intro; apply reads | intro n].
  do 3 (apply preserves_bind; [apply preserves_print | intros _]).
  destruct (n =? 0); [apply preserves_print|].
  apply preserves_bind; [apply preserves_call; intro; apply reads | intro].
  apply preserves_for_enumerate. auto with frame.
Qed.

Lemma preserves_cmd_search query limit : preserves (cmd_search rt query limit).
Proof.
  unfold cmd_search.
  apply preserves_bind; [auto with frame | intro client].
  apply preserves_bind; [auto with frame | intro c].
  do 3 (apply preserves_bind; [apply preserves_print | intros _]).
  apply preserves_bind; [apply preserves_call; intro; apply reads | intro r].
  apply preserves_bind; [apply preserves_index0 | intros [|id0 ids0]].
  - apply preserves_print.
  - do 4 (apply preserves_bind; [apply preserves_index0 | intro]).
    apply preserves_for_enumerate. auto with frame.
Qed.

Lemma preserves_cmd_types : preserves (cmd_types rt).
Proof.
  unfold cmd_types.
  apply preserves_bind; [auto with frame | intro client].
  apply preserves_bind; [auto with frame | intro c].
  apply preserves_bind; [apply preserves_call; intro; apply reads | intro n].
  do 3 (apply preserves_bind; [apply preserves_print | intros _]).
  destruct (n =? 0); [apply preserves_print|].
  apply preserves_bind; [apply preserves_call; intro; apply reads | intro].
  apply preserves_bind;
    [apply preserves_for_fold; intros; apply preserves_tally_entry | intro].
  cbv zeta.
  apply preserves_bind; [apply preserves_print | intros _].
  apply preserves_bind;
    [apply preserves_for_each; intro; apply preserves_print | intros _].
  apply preserves_bind; [apply preserves_print | intros _].
  apply preserves_for_each; intro; apply preserves_session_entry.
Qed.

Lemma preserves_limit_arg args : preserves (limit_arg rt args).
Proof.
  destruct args as [|n rest]; simpl; [apply preserves_ret|].
  unfold int. destruct (int_ rt n); [apply preserves_ret | apply preserves_raise].
Qed.

Lemma preserves_main argv : preserves (main rt argv).
Proof.
  pose proof preserves_cmd_status. pose proof preserves_cmd_list.
  pose proof preserves_cmd_search. pose proof preserves_cmd_types.
  pose proof preserves_limit_arg.
  unfold main, sys_exit.
  destruct argv as [|argv0 [|cmd args]]; [auto with frame ..|].
  repeat match goal with
         | |- preserves (if ?b then _ else _) => destruct b
         end; auto with frame.
  destruct args as [|query args']; auto with frame.
Qed.

End ReadOnly.

(** C7.  With a client whose calls used here are reads, every run of the
    tool, whatever its arguments and however it ends, leaves the store as
    it found it: nothing is created, changed or destroyed. *)
Theorem store_unchanged (rt : Runtime) :
  read_only rt -> forall argv s, store_of (main rt argv s) = s.
Proof. intros reads argv. exact (preserves_main rt reads argv). Qed.

Lemma store_unchanged_witness :
  store_of (Mem.run [u "search"; u "hello"] Mem.three) = Mem.three /\
  store_of (Mem.run [u "types"] Mem.flaky) = Mem.flaky.
Proof.
  split; apply (store_unchanged Mem.runtime); constructor; reflexivity.
Defined.

(** ** Equality of values *)

Section ValueFacts.

Lemma str_eqb_sym (a b : str) : str_eqb a b = str_eqb b a.
Proof.
  destruct (str_eqb a b) eqn:E.
  - apply str_eqb_eq in E. subst. symmetry. apply str_eqb_refl.
  - symmetry. apply str_eqb_neq. apply str_eqb_neq in E. congruence.
Qed.

Lemma num_eqb_sym (a b : Num) : num_eqb a b = num_eqb b a.
Proof.
  destruct a as [p| | |], b as [q| | |]; try reflexivity.
  simpl. apply eq_true_iff_eq. rewrite !Qeq_bool_iff.
  split; intros H; now symmetry.
Qed.

Lemma py_eqb_sym (a b : Value) : py_eqb a b = py_eqb b a.
Proof.
  destruct a, b; unfold py_eqb; cbn [num_of]; try reflexivity;
    try apply str_eqb_sym; apply num_eqb_sym.
Qed.

Lemma py_eqb_str (s : str) (w : Value) :
  py_eqb (VStr s) w = true <-> VStr s = w.
Proof.
  destruct w as [t|n|x|b]; simpl; try (split; discriminate).
  rewrite str_eqb_eq. split; congruence.
Qed.

(** Between values of which one is a string, [==] is equality. *)
Lemma py_eqb_eq (a b : Value) :
  is_str a = true \/ is_str b = true -> (py_eqb a b = true <-> a = b).
Proof.
  intros [Ha|Hb].
  - destruct a as [s| | |]; try discriminate. apply py_eqb_str.
  - destruct b as [s| | |]; try discriminate.
    rewrite py_eqb_sym, py_eqb_str. split; congruence.
Qed.

Lemma py_eqb_neq (a b : Value) :
  is_str a = true \/ is_str b = true -> (py_eqb a b = false <-> a <> b).
Proof.
  intros H. rewrite <- (py_eqb_eq a b H).
  destruct (py_eqb a b); split; congruence.
Qed.

Lemma py_eqb_refl (a : Value) : is_str a = true -> py_eqb a a = true.
Proof. intros H. apply py_eqb_eq; auto. Qed.

End ValueFacts.

(** ** Counters *)

Section CounterFacts.

Import Counter.


Lemma total_cons kn c : total (kn :: c) = snd kn + total c.
Proof. reflexivity. Qed.

Lemma total_app c1 c2 : total (c1 ++ c2) = total c1 + total c2.
Proof.
  induction c1 as [|kn c1 IH]; [reflexivity|].
  simpl app. rewrite !total_cons, IH. lia.
Qed.

Lemma total_incr key c : total (incr key c) = total c + 1.
Proof.
  induction c as [|[k n] c IH]; simpl; [reflexivity|].
  destruct (py_eqb k key); rewrite !total_cons; simpl; [|rewrite IH]; lia.
Qed.

Lemma keys_incr key c k' :
  is_str key = true ->
  (In k' (keys (incr key c)) <-> k' = key \/ In k' (keys c)).
Proof.
  intros Hkey. induction c as [|[k n] c IH]; simpl.
  - intuition.
  - destruct (py_eqb k key) eqn:E; simpl.
    + apply py_eqb_eq in E; [|now right]. subst. intuition.
    + rewrite IH. intuition.
Qed.

Lemma NoDup_keys_incr key c :
  is_str key = true -> NoDup (keys c) -> NoDup (keys (incr key c)).
Proof.
  intros Hkey. induction c as [|[k n] c IH]; simpl; intros H.
  - constructor; [intros [] | constructor].
  - inversion H as [|? ? Hnotin Hrest]; subst.
    destruct (py_eqb k key) eqn:E; simpl.
    + now constructor.
    + constructor; [|now apply IH].
      intros Hin. apply (keys_incr key c k Hkey) in Hin as [->|Hin];
        [|contradiction].
      rewrite (py_eqb_refl key Hkey) in E. discriminate.
Qed.

Lemma get_incr key c k' :
  is_str key = true ->
  get (incr key c) k' = get c k' + (if py_eqb key k' then 1 else 0).
Proof.
  intros Hkey. induction c as [|[k n] c IH]; simpl.
  - destruct (py_eqb key k'); reflexivity.
  - destruct (py_eqb k key) eqn:E; simpl.
    + apply py_eqb_eq in E; [|now right]. subst k.
      destruct (py_eqb key k'); lia.
    + destruct (py_eqb k k') eqn:E'; [|exact IH].
      destruct (py_eqb key k') eqn:E''; [|lia].
      apply py_eqb_eq in E''; [|now left]. subst k'.
      rewrite E in E'. discriminate.
Qed.

Lemma get_absent c k :
  is_str k = true -> ~ In k (keys c) -> get c k = 0.
Proof.
  intros Hk. induction c as [|[k0 n] c IH]; simpl; intros H; [reflexivity|].
  destruct (py_eqb k0 k) eqn:E.
  - apply py_eqb_eq in E; [|now right]. subst. exfalso. apply H. now left.
  - apply IH. intros Hin. apply H. now right.
Qed.

Lemma get_present c k n :
  is_str k = true -> NoDup (keys c) -> In (k, n) c -> get c k = n.
Proof.
  intros Hk. induction c as [|[k0 n0] c IH]; simpl; intros Hnd Hin;
    [contradiction|].
  inversion Hnd as [|? ? Hnotin Hrest]; subst.
  destruct Hin as [E|Hin].
  - inversion E; subst. now rewrite (py_eqb_refl k Hk).
  - destruct (py_eqb k0 k) eqn:E; [|now apply IH].
    apply py_eqb_eq in E; [|now right]. subst. exfalso. apply Hnotin.
    change k with (fst (k, n)). now apply in_map.
Qed.

Lemma positive_incr key c :
  Forall (fun kn => 1 <= snd kn) c ->
  Forall (fun kn => 1 <= snd kn) (incr key c).
Proof.
  induction 1 as [|[k n] c Hn Hc IH]; simpl.
  - constructor; [simpl; lia | constructor].
  - destruct (py_eqb k key); constructor; simpl in *; auto; lia.
Qed.

(** *** Counting a list of values *)

Lemma count_from_total values : forall c,
  total (count_from c values) = total c + Z.of_nat (List.length values).
Proof.
  induction values as [|v values IH]; intros c; simpl; [lia|].
  unfold count_from in *. simpl. rewrite IH, total_incr. lia.
Qed.

Lemma count_from_NoDup values : all_str values -> forall c,
  NoDup (keys c) -> NoDup (keys (count_from c values)).
Proof.
  induction 1 as [|v values Hv _ IH]; intros c H; [exact H|].
  apply (IH (incr v c)). now apply NoDup_keys_incr.
Qed.

Lemma count_from_positive values : forall c,
  Forall (fun kn => 1 <= snd kn) c ->
  Forall (fun kn => 1 <= snd kn) (count_from c values).
Proof.
  induction values as [|v values IH]; intros c H; [exact H|].
  apply (IH (incr v c)). now apply positive_incr.
Qed.

Lemma count_from_keys values : all_str values -> forall c k,
  In k (keys (count_from c values)) <-> In k (keys c) \/ In k values.
Proof.
  induction 1 as [|v values Hv _ IH]; intros c k; simpl; [tauto|].
  change (In k (keys (count_from (incr v c) values))
          <-> In k (keys c) \/ v = k \/ In k values).
  rewrite IH, (keys_incr v c k Hv). intuition.
Qed.

Lemma count_from_get values : all_str values -> forall c k,
  get (count_from c values) k
  = get c k + Z.of_nat (List.length (filter (fun v => py_eqb v k) values)).
Proof.
  induction 1 as [|v values Hv _ IH]; intros c k; simpl; [lia|].
  change (get (count_from (incr v c) values) k
          = get c k
            + Z.of_nat (List.length (if py_eqb v k
                                     then v :: filter (fun v => py_eqb v k) values
                                     else filter (fun v => py_eqb v k) values))).
  rewrite IH, (get_incr v c k Hv). destruct (py_eqb v k); simpl List.length; lia.
Qed.

(** *** [most_common] *)

Lemma insert_desc_perm x l : Permutation (x :: l) (insert_desc x l).
Proof.
  induction l as [|y l IH]; simpl; [reflexivity|].
  destruct (snd x <? snd y); [|reflexivity].
  rewrite perm_swap. now apply perm_skip.
Qed.

Lemma most_common_perm c : Permutation c (most_common c).
Proof.
  induction c as [|x c IH]; simpl; [reflexivity|].
  rewrite <- insert_desc_perm. now apply perm_skip.
Qed.

Lemma insert_desc_sorted x l : descending l -> descending (insert_desc x l).
Proof.
  unfold descending. induction 1 as [|y l Hl IH Hy]; simpl.
  - constructor; constructor.
  - destruct (Z.ltb_spec (snd x) (snd y)) as [Hlt|Hge].
    + constructor; [exact IH|].
      apply (Permutation_Forall (insert_desc_perm x l)).
      constructor; [lia | exact Hy].
    + constructor; [now constructor|].
      constructor; [exact Hge|].
      eapply Forall_impl; [|exact Hy]. simpl. intros a Ha. lia.
Qed.

Lemma most_common_sorted c : descending (most_common c).
Proof.
  induction c as [|x c IH]; simpl; [constructor|].
  now apply insert_desc_sorted.
Qed.

Lemma total_perm c1 c2 : Permutation c1 c2 -> total c1 = total c2.
Proof.
  induction 1 as [|x l l' _ IH|x y l|l l' l'' _ IH1 _ IH2];
    rewrite ?total_cons in *; lia.
Qed.

Lemma most_common_total c : total (most_common c) = total c.
Proof. symmetry. apply total_perm, most_common_perm. Qed.

Lemma most_common_length c : List.length (most_common c) = List.length c.
Proof. symmetry. apply Permutation_length, most_common_perm. Qed.

Lemma most_common_NoDup c : NoDup (keys c) -> NoDup (keys (most_common c)).
Proof.
  apply Permutation_NoDup. unfold keys.
  apply Permutation_map, most_common_perm.
Qed.

Lemma most_common_in c kn : In kn (most_common c) <-> In kn c.
Proof.
  split; apply Permutation_in;
    [apply Permutation_sym|]; apply most_common_perm.
Qed.

Lemma most_common_keys c v : In v (keys (most_common c)) <-> In v (keys c).
Proof.
  unfold keys. split; apply Permutation_in;
    [apply Permutation_sym|]; apply Permutation_map, most_common_perm.
Qed.

(** *** The first rows of a counter *)

Lemma total_nonneg c : Forall (fun kn => 1 <= snd kn) c -> 0 <= total c.
Proof.
  induction 1 as [|kn c Hn _ IH]; [reflexivity|].
  rewrite total_cons. lia.
Qed.

Lemma total_firstn (n : nat) c :
  Forall (fun kn => 1 <= snd kn) c ->
  total (firstn n c) <= total c /\
  (total (firstn n c) = total c <-> (List.length c <= n)%nat).
Proof.
  intros Hpos.
  rewrite <- (firstn_skipn n c) at 2 4. rewrite total_app.
  assert (Hskip : Forall (fun kn => 1 <= snd kn) (skipn n c)).
  { rewrite <- (firstn_skipn n c) in Hpos. now apply Forall_app in Hpos. }
  pose proof (total_nonneg _ Hskip) as H0.
  pose proof (length_skipn n c) as Hlen.
  split; [lia|]. split.
  - intros E. destruct (skipn n c) as [|kn rest] eqn:Es.
    + simpl in Hlen. lia.
    + inversion Hskip as [|? ? Hkn Hrest]; subst.
      pose proof (total_nonneg _ Hrest). rewrite total_cons in E. lia.
  - intros Hle. rewrite skipn_all2 by exact Hle. simpl. lia.
Qed.

End CounterFacts.

(** ** Tallies *)

Section Tally.

Variable field : str.

Lemma tally_count_from (dicts : list Dict) :
  tally field dicts = count_from Counter.empty (map (field_of field) dicts).
Proof.
  unfold tally, count_from. generalize Counter.empty.
  induction dicts as [|d dicts IH]; intros c; [reflexivity|].
  simpl. apply IH.
Qed.

Lemma tally_total dicts :
  Counter.total (tally field dicts) = Z.of_nat (List.length dicts).
Proof.
  rewrite tally_count_from, count_from_total, length_map. reflexivity.
Qed.

Lemma tally_positive dicts : Forall (fun kn => 1 <= snd kn) (tally field dicts).
Proof. rewrite tally_count_from. apply count_from_positive. constructor. Qed.

Lemma strings_values dicts :
  strings_at field dicts -> all_str (map (field_of field) dicts).
Proof.
  unfold strings_at, all_str. intros H. apply Forall_map. exact H.
Qed.

Lemma tally_NoDup dicts :
  strings_at field dicts -> NoDup (keys (tally field dicts)).
Proof.
  intros H. rewrite tally_count_from.
  apply count_from_NoDup; [now apply strings_values | constructor].
Qed.

Lemma tally_keys dicts v :
  strings_at field dicts ->
  (In v (keys (tally field dicts))
   <-> exists d, In d dicts /\ field_of field d = v).
Proof.
  intros H.
  rewrite tally_count_from, (count_from_keys _ (strings_values dicts H)).
  rewrite in_map_iff. simpl. split.
  - intros [[]|(d & E & Hin)]. now exists d.
  - intros (d & Hin & E). right. now exists d.
Qed.

Lemma tally_keys_str dicts :
  strings_at field dicts -> all_str (keys (tally field dicts)).
Proof.
  intros H. apply Forall_forall. intros v Hv.
  apply (tally_keys dicts v H) in Hv as (d & Hd & <-).
  unfold strings_at in H. rewrite Forall_forall in H. now apply H.
Qed.

Lemma filter_map_length {X Y} (g : X -> Y) (p : Y -> bool) (l : list X) :
  List.length (filter p (map g l))
  = List.length (filter (fun x => p (g x)) l).
Proof.
  induction l as [|x l IH]; [reflexivity|].
  simpl. destruct (p (g x)); simpl; now rewrite IH.
Qed.

Lemma tally_get dicts v :
  strings_at field dicts ->
  Counter.get (tally field dicts) v = occurrences field v dicts.
Proof.
  intros H.
  rewrite tally_count_from, (count_from_get _ (strings_values dicts H)).
  rewrite filter_map_length. reflexivity.
Qed.

Lemma tally_row dicts v n :
  strings_at field dicts ->
  In (v, n) (Counter.most_common (tally field dicts)) ->
  is_str v = true /\ n = occurrences field v dicts /\ 1 <= n.
Proof.
  intros H Hin. apply (proj1 (most_common_in _ _)) in Hin.
  assert (Hv : is_str v = true).
  { pose proof (tally_keys_str dicts H) as Hs.
    unfold all_str in Hs. rewrite Forall_forall in Hs. apply Hs.
    change v with (fst (v, n)). now apply in_map. }
  split; [exact Hv|]. split.
  - rewrite <- (tally_get dicts v H). symmetry.
    apply get_present; [exact Hv | now apply tally_NoDup | exact Hin].
  - pose proof (tally_positive dicts) as Hpos.
    rewrite Forall_forall in Hpos. apply (Hpos (v, n) Hin).
Qed.

Lemma field_of_find d :
  field_of field d
  = match dict_find d field with Some v => v | None => VStr UNKNOWN end.
Proof.
  unfold field_of. induction d as [|[k v] d IH]; [reflexivity|].
  simpl. destruct (str_eqb k field); [reflexivity | exact IH].
Qed.

Lemma occurrences_known dicts v :
  v <> VStr UNKNOWN -> occurrences field v dicts = carrying field v dicts.
Proof.
  intros Hv. unfold occurrences, carrying. f_equal. f_equal.
  apply filter_ext. intros d. rewrite field_of_find.
  destruct (dict_find d field); [reflexivity|].
  apply py_eqb_neq; [now left | congruence].
Qed.

Lemma occurrences_unknown dicts :
  occurrences field (VStr UNKNOWN) dicts
  = carrying field (VStr UNKNOWN) dicts + lacking field dicts.
Proof.
  unfold occurrences, carrying, lacking.
  induction dicts as [|d dicts IH]; [reflexivity|].
  simpl filter. rewrite field_of_find.
  destruct (dict_find d field) as [w|].
  - destruct (py_eqb w (VStr UNKNOWN)); simpl List.length; lia.
  - rewrite py_eqb_refl by reflexivity. simpl List.length. lia.
Qed.

End Tally.
(** ** [types] *)

Lemma bind_ret {S A B} (a : A) (f : A -> M S B) (s : S) :
  bind (ret a) f s = f a s.
Proof. rewrite (bind_ok (ret a) f s s [] a eq_refl). apply prepend_nil. Qed.

Lemma prepend_outcome {S A} (lines out : list str) (s : S) (r : Res A) :
  prepend lines (mkOutcome s out r) = mkOutcome s (lines ++ out) r.
Proof. reflexivity. Qed.

Section TypesLoops.

Variable rt : Runtime.

Lemma tally_entry_some (c1 c2 : Counter.t) (d : Dict) (s : Store rt) :
  tally_entry rt (c1, c2) (Some d) s
  = mkOutcome s []
      (Ok (Counter.incr (field_of DOC_TYPE d) c1,
           Counter.incr (field_of SESSION_ID d) c2)).
Proof. reflexivity. Qed.

Lemma tally_entry_none (counts : Counter.t * Counter.t) (s : Store rt) :
  tally_entry rt counts None s = mkOutcome s [] (Raise NO_GET).
Proof. reflexivity. Qed.

(** The loop that counts, over documents that all have metadata. *)
Lemma tally_loop (dicts : list Dict) : forall (c1 c2 : Counter.t) (s : Store rt),
  for_fold (map Some dicts) (c1, c2) (tally_entry rt) s
  = mkOutcome s []
      (Ok (count_from c1 (map (field_of DOC_TYPE) dicts),
           count_from c2 (map (field_of SESSION_ID) dicts))).
Proof.
  induction dicts as [|d dicts IH]; intros c1 c2 s; [reflexivity|].
  simpl. rewrite (bind_ok _ _ _ _ _ _ (tally_entry_some c1 c2 d s)).
  rewrite prepend_nil. apply IH.
Qed.

(** The loop that counts stops at the first document without metadata. *)
Lemma tally_loop_none (metas : list Meta) :
  In None metas ->
  forall (counts : Counter.t * Counter.t) (s : Store rt),
    for_fold metas counts (tally_entry rt) s = mkOutcome s [] (Raise NO_GET).
Proof.
  induction metas as [|[d|] metas IH]; intros Hin [c1 c2] s.
  - contradiction.
  - simpl. rewrite (bind_ok _ _ _ _ _ _ (tally_entry_some c1 c2 d s)).
    rewrite prepend_nil. apply IH.
    destruct Hin as [E|Hin]; [discriminate | exact Hin].
  - simpl. now rewrite (bind_raise _ _ _ _ _ _ (tally_entry_none (c1, c2) s)).
Qed.

Lemma session_entry_ok (row : Value * Z) (line : str) (s : Store rt) :
  session_line rt row = Ok line ->
  session_entry rt row s = mkOutcome s [line] (Ok tt).
Proof. intros H. unfold session_entry. rewrite H. reflexivity. Qed.

Lemma session_entry_raise (row : Value * Z) (e : Exn) (s : Store rt) :
  session_line rt row = Raise e ->
  session_entry rt row s = mkOutcome s [] (Raise e).
Proof. intros H. unfold session_entry. rewrite H. reflexivity. Qed.

Lemma session_loop (rows : Counter.t) : forall (lines : list str) (s : Store rt),
  collect (session_line rt) rows = Ok lines ->
  for_each rows (session_entry rt) s = mkOutcome s lines (Ok tt).
Proof.
  induction rows as [|row rows IH]; intros lines s; simpl.
  - intros [= <-]. reflexivity.
  - destruct (session_line rt row) as [line|e] eqn:Hrow; [|discriminate].
    destruct (collect (session_line rt) rows) as [rest|e] eqn:Hrest;
      [|discriminate].
    intros [= <-].
    rewrite (bind_ok _ _ _ _ _ _ (session_entry_ok row line s Hrow)).
    rewrite (IH rest s eq_refl). reflexivity.
Qed.

Lemma session_loop_raise (before : Counter.t) (row : Value * Z)
    (after : Counter.t) (e : Exn) :
  session_line rt row = Raise e ->
  forall (lines : list str) (s : Store rt),
    collect (session_line rt) before = Ok lines ->
    for_each (before ++ row :: after) (session_entry rt) s
    = mkOutcome s lines (Raise e).
Proof.
  intros Hrow. induction before as [|row0 before IH]; intros lines s; simpl.
  - intros [= <-].
    now rewrite (bind_raise _ _ _ _ _ _ (session_entry_raise row e s Hrow)).
  - destruct (session_line rt row0) as [line|e0] eqn:Hrow0; [|discriminate].
    destruct (collect (session_line rt) before) as [rest|e0] eqn:Hrest;
      [|discriminate].
    intros [= <-].
    rewrite (bind_ok _ _ _ _ _ _ (session_entry_ok row0 line s Hrow0)).
    rewrite (IH rest s eq_refl). reflexivity.
Qed.

Lemma session_line_str (a : str) (cnt : Z) :
  session_line rt (VStr a, cnt)
  = Ok (u "   📁 "
        ++ (if len a >? 12 then slice_to 12 a ++ u "..." else a)
        ++ u ": " ++ str_of_int cnt ++ u " documents").
Proof.
  unfold session_line. cbn [fst snd len_value slice_value str_of_value].
  destruct (len a >? 12); reflexivity.
Qed.

Lemma session_line_other (v : Value) (cnt : Z) :
  is_str v = false ->
  session_line rt (v, cnt) = Raise (no_len (type_name v)).
Proof. destruct v; [discriminate | reflexivity ..]. Qed.

Lemma collect_strings (rows : Counter.t) :
  all_str (keys rows) -> exists lines, collect (session_line rt) rows = Ok lines.
Proof.
  unfold all_str. induction rows as [|[v n] rows IH]; simpl; intros H.
  - now exists [].
  - inversion H as [|? ? Hv Hrest]; subst.
    destruct v as [a| | |]; try discriminate.
    destruct (IH Hrest) as [lines Hlines].
    rewrite session_line_str, Hlines. eexists. reflexivity.
Qed.

Variables (s s1 s2 s3 s4 : Store rt) (client : Client rt).
Variables (c : Collection rt) (count : Z) (metas : list Meta).

Hypothesis client_opened :
  chroma_PersistentClient rt (VECTOR_DB_DIR rt) s = (s1, Ok client).
Hypothesis collection_found :
  chroma_get_collection rt client COLLECTION_NAME s1 = (s2, Ok c).
Hypothesis counted : chroma_count rt c s2 = (s3, Ok count).
Hypothesis fetched : chroma_get_metadatas rt c s3 = (s4, Ok metas).

(** [types] up to the loop that counts. *)
Lemma cmd_types_fetched :
  count <> 0 ->
  cmd_types rt s
  = prepend types_heading
      ((counts <- for_fold metas (Counter.empty, Counter.empty)
                    (tally_entry rt) ;;
        print (by_type_header count) ;;
        for_each (Counter.most_common (fst counts))
          (fun row => print (type_line rt row)) ;;
        print BY_SESSION_HEADER ;;
        for_each (Counter.most_common_n 5 (snd counts)) (session_entry rt)) s4).
Proof.
  intros Hsome. unfold cmd_types.
  rewrite (found_continues rt s s1 s2 client client_opened _ c collection_found).
  rewrite (bind_ok _ _ _ _ _ _ (call_eq _ _ _ _ counted)), prepend_nil.
  rewrite !bind_print.
  destruct (Z.eqb_spec count 0) as [E|_]; [contradiction|].
  rewrite (bind_ok _ _ _ _ _ _ (call_eq _ _ _ _ fetched)), prepend_nil.
  reflexivity.
Qed.

Lemma cmd_types_empty :
  count = 0 ->
  cmd_types rt s = mkOutcome s3 (types_heading ++ [NO_DOCUMENTS]) (Ok tt).
Proof.
  intros E. unfold cmd_types.
  rewrite (found_continues rt s s1 s2 client client_opened _ c collection_found).
  rewrite (bind_ok _ _ _ _ _ _ (call_eq _ _ _ _ counted)), prepend_nil.
  rewrite E. reflexivity.
Qed.

(** A document without metadata ends [types] in the loop that counts. *)
Lemma cmd_types_no_metadata :
  count <> 0 -> In None metas ->
  cmd_types rt s = mkOutcome s4 types_heading (Raise NO_GET).
Proof.
  intros Hsome Hnone. rewrite (cmd_types_fetched Hsome).
  now rewrite (bind_raise _ _ _ _ _ _ (tally_loop_none metas Hnone _ s4)).
Qed.

Variable dicts : list Dict.
Hypothesis with_metadata : all_have_metadata metas dicts.

(** [types] up to the loop over the sessions. *)
Lemma cmd_types_counted :
  count <> 0 ->
  cmd_types rt s
  = prepend
      (types_heading
       ++ by_type_header count
          :: map (type_line rt) (Counter.most_common (tally DOC_TYPE dicts))
          ++ [BY_SESSION_HEADER])
      (for_each (Counter.most_common_n 5 (tally SESSION_ID dicts))
         (session_entry rt) s4).
Proof.
  intros Hsome. rewrite (cmd_types_fetched Hsome).
  unfold all_have_metadata in with_metadata. rewrite with_metadata.
  rewrite (bind_ok _ _ _ _ _ _ (tally_loop dicts _ _ s4)), prepend_nil.
  cbn [fst snd]. rewrite <- !tally_count_from.
  rewrite bind_print.
  rewrite (bind_ok _ _ _ _ _ _ (for_each_print (type_line rt) _ _)).
  rewrite bind_print.
  destruct (for_each _ (session_entry rt) s4) as [t out r].
  unfold prepend, types_heading. cbn [store_of stdout_of result_of app].
  rewrite <- app_assoc. reflexivity.
Qed.

Lemma cmd_types_run (rows_printed : list str) (r : Res unit) :
  for_each (Counter.most_common_n 5 (tally SESSION_ID dicts))
    (session_entry rt) s4 = mkOutcome s4 rows_printed r ->
  cmd_types rt s
  = mkOutcome (if count =? 0 then s3 else s4)
      (types_report rt count dicts rows_printed)
      (if count =? 0 then Ok tt else r).
Proof.
  intros Hloop. unfold types_report.
  destruct (Z.eqb_spec count 0) as [E|Hsome].
  - now apply cmd_types_empty.
  - rewrite (cmd_types_counted Hsome), Hloop, prepend_outcome.
    f_equal. rewrite <- app_assoc. simpl. rewrite <- app_assoc. reflexivity.
Qed.

End TypesLoops.

Lemma metadata_count (metas : list Meta) (dicts : list Dict) (count : Z) :
  all_have_metadata metas dicts -> count = Z.of_nat (List.length metas) ->
  count = Z.of_nat (List.length dicts).
Proof. unfold all_have_metadata. intros -> ->. now rewrite length_map. Qed.

Lemma no_metadata_count (metas : list Meta) (count : Z) :
  In None metas -> count = Z.of_nat (List.length metas) -> count <> 0.
Proof. destruct metas; [contradiction | simpl; lia]. Qed.

Lemma dict_find_get (field : str) (d : Dict) (v : Value) :
  dict_find d field = Some v -> field_of field d = v.
Proof. intros H. now rewrite field_of_find, H. Qed.

(** The values a tally has a row for: those some document carries, and
    [unknown] when a document has no such field. *)
Lemma field_of_cases (field : str) (dicts : list Dict) (v : Value) :
  (exists d, In d dicts /\ field_of field d = v)
  <-> (exists d, In d dicts /\ dict_find d field = Some v)
      \/ (v = VStr UNKNOWN /\ exists d, In d dicts /\ dict_find d field = None).
Proof.
  split.
  - intros (d & Hd & E). rewrite field_of_find in E.
    destruct (dict_find d field) as [w|] eqn:F.
    + left. exists d. subst. now split.
    + right. split; [now symmetry|]. now exists d.
  - intros [(d & Hd & F)|(-> & d & Hd & F)]; exists d; (split; [exact Hd|]);
      rewrite field_of_find, F; reflexivity.
Qed.

(** C5 (as amended).  For a collection whose documents all have metadata,
    the counts [types] prints by type sum to the collection's document
    count, and so do the per-session tallies it computes (the client's
    count being the number of documents it returns).  The By Session list
    shows the five most frequent sessions only: the counts printed there
    never exceed the total, and they sum to it exactly when the collection
    has at most five distinct session ids.  The report is printed whole
    when the session ids shown are strings; at a session id that is not,
    [len()] raises and the report stops before that row.  A document
    without metadata ends [types] with an AttributeError after the title,
    before any count is printed. *)
Theorem types_totals (rt : Runtime) (s s1 s2 s3 s4 : Store rt)
    (client : Client rt) (c : Collection rt) (count : Z) (metas : list Meta)
    (argv0 : str) :
  chroma_PersistentClient rt (VECTOR_DB_DIR rt) s = (s1, Ok client) ->
  chroma_get_collection rt client COLLECTION_NAME s1 = (s2, Ok c) ->
  chroma_count rt c s2 = (s3, Ok count) ->
  chroma_get_metadatas rt c s3 = (s4, Ok metas) ->
  count = Z.of_nat (List.length metas) ->
  let o := main rt [argv0; u "types"] s in
  (forall dicts, all_have_metadata metas dicts ->
     let type_rows := Counter.most_common (tally DOC_TYPE dicts) in
     let session_rows := Counter.most_common_n 5 (tally SESSION_ID dicts) in
     (forall lines, collect (session_line rt) session_rows = Ok lines ->
        o = mkOutcome (if count =? 0 then s3 else s4)
              (types_report rt count dicts lines) (Ok tt)) /\
     (all_str (keys session_rows) ->
        exists lines, collect (session_line rt) session_rows = Ok lines) /\
     (forall before row after lines e,
        session_rows = before ++ row :: after ->
        collect (session_line rt) before = Ok lines ->
        session_line rt row = Raise e ->
        o = mkOutcome s4 (types_report rt count dicts lines) (Raise e)) /\
     Counter.total type_rows = count /\
     Counter.total (tally SESSION_ID dicts) = count /\
     Counter.total session_rows <= count /\
     (Counter.total session_rows = count
      <-> (List.length (keys (tally SESSION_ID dicts)) <= 5)%nat)) /\
  (In None metas -> o = mkOutcome s4 types_heading (Raise NO_GET)).
Proof.
  intros Hopen Hfound Hcount Hfetch Hconsistent o.
  assert (Hmain : o = cmd_types rt s) by (unfold o; now rewrite main_types).
  split.
  - intros dicts Hdicts type_rows session_rows.
    pose proof (metadata_count metas dicts count Hdicts Hconsistent) as Hlen.
    split; [|split; [|split; [|split; [|split]]]].
    + intros lines Hlines. rewrite Hmain.
      rewrite (cmd_types_run rt s s1 s2 s3 s4 client c count metas
                 Hopen Hfound Hcount Hfetch dicts Hdicts lines (Ok tt)).
      * now destruct (count =? 0).
      * now apply session_loop.
    + apply collect_strings.
    + intros before row after lines e Hrows Hbefore Hrow. rewrite Hmain.
      assert (Hsome : count <> 0).
      { intros Hzero. destruct dicts as [|d dicts]; [|simpl in Hlen; lia].
        destruct before; discriminate Hrows. }
      rewrite (cmd_types_run rt s s1 s2 s3 s4 client c count metas
                 Hopen Hfound Hcount Hfetch dicts Hdicts lines (Raise e)).
      * destruct (Z.eqb_spec count 0); [contradiction | reflexivity].
      * fold session_rows. rewrite Hrows.
        now apply session_loop_raise.
    + unfold type_rows. now rewrite most_common_total, tally_total.
    + now rewrite tally_total.
    + unfold session_rows, Counter.most_common_n.
      assert (Hpos : Forall (fun kn => 1 <= snd kn)
                            (Counter.most_common (tally SESSION_ID dicts))).
      { eapply Permutation_Forall; [apply most_common_perm|].
        apply tally_positive. }
      destruct (total_firstn 5 _ Hpos) as [Hle Hiff].
      rewrite most_common_total, tally_total, <- Hlen in Hle, Hiff.
      rewrite most_common_length in Hiff.
      unfold keys. rewrite length_map. split; [exact Hle | exact Hiff].
  - intros Hnone. rewrite Hmain.
    apply (cmd_types_no_metadata rt s s1 s2 s3 s4 client c count metas
             Hopen Hfound Hcount Hfetch).
    + now apply (no_metadata_count metas).
    + exact Hnone.
Qed.

Lemma types_totals_witness :
  Mem.run [u "types"] Mem.three
  = mkOutcome Mem.three
      (types_report Mem.runtime 3 (Mem.dicts Mem.three)
         [u "   📁 s-1: 2 documents"; u "   📁 s-2: 1 documents"]) (Ok tt) /\
  Counter.total (Counter.most_common (tally DOC_TYPE (Mem.dicts Mem.three)))
  = 3.
Proof.
  destruct (types_totals Mem.runtime Mem.three Mem.three Mem.three Mem.three
              Mem.three tt _ 3 _ (u "chroma-cli.py")
              eq_refl eq_refl eq_refl eq_refl eq_refl)
    as [Hall _].
  destruct (Hall (Mem.dicts Mem.three) eq_refl) as (Hout & _ & _ & Htypes & _).
  split; [|exact Htypes].
  apply Hout. vm_compute. reflexivity.
Defined.

(** C5, counterexample.  For six documents of six different sessions the
    count of the collection is 6 and [types] prints five session rows, of
    one document each: the session counts it reports sum to 5.  For a
    collection with a document stored without metadata, [types] prints its
    title and raises: it reports no count at all. *)
Lemma types_top_five :
  let session_rows :=
    Counter.most_common_n 5 (tally SESSION_ID (Mem.dicts Mem.six)) in
  map Mem.count_of Mem.six = [Ok 6] /\
  Mem.run [u "types"] Mem.six
    = mkOutcome Mem.six
        [RULE; TYPES_TITLE; RULE; by_type_header 6; u "   📝 prompt: 6";
         BY_SESSION_HEADER;
         u "   📁 s-1: 1 documents"; u "   📁 s-2: 1 documents";
         u "   📁 s-3: 1 documents"; u "   📁 s-4: 1 documents";
         u "   📁 s-5: 1 documents"] (Ok tt) /\
  session_rows = [(VStr (u "s-1"), 1); (VStr (u "s-2"), 1);
                  (VStr (u "s-3"), 1); (VStr (u "s-4"), 1);
                  (VStr (u "s-5"), 1)] /\
  Counter.total session_rows = 5 /\
  Counter.total session_rows <> 6 /\
  map Mem.count_of Mem.unlabelled = [Ok 2] /\
  Mem.run [u "types"] Mem.unlabelled
    = mkOutcome Mem.unlabelled [RULE; TYPES_TITLE; RULE] (Raise NO_GET).
Proof.
  cbv zeta. repeat split; try (vm_compute; reflexivity).
  vm_compute. discriminate.
Qed.

(** C6 (as amended).  For a collection whose documents all have metadata,
    [types] prints, after the By Type header, one row for each row of the
    tally of [meta.get('doc_type', 'unknown')], in descending order of
    count.  When the document types are strings there is one row for each
    distinct type that a document carries, and a row [unknown] when
    a document has no type or carries the type [unknown]; no type has two
    rows; the count of a row is the number of documents that carry its
    type, to which the row [unknown] adds the documents that have no type.
    Documents of types prompt, response, prompt give the rows prompt: 2
    and response: 1.  A document without metadata ends [types] with an
    AttributeError after the title, before any row. *)
Theorem types_by_doc_type (rt : Runtime) (s s1 s2 s3 s4 : Store rt)
    (client : Client rt) (c : Collection rt) (count : Z) (metas : list Meta)
    (argv0 : str) :
  chroma_PersistentClient rt (VECTOR_DB_DIR rt) s = (s1, Ok client) ->
  chroma_get_collection rt client COLLECTION_NAME s1 = (s2, Ok c) ->
  chroma_count rt c s2 = (s3, Ok count) ->
  chroma_get_metadatas rt c s3 = (s4, Ok metas) ->
  count = Z.of_nat (List.length metas) ->
  let o := main rt [argv0; u "types"] s in
  (forall dicts, all_have_metadata metas dicts ->
     let rows := Counter.most_common (tally DOC_TYPE dicts) in
     (count <> 0 ->
      exists rest,
        stdout_of o
        = [RULE; TYPES_TITLE; RULE; by_type_header count]
          ++ map (type_line rt) rows ++ BY_SESSION_HEADER :: rest) /\
     descending rows /\
     (strings_at DOC_TYPE dicts ->
        NoDup (keys rows) /\
        (forall v, In v (keys rows)
           <-> (exists d, In d dicts /\ dict_find d DOC_TYPE = Some v)
               \/ (v = VStr UNKNOWN
                   /\ exists d, In d dicts /\ dict_find d DOC_TYPE = None)) /\
        (forall v n, In (v, n) rows ->
           1 <= n /\
           (v <> VStr UNKNOWN -> n = carrying DOC_TYPE v dicts) /\
           (v = VStr UNKNOWN ->
              n = carrying DOC_TYPE v dicts + lacking DOC_TYPE dicts))) /\
     (map (field_of DOC_TYPE) dicts
        = [VStr (u "prompt"); VStr (u "response"); VStr (u "prompt")] ->
      rows = [(VStr (u "prompt"), 2); (VStr (u "response"), 1)] /\
      map (type_line rt) rows
        = [u "   📝 prompt: 2"; u "   💬 response: 1"])) /\
  (In None metas -> o = mkOutcome s4 [RULE; TYPES_TITLE; RULE] (Raise NO_GET)).
Proof.
  intros Hopen Hfound Hcount Hfetch Hconsistent o.
  assert (Hmain : o = cmd_types rt s) by (unfold o; now rewrite main_types).
  split.
  - intros dicts Hdicts rows. split; [|split; [|split]].
    + intros Hsome. rewrite Hmain.
      rewrite (cmd_types_counted rt s s1 s2 s3 s4 client c count metas
                 Hopen Hfound Hcount Hfetch dicts Hdicts Hsome).
      exists (stdout_of (for_each
                (Counter.most_common_n 5 (tally SESSION_ID dicts))
                (session_entry rt) s4)).
      unfold prepend, types_heading. cbn [stdout_of].
      fold rows. cbn [app]. rewrite <- app_assoc. reflexivity.
    + apply most_common_sorted.
    + intros Hstr. split; [|split].
      * now apply most_common_NoDup, tally_NoDup.
      * intros v. unfold rows.
        rewrite most_common_keys, (tally_keys DOC_TYPE dicts v Hstr).
        apply field_of_cases.
      * intros v n Hin.
        destruct (tally_row DOC_TYPE dicts v n Hstr Hin) as (_ & Hn & Hpos).
        split; [exact Hpos|]. split.
        -- intros Hv. now rewrite <- occurrences_known.
        -- intros ->. now rewrite <- occurrences_unknown.
    + intros Hvalues. unfold rows.
      rewrite tally_count_from, Hvalues. split; vm_compute; reflexivity.
  - intros Hnone. rewrite Hmain.
    apply (cmd_types_no_metadata rt s s1 s2 s3 s4 client c count metas
             Hopen Hfound Hcount Hfetch).
    + now apply (no_metadata_count metas).
    + exact Hnone.
Qed.

Lemma types_by_doc_type_witness :
  Counter.most_common (tally DOC_TYPE (Mem.dicts Mem.three))
  = [(VStr (u "prompt"), 2); (VStr (u "response"), 1)] /\
  map (type_line Mem.runtime)
      (Counter.most_common (tally DOC_TYPE (Mem.dicts Mem.three)))
  = [u "   📝 prompt: 2"; u "   💬 response: 1"] /\
  descending (Counter.most_common (tally DOC_TYPE (Mem.dicts Mem.three))).
Proof.
  destruct (types_by_doc_type Mem.runtime Mem.three Mem.three Mem.three
              Mem.three Mem.three tt _ 3 _ (u "chroma-cli.py")
              eq_refl eq_refl eq_refl eq_refl eq_refl)
    as [Hall _].
  destruct (Hall (Mem.dicts Mem.three) eq_refl)
    as (_ & Hsorted & _ & Hexample).
  destruct Hexample as [Hrows Hlines]; [vm_compute; reflexivity|].
  split; [exact Hrows|]. split; [exact Hlines | exact Hsorted].
Defined.

(** C6, counterexample.  Of two documents, one of type [unknown] and one
    that has no type, one carries the value [unknown]: [types] reports
    unknown: 2.  Of two documents whose types are the int 1 and the bool
    [True], two distinct values carried by one document each, [types]
    reports the single row 1: 2, since [1 == True].  For a prompt followed
    by a document stored without metadata, [types] raises after its title
    and reports no row. *)
Lemma types_unknown_counts :
  stdout_of (Mem.run [u "types"] Mem.unknowns)
    = [RULE; TYPES_TITLE; RULE; by_type_header 2; u "   📄 unknown: 2";
       BY_SESSION_HEADER; u "   📁 s-1: 2 documents"] /\
  map (fun d => dict_find d DOC_TYPE) (Mem.dicts Mem.unknowns)
    = [Some (VStr (u "unknown")); None] /\
  carrying DOC_TYPE (VStr (u "unknown")) (Mem.dicts Mem.unknowns) = 1 /\
  stdout_of (Mem.run [u "types"] Mem.mixed)
    = [RULE; TYPES_TITLE; RULE; by_type_header 2; u "   📄 1: 2";
       BY_SESSION_HEADER; u "   📁 s-1: 2 documents"] /\
  map (fun d => dict_find d DOC_TYPE) (Mem.dicts Mem.mixed)
    = [Some (VInt 1); Some (VBool true)] /\
  map Mem.d_meta (Mem.c_docs (Mem.first_coll Mem.unlabelled))
    = [Some [(DOC_TYPE, VStr (u "prompt")); (SESSION_ID, VStr (u "s-1"))];
       None] /\
  Mem.run [u "types"] Mem.unlabelled
    = mkOutcome Mem.unlabelled [RULE; TYPES_TITLE; RULE] (Raise NO_GET).
Proof.
  repeat split; vm_compute; reflexivity.
Qed.

(** ** Loops over numbered records *)

Section Displayed.

Lemma displayed_app (out1 out2 : list str) :
  displayed (out1 ++ out2) = (displayed out1 + displayed out2)%nat.
Proof. unfold displayed. now rewrite filter_app, length_app. Qed.

Lemma displayed_cons (line : str) (out : list str) :
  displayed (line :: out)
  = ((if startswith CONTENT line then 1 else 0) + displayed out)%nat.
Proof.
  unfold displayed. cbn [filter].
  destruct (startswith CONTENT line); reflexivity.
Qed.

End Displayed.

Section Enumerate.

Context {X : Type}.

Lemma enumerate_length (l : list X) : forall i,
  List.length (enumerate i l) = List.length l.
Proof. induction l as [|x l IH]; intros i; simpl; [|rewrite IH]; reflexivity. Qed.

Lemma enumerate_nth (l : list X) : forall i j x,
  nth_error l j = Some x ->
  nth_error (enumerate i l) j = Some (i + Z.of_nat j, x).
Proof.
  induction l as [|y l IH]; intros i [|j] x; simpl; try discriminate.
  - intros [= ->]. now rewrite Z.add_0_r.
  - intros H. rewrite (IH (i + 1) j x H). f_equal. f_equal. lia.
Qed.

Lemma enumerate_forall (P : Z * X -> Prop) (Q : X -> Prop) (l : list X) :
  (forall i x, Q x -> P (i, x)) ->
  forall i, Forall Q l -> Forall P (enumerate i l).
Proof.
  intros HPQ. induction l as [|x l IH]; intros i H; simpl; [constructor|].
  inversion H as [|? ? Hx Hl]; subst. constructor; auto.
Qed.

End Enumerate.

Section Blocks.

Context {X Y : Type}.
Variables (k : nat) (f : X -> list Y).

Lemma flat_map_blocks_length (l : list X) :
  Forall (fun x => List.length (f x) = k) l ->
  List.length (flat_map f l) = (k * List.length l)%nat.
Proof.
  induction 1 as [|x l Hx _ IH]; simpl; [lia|].
  rewrite length_app, Hx, IH. lia.
Qed.

Lemma flat_map_blocks_at (l : list X) : forall j x rest,
  Forall (fun x => List.length (f x) = k) l ->
  nth_error l j = Some x ->
  firstn k (skipn (k * j) (flat_map f l ++ rest)) = f x.
Proof.
  induction l as [|y l IH]; intros [|j] x rest H; simpl; try discriminate;
    pose proof (Forall_inv H) as Hy; pose proof (Forall_inv_tail H) as Hl;
    simpl in Hy.
  - intros [= ->]. rewrite Nat.mul_0_r. simpl.
    rewrite <- app_assoc, firstn_app, Hy, Nat.sub_diag. simpl.
    rewrite app_nil_r, <- Hy. apply firstn_all.
  - intros Hj.
    rewrite <- app_assoc, skipn_app, Hy.
    rewrite skipn_all2 by (rewrite Hy; lia).
    replace (k * S j - k)%nat with (k * j)%nat by lia.
    simpl. now apply IH.
Qed.

End Blocks.

Section Zips.

Context {A B C D : Type}.

Lemma zip3_length_min : forall (a : list A) (b : list B) (c : list C),
  List.length (zip3 a b c)
  = Nat.min (List.length a) (Nat.min (List.length b) (List.length c)).
Proof.
  induction a as [|x a IH]; intros [|y b] [|z c]; simpl; try reflexivity.
  now rewrite IH.
Qed.

Lemma zip3_nth : forall (a : list A) (b : list B) (c : list C) j x y z,
  nth_error a j = Some x -> nth_error b j = Some y -> nth_error c j = Some z ->
  nth_error (zip3 a b c) j = Some (x, y, z).
Proof.
  induction a as [|x0 a IH]; intros [|y0 b] [|z0 c] [|j] x y z; simpl;
    try discriminate.
  - now intros [= ->] [= ->] [= ->].
  - apply IH.
Qed.

Lemma zip4_length_min : forall (a : list A) (b : list B) (c : list C)
    (d : list D),
  List.length (zip4 a b c d)
  = Nat.min (List.length a)
      (Nat.min (List.length b) (Nat.min (List.length c) (List.length d))).
Proof.
  induction a as [|x a IH]; intros [|y b] [|z c] [|t d]; simpl;
    try reflexivity.
  now rewrite IH.
Qed.

Lemma zip4_nth : forall (a : list A) (b : list B) (c : list C) (d : list D)
    j x y z t,
  nth_error a j = Some x -> nth_error b j = Some y ->
  nth_error c j = Some z -> nth_error d j = Some t ->
  nth_error (zip4 a b c d) j = Some (x, y, z, t).
Proof.
  induction a as [|x0 a IH]; intros [|y0 b] [|z0 c] [|t0 d] [|j] x y z t;
    simpl; try discriminate.
  - now intros [= ->] [= ->] [= ->] [= ->].
  - apply IH.
Qed.

End Zips.

Lemma forallb_firstn {X} (p : X -> bool) (l : list X) (j : nat) :
  forallb p l = true -> forallb p (firstn j l) = true.
Proof.
  revert j. induction l as [|x l IH]; intros [|j] H; try reflexivity.
  simpl in *. apply andb_prop in H as [Hx Hl]. rewrite Hx. now apply IH.
Qed.

Section Steps.

Context {S X : Type}.
Variable step : Z -> X -> list str * Res unit.

(** A loop whose body does what [step] says. *)
Lemma for_enumerate_steps (body : Z -> X -> M S unit) :
  (forall i x s, body i x s = mkOutcome s (fst (step i x)) (snd (step i x))) ->
  forall l i s,
    for_enumerate i l body s
    = mkOutcome s (fst (loop_steps step i l)) (snd (loop_steps step i l)).
Proof.
  intros Hbody. induction l as [|x l IH]; intros i s; [reflexivity|].
  pose proof (Hbody i x s) as Hx. simpl.
  destruct (snd (step i x)) as [[]|e].
  - rewrite (bind_ok _ _ _ _ _ _ Hx), IH. reflexivity.
  - now rewrite (bind_raise _ _ _ _ _ _ Hx).
Qed.

Variables (ready : X -> bool) (k : nat).
Hypothesis ready_returns :
  forall i x, ready x = true -> snd (step i x) = Ok tt.
Hypothesis ready_lines :
  forall i x, ready x = true -> List.length (fst (step i x)) = k.
Hypothesis ready_shown :
  forall i x, ready x = true -> displayed (fst (step i x)) = 1%nat.

Lemma loop_steps_app (l1 : list X) : forall i l2,
  forallb ready l1 = true ->
  loop_steps step i (l1 ++ l2)
  = (flat_map (step_lines step) (enumerate i l1)
     ++ fst (loop_steps step (i + Z.of_nat (List.length l1)) l2),
     snd (loop_steps step (i + Z.of_nat (List.length l1)) l2)).
Proof.
  induction l1 as [|x l1 IH]; intros i l2 H.
  - simpl. rewrite Z.add_0_r. now destruct (loop_steps step i l2).
  - simpl in H. apply andb_prop in H as [Hx Hl].
    cbn [app loop_steps]. rewrite (ready_returns i x Hx), (IH (i + 1) l2 Hl).
    cbn [fst snd enumerate flat_map List.length]. unfold step_lines at 1.
    cbn [fst snd].
    replace (i + 1 + Z.of_nat (List.length l1))
      with (i + Z.of_nat (Datatypes.S (List.length l1))) by lia.
    now rewrite <- app_assoc.
Qed.

Lemma ready_blocks (l : list X) (i : Z) :
  forallb ready l = true ->
  Forall (fun ix => List.length (step_lines step ix) = k) (enumerate i l).
Proof.
  intros H.
  apply (enumerate_forall _ (fun x => ready x = true)).
  - intros j x Hx. apply (ready_lines j x Hx).
  - apply Forall_forall. now apply forallb_forall.
Qed.

Lemma displayed_ready (l : list X) : forall i,
  forallb ready l = true ->
  displayed (flat_map (step_lines step) (enumerate i l)) = List.length l.
Proof.
  induction l as [|x l IH]; intros i H; [reflexivity|].
  simpl in H. apply andb_prop in H as [Hx Hl].
  cbn [enumerate flat_map List.length]. rewrite displayed_app, (IH _ Hl).
  unfold step_lines at 1. cbn [fst snd]. now rewrite (ready_shown i x Hx).
Qed.

(** Every record can be shown: the loop returns, having printed the lines
    of each. *)
Lemma loop_all_ready (l : list X) (i : Z) :
  forallb ready l = true ->
  loop_steps step i l = (flat_map (step_lines step) (enumerate i l), Ok tt)
  /\ List.length (fst (loop_steps step i l)) = (k * List.length l)%nat
  /\ displayed (fst (loop_steps step i l)) = List.length l.
Proof.
  intros H.
  assert (E : loop_steps step i l = (flat_map (step_lines step) (enumerate i l), Ok tt)).
  { rewrite <- (app_nil_r l) at 1. rewrite (loop_steps_app l i [] H).
    simpl. now rewrite app_nil_r. }
  rewrite E. cbn [fst]. split; [reflexivity|]. split.
  - rewrite (flat_map_blocks_length k (step_lines step) _ (ready_blocks l i H)).
    now rewrite enumerate_length.
  - now apply displayed_ready.
Qed.

(** The lines of the record at index [j], when it and those before it can
    be shown. *)
Lemma loop_block_at (l : list X) (i : Z) (j : nat) (x : X) :
  forallb ready (firstn (Datatypes.S j) l) = true ->
  nth_error l j = Some x ->
  firstn k (skipn (k * j) (fst (loop_steps step i l)))
  = fst (step (i + Z.of_nat j) x).
Proof.
  intros H Hj.
  rewrite <- (firstn_skipn (Datatypes.S j) l) at 1.
  rewrite (loop_steps_app _ i _ H). cbn [fst].
  apply (flat_map_blocks_at k (step_lines step) _ j (i + Z.of_nat j, x) _
           (ready_blocks _ i H)).
  apply enumerate_nth. rewrite nth_error_firstn.
  destruct (Nat.ltb_spec j (Datatypes.S j)); [exact Hj | lia].
Qed.

(** The loop stops at the first record that raises, after the lines of the
    records before it and what that record printed. *)
Lemma loop_stops (l : list X) (i : Z) (j : nat) (x : X) (e : Exn) :
  forallb ready (firstn j l) = true ->
  nth_error l j = Some x ->
  snd (step (i + Z.of_nat j) x) = Raise e ->
  snd (loop_steps step i l) = Raise e
  /\ skipn (k * j) (fst (loop_steps step i l)) = fst (step (i + Z.of_nat j) x)
  /\ List.length (fst (loop_steps step i l))
     = (k * j + List.length (fst (step (i + Z.of_nat j) x)))%nat
  /\ displayed (fst (loop_steps step i l))
     = (j + displayed (fst (step (i + Z.of_nat j) x)))%nat.
Proof.
  intros H Hj He.
  destruct (nth_error_split l j Hj) as (l1 & l2 & -> & Hlen).
  rewrite firstn_app, Hlen, Nat.sub_diag, <- Hlen, firstn_all in H.
  simpl in H. rewrite app_nil_r in H.
  rewrite (loop_steps_app l1 i (x :: l2) H). rewrite Hlen.
  cbn [loop_steps]. rewrite He. cbn [fst snd].
  pose proof (flat_map_blocks_length k (step_lines step) _ (ready_blocks l1 i H)) as Hk.
  rewrite enumerate_length, Hlen in Hk.
  split; [reflexivity|]. split; [|split].
  - rewrite skipn_app, Hk, Nat.sub_diag.
    rewrite skipn_all2 by lia. reflexivity.
  - now rewrite length_app, Hk.
  - now rewrite displayed_app, (displayed_ready l1 i H), Hlen.
Qed.

End Steps.

(** ** The records of [list] and of [search] *)

Section Records.

Variable rt : Runtime.

Lemma list_entry_step (i : Z) (x : str * option str * Meta) (s : Store rt) :
  list_entry rt i x s
  = mkOutcome s (fst (list_step rt i x)) (snd (list_step rt i x)).
Proof.
  destruct x as [[id doc] [d|]]; [|reflexivity].
  unfold list_entry, list_step, field_of. cbn [meta_get].
  destruct (dict_get d SESSION_ID (VStr UNKNOWN)); try reflexivity.
  destruct doc; reflexivity.
Qed.

Lemma search_entry_step (i : Z) (x : str * option str * Meta * float)
    (s : Store rt) :
  search_entry rt i x s
  = mkOutcome s (fst (search_step rt i x)) (snd (search_step rt i x)).
Proof.
  destruct x as [[[id doc] [d|]] dist]; [|reflexivity].
  destruct doc; reflexivity.
Qed.

Lemma list_ready_inv (x : str * option str * Meta) :
  list_ready x = true ->
  exists id text d session,
    x = (id, Some text, Some d) /\ field_of SESSION_ID d = VStr session.
Proof.
  destruct x as [[id [text|]] [d|]]; try discriminate. simpl.
  destruct (field_of SESSION_ID d) as [session| | |] eqn:E; try discriminate.
  intros _. now exists id, text, d, session.
Qed.

(** The three lines of a record that [list] can show. *)
Lemma list_step_ready (i : Z) (id text : str) (d : Dict) (session : str) :
  field_of SESSION_ID d = VStr session ->
  list_step rt i (id, Some text, Some d)
  = ([[NL] ++ emoji_of (field_of DOC_TYPE d) ++ u " ["
        ++ str_of_int (i + 1) ++ u "] " ++ id;
      u "   Type: " ++ str_of_value rt (field_of DOC_TYPE d)
        ++ u " | Session: " ++ slice_to 8 session ++ u "...";
      u "   Content: " ++ preview 80 text], Ok tt).
Proof. intros E. unfold list_step. rewrite E. reflexivity. Qed.

Lemma list_ready_returns (i : Z) (x : str * option str * Meta) :
  list_ready x = true -> snd (list_step rt i x) = Ok tt.
Proof.
  intros H. destruct (list_ready_inv x H) as (id & text & d & session & -> & E).
  now rewrite (list_step_ready i id text d session E).
Qed.

Lemma list_ready_lines (i : Z) (x : str * option str * Meta) :
  list_ready x = true -> List.length (fst (list_step rt i x)) = 3%nat.
Proof.
  intros H. destruct (list_ready_inv x H) as (id & text & d & session & -> & E).
  now rewrite (list_step_ready i id text d session E).
Qed.

Lemma list_ready_shown (i : Z) (x : str * option str * Meta) :
  list_ready x = true -> displayed (fst (list_step rt i x)) = 1%nat.
Proof.
  intros H. destruct (list_ready_inv x H) as (id & text & d & session & -> & E).
  rewrite (list_step_ready i id text d session E). cbn [fst].
  rewrite !displayed_cons.
  change (u "   Content: " ++ preview 80 text) with (CONTENT ++ preview 80 text).
  rewrite startswith_app. reflexivity.
Qed.

Lemma search_ready_inv (x : str * option str * Meta * float) :
  search_ready x = true ->
  exists id text d dist, x = (id, Some text, Some d, dist).
Proof.
  destruct x as [[[id [text|]] [d|]] dist]; try discriminate.
  intros _. now exists id, text, d, dist.
Qed.

(** The four lines of a result that [search] can show. *)
Lemma search_step_ready (i : Z) (id text : str) (d : Dict) (dist : float) :
  search_step rt i (id, Some text, Some d, dist)
  = ([[NL] ++ emoji_of (field_of DOC_TYPE d) ++ u " ["
        ++ str_of_int (i + 1) ++ u "] " ++ format_1f (similarity dist)
        ++ u "% match";
      u "   ID: " ++ id;
      u "   Type: " ++ str_of_value rt (field_of DOC_TYPE d);
      u "   Content: " ++ preview 100 text], Ok tt).
Proof. reflexivity. Qed.

Lemma search_ready_returns (i : Z) (x : str * option str * Meta * float) :
  search_ready x = true -> snd (search_step rt i x) = Ok tt.
Proof.
  intros H. now destruct (search_ready_inv x H) as (id & text & d & dist & ->).
Qed.

Lemma search_ready_lines (i : Z) (x : str * option str * Meta * float) :
  search_ready x = true -> List.length (fst (search_step rt i x)) = 4%nat.
Proof.
  intros H. now destruct (search_ready_inv x H) as (id & text & d & dist & ->).
Qed.

Lemma search_ready_shown (i : Z) (x : str * option str * Meta * float) :
  search_ready x = true -> displayed (fst (search_step rt i x)) = 1%nat.
Proof.
  intros H. destruct (search_ready_inv x H) as (id & text & d & dist & ->).
  rewrite search_step_ready. cbn [fst]. rewrite !displayed_cons.
  change (u "   Content: " ++ preview 100 text)
    with (CONTENT ++ preview 100 text).
  rewrite startswith_app. reflexivity.
Qed.

(** The lines of a record before its content show no document. *)
Lemma list_head_shown (a b : str) :
  displayed [[NL] ++ a; u "   Type: " ++ b] = 0%nat.
Proof. reflexivity. Qed.

Lemma search_head_shown (a b c : str) :
  displayed [[NL] ++ a; u "   ID: " ++ b; u "   Type: " ++ c] = 0%nat.
Proof. reflexivity. Qed.

End Records.

(** ** The count argument *)

Section Counts.

Variable rt : Runtime.

Lemma limit_arg_is (args : list str) (n : Z) (s : Store rt) :
  limit_is rt args n -> limit_arg rt args s = mkOutcome s [] (Ok n).
Proof.
  destruct args as [|a rest]; simpl.
  - intros ->. reflexivity.
  - intros H. unfold int. now rewrite H.
Qed.

Lemma main_list_run (argv0 : str) (args : list str) (n : Z) (s : Store rt) :
  limit_is rt args n ->
  main rt (argv0 :: u "list" :: args) s = cmd_list rt n s.
Proof.
  intros H. rewrite main_list.
  rewrite (bind_ok _ _ _ _ _ _ (limit_arg_is args n s H)). apply prepend_nil.
Qed.

Lemma main_search_run (argv0 query : str) (args : list str) (n : Z)
    (s : Store rt) :
  limit_is rt args n ->
  main rt (argv0 :: u "search" :: query :: args) s = cmd_search rt query n s.
Proof.
  intros H. rewrite main_search.
  rewrite (bind_ok _ _ _ _ _ _ (limit_arg_is args n s H)). apply prepend_nil.
Qed.

End Counts.

(** ** [list] *)

Section List.

Variable rt : Runtime.
Variables (s s1 s2 : Store rt) (client : Client rt) (c : Collection rt).

Hypothesis client_opened :
  chroma_PersistentClient rt (VECTOR_DB_DIR rt) s = (s1, Ok client).
Hypothesis collection_found :
  chroma_get_collection rt client COLLECTION_NAME s1 = (s2, Ok c).

Lemma cmd_list_none (n : Z) (s3 : Store rt) :
  chroma_count rt c s2 = (s3, Ok 0) ->
  cmd_list rt n s
  = mkOutcome s3 (list_heading (Z.min n 0) 0 ++ [NO_DOCUMENTS]) (Ok tt).
Proof.
  intros Hcount. unfold cmd_list.
  rewrite (found_continues rt s s1 s2 client client_opened _ c collection_found).
  rewrite (bind_ok _ _ _ _ _ _ (call_eq _ _ _ _ Hcount)), prepend_nil.
  reflexivity.
Qed.

Lemma cmd_list_count_raises (n : Z) (s3 : Store rt) (e : Exn) :
  chroma_count rt c s2 = (s3, Raise e) ->
  cmd_list rt n s = mkOutcome s3 [] (Raise e).
Proof.
  intros Hcount. unfold cmd_list.
  rewrite (found_continues rt s s1 s2 client client_opened _ c collection_found).
  now rewrite (bind_raise _ _ _ _ _ _ (call_eq _ _ _ _ Hcount)).
Qed.

Lemma cmd_list_peek_raises (n count : Z) (s3 s4 : Store rt) (e : Exn) :
  chroma_count rt c s2 = (s3, Ok count) ->
  count <> 0 ->
  chroma_peek rt c (Z.min n count) s3 = (s4, Raise e) ->
  cmd_list rt n s
  = mkOutcome s4 (list_heading (Z.min n count) count) (Raise e).
Proof.
  intros Hcount Hsome Hpeek. unfold cmd_list.
  rewrite (found_continues rt s s1 s2 client client_opened _ c collection_found).
  rewrite (bind_ok _ _ _ _ _ _ (call_eq _ _ _ _ Hcount)), prepend_nil.
  cbv zeta. rewrite !bind_print.
  destruct (Z.eqb_spec count 0) as [E|_]; [contradiction|].
  rewrite (bind_raise _ _ _ _ _ _ (call_eq _ _ _ _ Hpeek)).
  reflexivity.
Qed.

Lemma cmd_list_run (n count : Z) (s3 s4 : Store rt) (result : GetResult) :
  chroma_count rt c s2 = (s3, Ok count) ->
  count <> 0 ->
  chroma_peek rt c (Z.min n count) s3 = (s4, Ok result) ->
  let records := zip3 (ids result) (documents result) (metadatas result) in
  cmd_list rt n s
  = mkOutcome s4
      (list_heading (Z.min n count) count
       ++ fst (loop_steps (list_step rt) 0 records))
      (snd (loop_steps (list_step rt) 0 records)).
Proof.
  intros Hcount Hsome Hpeek records. unfold cmd_list.
  rewrite (found_continues rt s s1 s2 client client_opened _ c collection_found).
  rewrite (bind_ok _ _ _ _ _ _ (call_eq _ _ _ _ Hcount)), prepend_nil.
  cbv zeta. rewrite !bind_print.
  destruct (Z.eqb_spec count 0) as [E|_]; [contradiction|].
  rewrite (bind_ok _ _ _ _ _ _ (call_eq _ _ _ _ Hpeek)), prepend_nil.
  rewrite (for_enumerate_steps (list_step rt) _ (list_entry_step rt)).
  reflexivity.
Qed.

End List.

(** C2, the code at the failing input.  A limit below 0 is not clamped:
    on a collection that has documents, [min(n, count)] is [n] itself, the
    heading reports it, and it is [n] that is handed to [peek].  When the
    client refuses it, the exception ends [list] after the heading: no
    document is displayed. *)
Theorem list_negative_limit_raises (rt : Runtime) (s s1 s2 s3 s4 : Store rt)
    (client : Client rt) (c : Collection rt) (count : Z)
    (argv0 arg : str) (rest : list str) (n : Z) (e : Exn) :
  chroma_PersistentClient rt (VECTOR_DB_DIR rt) s = (s1, Ok client) ->
  chroma_get_collection rt client COLLECTION_NAME s1 = (s2, Ok c) ->
  chroma_count rt c s2 = (s3, Ok count) ->
  0 < count ->
  int_ rt arg = inl n ->
  n < 0 ->
  chroma_peek rt c n s3 = (s4, Raise e) ->
  let o := main rt (argv0 :: u "list" :: arg :: rest) s in
  o = mkOutcome s4 [RULE; list_header n count; RULE] (Raise e) /\
  displayed (stdout_of o) = 0%nat /\
  (is_Exception e = true -> exit_status (result_of o) = 1).
Proof.
  intros Hopen Hfound Hcount Hsome Harg Hneg Hpeek o.
  assert (Hmin : Z.min n count = n) by lia.
  assert (Hrun : o = mkOutcome s4 [RULE; list_header n count; RULE] (Raise e)).
  { unfold o. rewrite (main_list_run rt argv0 (arg :: rest) n s Harg).
    rewrite <- Hmin at 2.
    apply (cmd_list_peek_raises rt s s1 s2 client c Hopen Hfound n count s3 s4 e
             Hcount); [lia | now rewrite Hmin]. }
  rewrite Hrun. split; [reflexivity|]. split; [reflexivity|].
  destruct e; [discriminate | reflexivity].
Qed.

Lemma list_negative_limit_raises_witness :
  Mem.run [u "list"; u "-1"] Mem.three
  = mkOutcome Mem.three [RULE; u "📄 Documents (showing -1 of 3)"; RULE]
      (Raise Mem.NEGATIVE_LIMIT) /\
  exit_status (result_of (Mem.run [u "list"; u "-1"] Mem.three)) = 1.
Proof.
  destruct (list_negative_limit_raises Mem.runtime Mem.three Mem.three
              Mem.three Mem.three Mem.three tt (Mem.first_coll Mem.three) 3
              (u "chroma-cli.py") (u "-1") [] (-1) Mem.NEGATIVE_LIMIT)
    as (Hrun & _ & Hexit);
    [reflexivity | reflexivity | reflexivity | lia | vm_compute; reflexivity
    | lia | reflexivity |].
  split; [|exact (Hexit eq_refl)].
  etransitivity; [exact Hrun | vm_compute; reflexivity].
Defined.

(** * Further properties of the script *)
(** ** Failures of the client *)

Section ClientFails.

Variable rt : Runtime.
Variables (s s1 : Store rt) (e : Exn).

Hypothesis client_failed :
  chroma_PersistentClient rt (VECTOR_DB_DIR rt) s = (s1, Raise e).

Lemma get_client_raises {A} (k : Client rt -> Prog rt A) :
  (client <- get_client rt ;; k client) s = mkOutcome s1 [] (Raise e).
Proof. apply bind_raise, call_eq, client_failed. Qed.

End ClientFails.

(** X1.  When the client cannot be opened, no command handles the
    exception: [status], [list], [search] and [types] end with it, having
    printed nothing, and the process ends with status 1 when it is an
    [Exception]. *)
Theorem client_failure_ends_command (rt : Runtime) (s s1 : Store rt)
    (e : Exn) (argv0 : str) :
  chroma_PersistentClient rt (VECTOR_DB_DIR rt) s = (s1, Raise e) ->
  let failed : Outcome (Store rt) unit := mkOutcome s1 [] (Raise e) in
  (forall args, main rt (argv0 :: u "status" :: args) s = failed) /\
  (forall args n, limit_is rt args n ->
     main rt (argv0 :: u "list" :: args) s = failed) /\
  (forall query args n, limit_is rt args n ->
     main rt (argv0 :: u "search" :: query :: args) s = failed) /\
  (forall args, main rt (argv0 :: u "types" :: args) s = failed) /\
  (is_Exception e = true -> exit_status (result_of failed) = 1).
Proof.
  intros Hopen failed. split; [|split; [|split; [|split]]].
  - intros args. rewrite main_status.
    apply (get_client_raises rt s s1 e Hopen).
  - intros args n Hn. rewrite (main_list_run rt argv0 args n s Hn).
    apply (get_client_raises rt s s1 e Hopen).
  - intros query args n Hn.
    rewrite (main_search_run rt argv0 query args n s Hn).
    apply (get_client_raises rt s s1 e Hopen).
  - intros args. rewrite main_types.
    apply (get_client_raises rt s s1 e Hopen).
  - destruct e; [discriminate | reflexivity].
Qed.

Lemma client_failure_ends_command_witness :
  Faulty.run Faulty.locked [u "status"] Mem.three
    = mkOutcome Mem.three [] (Raise Faulty.UNAVAILABLE) /\
  Faulty.run Faulty.locked [u "search"; u "hello"; u "5"] Mem.three
    = mkOutcome Mem.three [] (Raise Faulty.UNAVAILABLE).
Proof.
  destruct (client_failure_ends_command (Faulty.runtime Faulty.locked) Mem.three
              Mem.three Faulty.UNAVAILABLE (u "chroma-cli.py") eq_refl)
    as (Hstatus & _ & Hsearch & _).
  split; [exact (Hstatus []) | apply (Hsearch (u "hello") [u "5"] 5)].
  vm_compute. reflexivity.
Defined.

(** X2.  The count that [list] and [search] work with is [int()] of the
    argument after the command's own, and 10 when there is none: [main]
    runs the handler with that count.  What follows the count on the
    command line is ignored, so two command lines that give the same
    count run alike. *)
Theorem count_argument (rt : Runtime) (argv0 : str) (args : list str)
    (n : Z) (s : Store rt) :
  limit_is rt args n ->
  main rt (argv0 :: u "list" :: args) s = cmd_list rt n s /\
  (forall query,
     main rt (argv0 :: u "search" :: query :: args) s
       = cmd_search rt query n s) /\
  (forall args', limit_is rt args' n ->
     main rt (argv0 :: u "list" :: args) s
       = main rt (argv0 :: u "list" :: args') s /\
     (forall query,
        main rt (argv0 :: u "search" :: query :: args) s
          = main rt (argv0 :: u "search" :: query :: args') s)).
Proof.
  intros H. split; [|split].
  - apply (main_list_run rt argv0 args n s H).
  - intros query. apply (main_search_run rt argv0 query args n s H).
  - intros args' H'. split; [|intros query].
    + now rewrite (main_list_run rt argv0 args n s H),
                  (main_list_run rt argv0 args' n s H').
    + now rewrite (main_search_run rt argv0 query args n s H),
                  (main_search_run rt argv0 query args' n s H').
Qed.

Lemma count_argument_witness :
  Mem.run [u "list"] Mem.three = cmd_list Mem.runtime 10 Mem.three /\
  Mem.run [u "list"; u "2"; u "more"] Mem.three
    = cmd_list Mem.runtime 2 Mem.three /\
  Mem.run [u "search"; u "hello"; u " 7 "] Mem.three
    = cmd_search Mem.runtime (u "hello") 7 Mem.three /\
  Mem.run [u "list"] Mem.three
    = Mem.run [u "list"; u "10"; u "more"] Mem.three.
Proof.
  split; [|split; [|split]].
  - destruct (count_argument Mem.runtime (u "chroma-cli.py") [] 10 Mem.three)
      as [H _]; [reflexivity | exact H].
  - destruct (count_argument Mem.runtime (u "chroma-cli.py")
                [u "2"; u "more"] 2 Mem.three) as [H _];
      [vm_compute; reflexivity | exact H].
  - destruct (count_argument Mem.runtime (u "chroma-cli.py") [u " 7 "] 7
                Mem.three) as (_ & H & _);
      [vm_compute; reflexivity | exact (H (u "hello"))].
  - destruct (count_argument Mem.runtime (u "chroma-cli.py") [] 10 Mem.three)
      as (_ & _ & H); [reflexivity|].
    destruct (H [u "10"; u "more"]) as [Hlist _];
      [vm_compute; reflexivity | exact Hlist].
Defined.

(** ** [search] *)

Section Search.

Variable rt : Runtime.
Variables (s s1 s2 : Store rt) (client : Client rt) (c : Collection rt).

Hypothesis client_opened :
  chroma_PersistentClient rt (VECTOR_DB_DIR rt) s = (s1, Ok client).
Hypothesis collection_found :
  chroma_get_collection rt client COLLECTION_NAME s1 = (s2, Ok c).

(** [search] up to the answer of the query. *)
Lemma cmd_search_query (query : str) (n : Z) :
  cmd_search rt query n s
  = prepend (search_heading query)
      ((result <- call (chroma_query rt c [query] n) ;;
        ids0 <- index0 (q_ids result) ;;
        match ids0 with
        | [] => print NO_RESULTS
        | _ :: _ =>
          ids0 <- index0 (q_ids result) ;;
          documents0 <- index0 (q_documents result) ;;
          metadatas0 <- index0 (q_metadatas result) ;;
          distances0 <- index0 (q_distances result) ;;
          for_enumerate 0 (zip4 ids0 documents0 metadatas0 distances0)
            (search_entry rt)
        end) s2).
Proof.
  unfold cmd_search.
  rewrite (found_continues rt s s1 s2 client client_opened _ c collection_found).
  rewrite !bind_print. unfold prepend, search_heading. reflexivity.
Qed.

Lemma cmd_search_query_raises (query : str) (n : Z) (s3 : Store rt) (e : Exn) :
  chroma_query rt c [query] n s2 = (s3, Raise e) ->
  cmd_search rt query n s = mkOutcome s3 (search_heading query) (Raise e).
Proof.
  intros Hquery. rewrite cmd_search_query.
  rewrite (bind_raise _ _ _ _ _ _ (call_eq _ _ _ _ Hquery)).
  reflexivity.
Qed.

Variables (query : str) (n : Z) (s3 : Store rt) (result : QueryResult).

Hypothesis answered : chroma_query rt c [query] n s2 = (s3, Ok result).

Lemma cmd_search_answered :
  cmd_search rt query n s
  = prepend (search_heading query)
      ((ids0 <- index0 (q_ids result) ;;
        match ids0 with
        | [] => print NO_RESULTS
        | _ :: _ =>
          ids0 <- index0 (q_ids result) ;;
          documents0 <- index0 (q_documents result) ;;
          metadatas0 <- index0 (q_metadatas result) ;;
          distances0 <- index0 (q_distances result) ;;
          for_enumerate 0 (zip4 ids0 documents0 metadatas0 distances0)
            (search_entry rt)
        end) s3).
Proof.
  rewrite cmd_search_query.
  now rewrite (bind_ok _ _ _ _ _ _ (call_eq _ _ _ _ answered)), prepend_nil.
Qed.

Lemma cmd_search_none (rest : list (list str)) :
  q_ids result = [] :: rest ->
  cmd_search rt query n s
  = mkOutcome s3 (search_heading query ++ [NO_RESULTS]) (Ok tt).
Proof. intros H. rewrite cmd_search_answered, H. reflexivity. Qed.

Lemma cmd_search_no_lists :
  q_ids result = [] ->
  cmd_search rt query n s
  = mkOutcome s3 (search_heading query) (Raise INDEX_ERROR).
Proof. intros H. rewrite cmd_search_answered, H. reflexivity. Qed.

Lemma cmd_search_missing (id : str) (ids0 : list str) (rest : list (list str)) :
  q_ids result = (id :: ids0) :: rest ->
  q_documents result = [] \/ q_metadatas result = []
    \/ q_distances result = [] ->
  cmd_search rt query n s
  = mkOutcome s3 (search_heading query) (Raise INDEX_ERROR).
Proof.
  intros H Hmissing. rewrite cmd_search_answered, H.
  destruct (q_documents result) as [|docs0 r2]; [reflexivity|].
  destruct (q_metadatas result) as [|metas0 r3]; [reflexivity|].
  destruct (q_distances result) as [|dists0 r4]; [reflexivity|].
  destruct Hmissing as [?|[?|?]]; discriminate.
Qed.

Lemma cmd_search_some (id : str) (ids0 : list str)
    (docs0 : list (option str)) (metas0 : list Meta) (dists0 : list float)
    (r1 : list (list str)) (r2 : list (list (option str)))
    (r3 : list (list Meta)) (r4 : list (list float)) :
  q_ids result = (id :: ids0) :: r1 ->
  q_documents result = docs0 :: r2 ->
  q_metadatas result = metas0 :: r3 ->
  q_distances result = dists0 :: r4 ->
  let records := zip4 (id :: ids0) docs0 metas0 dists0 in
  cmd_search rt query n s
  = mkOutcome s3
      (search_heading query ++ fst (loop_steps (search_step rt) 0 records))
      (snd (loop_steps (search_step rt) 0 records)).
Proof.
  intros H1 H2 H3 H4 records. rewrite cmd_search_answered, H1, H2, H3, H4.
  unfold index0. rewrite !bind_ret.
  rewrite (for_enumerate_steps (search_step rt) _ (search_entry_step rt)).
  reflexivity.
Qed.

End Search.

(** X3.  [list] shows the records in the order [peek] returned them, as
    many as the shortest of the three lists of the answer has.  A record
    that has text, metadata and a string as session id gets three lines,
    numbered from 1: the number and the id, the type with the first 8
    characters of the session id, always followed by the ellipsis, and
    the preview of the content.  When every record is such, [list]
    returns.  It stops at the first record that is not, with the
    exception that record raises: an AttributeError before any of its
    lines when it has no metadata, a TypeError before any of its lines
    when its session id is not a string, a TypeError after its first two
    lines when it has no text. *)
Theorem list_numbers_documents (rt : Runtime) (s s1 s2 s3 s4 : Store rt)
    (client : Client rt) (c : Collection rt) (argv0 : str)
    (args : list str) (n count : Z) (result : GetResult) :
  chroma_PersistentClient rt (VECTOR_DB_DIR rt) s = (s1, Ok client) ->
  chroma_get_collection rt client COLLECTION_NAME s1 = (s2, Ok c) ->
  limit_is rt args n ->
  chroma_count rt c s2 = (s3, Ok count) ->
  count <> 0 ->
  chroma_peek rt c (Z.min n count) s3 = (s4, Ok result) ->
  let o := main rt (argv0 :: u "list" :: args) s in
  let records := zip3 (ids result) (documents result) (metadatas result) in
  let shown :=
    Nat.min (List.length (ids result))
      (Nat.min (List.length (documents result))
               (List.length (metadatas result))) in
  firstn 3 (stdout_of o) = [RULE; list_header (Z.min n count) count; RULE] /\
  (forall j id text d session,
     forallb list_ready (firstn (Datatypes.S j) records) = true ->
     nth_error (ids result) j = Some id ->
     nth_error (documents result) j = Some (Some text) ->
     nth_error (metadatas result) j = Some (Some d) ->
     dict_get d SESSION_ID (VStr UNKNOWN) = VStr session ->
     firstn 3 (skipn (3 + 3 * j) (stdout_of o))
     = [[NL] ++ emoji_of (dict_get d DOC_TYPE (VStr UNKNOWN)) ++ u " ["
          ++ str_of_int (Z.of_nat j + 1) ++ u "] " ++ id;
        u "   Type: " ++ str_of_value rt (dict_get d DOC_TYPE (VStr UNKNOWN))
          ++ u " | Session: " ++ slice_to 8 session ++ u "...";
        u "   Content: " ++ preview 80 text]) /\
  (forallb list_ready records = true ->
     result_of o = Ok tt /\
     List.length (stdout_of o) = (3 + 3 * shown)%nat /\
     displayed (stdout_of o) = shown) /\
  (forall j id doc,
     forallb list_ready (firstn j records) = true ->
     nth_error records j = Some (id, doc, None) ->
     result_of o = Raise NO_GET /\
     List.length (stdout_of o) = (3 + 3 * j)%nat /\
     displayed (stdout_of o) = j) /\
  (forall j id doc d,
     forallb list_ready (firstn j records) = true ->
     nth_error records j = Some (id, doc, Some d) ->
     is_str (dict_get d SESSION_ID (VStr UNKNOWN)) = false ->
     result_of o
     = Raise (not_subscriptable
                (type_name (dict_get d SESSION_ID (VStr UNKNOWN)))) /\
     List.length (stdout_of o) = (3 + 3 * j)%nat /\
     displayed (stdout_of o) = j) /\
  (forall j id d session,
     forallb list_ready (firstn j records) = true ->
     nth_error records j = Some (id, None, Some d) ->
     dict_get d SESSION_ID (VStr UNKNOWN) = VStr session ->
     result_of o = Raise (not_subscriptable NONE_TYPE) /\
     skipn (3 + 3 * j) (stdout_of o)
     = [[NL] ++ emoji_of (dict_get d DOC_TYPE (VStr UNKNOWN)) ++ u " ["
          ++ str_of_int (Z.of_nat j + 1) ++ u "] " ++ id;
        u "   Type: " ++ str_of_value rt (dict_get d DOC_TYPE (VStr UNKNOWN))
          ++ u " | Session: " ++ slice_to 8 session ++ u "..."] /\
     displayed (stdout_of o) = j).
Proof.
  intros Hopen Hfound Hn Hcount Hsome Hpeek o records shown.
  assert (Hrun : o = mkOutcome s4
            (list_heading (Z.min n count) count
             ++ fst (loop_steps (list_step rt) 0 records))
            (snd (loop_steps (list_step rt) 0 records))).
  { unfold o. rewrite (main_list_run rt argv0 args n s Hn).
    apply (cmd_list_run rt s s1 s2 client c Hopen Hfound n count s3 s4 result
             Hcount Hsome Hpeek). }
  assert (Hstop : forall j x e,
            forallb list_ready (firstn j records) = true ->
            nth_error records j = Some x ->
            snd (list_step rt (Z.of_nat j) x) = Raise e ->
            result_of o = Raise e
            /\ skipn (3 + 3 * j) (stdout_of o) = fst (list_step rt (Z.of_nat j) x)
            /\ List.length (stdout_of o)
               = (3 + 3 * j + List.length (fst (list_step rt (Z.of_nat j) x)))%nat
            /\ displayed (stdout_of o)
               = (j + displayed (fst (list_step rt (Z.of_nat j) x)))%nat).
  { intros j x e Hready Hj He.
    destruct (loop_stops (list_step rt) list_ready 3 (list_ready_returns rt)
                (list_ready_lines rt) (list_ready_shown rt) records 0 j x e
                Hready Hj He) as (Hres & Hskip & Hlen & Hshown).
    rewrite Hrun. cbn [result_of stdout_of].
    split; [exact Hres|]. split; [exact Hskip|]. split.
    - rewrite length_app, Hlen. simpl List.length. lia.
    - rewrite displayed_app, Hshown. reflexivity. }
  split; [|split; [|split; [|split; [|split]]]].
  - rewrite Hrun. reflexivity.
  - intros j id text d session Hready Hid Hdoc Hmeta Hsession.
    rewrite Hrun. cbn [stdout_of].
    change (skipn (3 + 3 * j) (list_heading (Z.min n count) count ++ ?body))
      with (skipn (3 * j) body).
    rewrite (loop_block_at (list_step rt) list_ready 3 (list_ready_returns rt)
               (list_ready_lines rt) records 0 j (id, Some text, Some d)
               Hready (zip3_nth _ _ _ j _ _ _ Hid Hdoc Hmeta)).
    now rewrite (list_step_ready rt _ id text d session Hsession).
  - intros Hready.
    destruct (loop_all_ready (list_step rt) list_ready 3 (list_ready_returns rt)
                (list_ready_lines rt) (list_ready_shown rt) records 0 Hready)
      as (Hloop & Hlen & Hshown).
    rewrite Hrun. cbn [result_of stdout_of].
    split; [now rewrite Hloop|]. split.
    + rewrite length_app, Hlen. unfold records.
      rewrite zip3_length_min. reflexivity.
    + rewrite displayed_app, Hshown. unfold records.
      rewrite zip3_length_min. reflexivity.
  - intros j id doc Hready Hj.
    destruct (Hstop j (id, doc, None) NO_GET Hready Hj eq_refl)
      as (Hres & _ & Hlen & Hshown).
    split; [exact Hres|]. split; [rewrite Hlen | rewrite Hshown];
      unfold displayed; simpl; lia.
  - intros j id doc d Hother Hj Hsession.
    assert (Hstep : list_step rt (Z.of_nat j) (id, doc, Some d)
                    = ([], Raise (not_subscriptable
                         (type_name (dict_get d SESSION_ID (VStr UNKNOWN)))))).
    { unfold list_step, field_of.
      destruct (dict_get d SESSION_ID (VStr UNKNOWN)); [discriminate | ..];
        reflexivity. }
    destruct (Hstop j (id, doc, Some d) _ Hother Hj
                (f_equal snd Hstep)) as (Hres & _ & Hlen & Hshown).
    rewrite Hstep in Hlen, Hshown.
    split; [exact Hres|]. split; [rewrite Hlen | rewrite Hshown];
      unfold displayed; simpl; lia.
  - intros j id d session Hready Hj Hsession.
    assert (Hstep : list_step rt (Z.of_nat j) (id, None, Some d)
              = ([[NL] ++ emoji_of (dict_get d DOC_TYPE (VStr UNKNOWN))
                    ++ u " [" ++ str_of_int (Z.of_nat j + 1) ++ u "] " ++ id;
                  u "   Type: "
                    ++ str_of_value rt (dict_get d DOC_TYPE (VStr UNKNOWN))
                    ++ u " | Session: " ++ slice_to 8 session ++ u "..."],
                 Raise (not_subscriptable NONE_TYPE))).
    { unfold list_step, field_of. rewrite Hsession. reflexivity. }
    destruct (Hstop j (id, None, Some d) _ Hready Hj (f_equal snd Hstep))
      as (Hres & Hskip & _ & Hshown).
    rewrite Hstep in Hskip, Hshown.
    split; [exact Hres|]. split; [exact Hskip|].
    rewrite Hshown. cbn [fst]. rewrite list_head_shown. lia.
Qed.

Lemma list_numbers_documents_witness :
  result_of (Mem.run [u "list"; u "2"] Mem.three) = Ok tt /\
  List.length (stdout_of (Mem.run [u "list"; u "2"] Mem.three)) = 9%nat /\
  firstn 3 (skipn 6 (stdout_of (Mem.run [u "list"; u "2"] Mem.three)))
  = [[NL] ++ u "💬 [2] r1"; u "   Type: response | Session: s-1...";
     u "   Content: hi there"] /\
  result_of (Mem.run [u "list"] Mem.unlabelled) = Raise NO_GET /\
  List.length (stdout_of (Mem.run [u "list"] Mem.unlabelled)) = 6%nat /\
  result_of (Mem.run [u "list"] Mem.numbered)
  = Raise (not_subscriptable (u "int")).
Proof.
  destruct (list_numbers_documents Mem.runtime Mem.three Mem.three Mem.three
              Mem.three Mem.three tt (Mem.first_coll Mem.three)
              (u "chroma-cli.py") [u "2"] 2 3
              {| ids := [u "p1"; u "r1"];
                 documents := [Some (u "hello"); Some (u "hi there")];
                 metadatas :=
                   [Some [(DOC_TYPE, VStr (u "prompt"));
                          (SESSION_ID, VStr (u "s-1"))];
                    Some [(DOC_TYPE, VStr (u "response"));
                          (SESSION_ID, VStr (u "s-1"))]] |})
    as (_ & Hlines & Hall & _);
    [reflexivity | reflexivity | vm_compute; reflexivity | reflexivity
    | discriminate | reflexivity |].
  destruct Hall as (Hok & Hlen & _); [reflexivity|].
  destruct (list_numbers_documents Mem.runtime Mem.unlabelled Mem.unlabelled
              Mem.unlabelled Mem.unlabelled Mem.unlabelled tt
              (Mem.first_coll Mem.unlabelled)
              (u "chroma-cli.py") [] 10 2
              {| ids := [u "p1"; u "n1"];
                 documents := [Some (u "hello"); Some (u "a note")];
                 metadatas :=
                   [Some [(DOC_TYPE, VStr (u "prompt"));
                          (SESSION_ID, VStr (u "s-1"))];
                    None] |})
    as (_ & _ & _ & Hnone & _);
    [reflexivity | reflexivity | reflexivity | reflexivity
    | discriminate | reflexivity |].
  destruct (Hnone 1%nat (u "n1") (Some (u "a note")) eq_refl eq_refl)
    as (Hraise & Hlen2 & _).
  destruct (list_numbers_documents Mem.runtime Mem.numbered Mem.numbered
              Mem.numbered Mem.numbered Mem.numbered tt
              (Mem.first_coll Mem.numbered)
              (u "chroma-cli.py") [] 10 1
              {| ids := [u "a"];
                 documents := [Some (u "one")];
                 metadatas :=
                   [Some [(DOC_TYPE, VStr (u "prompt"));
                          (SESSION_ID, VInt 7)]] |})
    as (_ & _ & _ & _ & Hint & _);
    [reflexivity | reflexivity | reflexivity | reflexivity
    | discriminate | reflexivity |].
  destruct (Hint 0%nat (u "a") (Some (u "one")) _ eq_refl eq_refl eq_refl)
    as (Hraise2 & _).
  split; [exact Hok|]. split; [exact Hlen|]. split.
  - etransitivity;
      [exact (Hlines 1%nat (u "r1") (u "hi there")
                [(DOC_TYPE, VStr (u "response")); (SESSION_ID, VStr (u "s-1"))]
                (u "s-1") eq_refl eq_refl eq_refl eq_refl eq_refl)
      | vm_compute; reflexivity].
  - split; [exact Hraise|]. split; [exact Hlen2 | exact Hraise2].
Defined.

(** X17.  For every [n >= 0], so for [n = 0] and for every [n] above the
    count, [list n] shows exactly [min(n, count)] documents and returns:
    so it is when [peek] answers with as many records as it is asked for
    and each of them has text, metadata and a string as session id. *)
Theorem list_shows_min (rt : Runtime) (s s1 s2 s3 s4 : Store rt)
    (client : Client rt) (c : Collection rt) (argv0 : str)
    (args : list str) (n count : Z) (result : GetResult) :
  chroma_PersistentClient rt (VECTOR_DB_DIR rt) s = (s1, Ok client) ->
  chroma_get_collection rt client COLLECTION_NAME s1 = (s2, Ok c) ->
  limit_is rt args n ->
  chroma_count rt c s2 = (s3, Ok count) ->
  0 < count ->
  0 <= n ->
  chroma_peek rt c (Z.min n count) s3 = (s4, Ok result) ->
  returns_records result (Z.min n count) ->
  forallb list_ready
    (zip3 (ids result) (documents result) (metadatas result)) = true ->
  let o := main rt (argv0 :: u "list" :: args) s in
  result_of o = Ok tt /\
  Z.of_nat (displayed (stdout_of o)) = Z.min n count /\
  nth_error (stdout_of o) 1 = Some (list_header (Z.min n count) count).
Proof.
  intros Hopen Hfound Hn Hcount Hsome Hnonneg Hpeek (Hids & Hdocs & Hmetas)
    Hready o.
  assert (Hrun : o = mkOutcome s4
            (list_heading (Z.min n count) count
             ++ fst (loop_steps (list_step rt) 0
                       (zip3 (ids result) (documents result)
                             (metadatas result))))
            (snd (loop_steps (list_step rt) 0
                    (zip3 (ids result) (documents result)
                          (metadatas result))))).
  { unfold o. rewrite (main_list_run rt argv0 args n s Hn).
    apply (cmd_list_run rt s s1 s2 client c Hopen Hfound n count s3 s4 result
             Hcount); [lia | exact Hpeek]. }
  destruct (loop_all_ready (list_step rt) list_ready 3 (list_ready_returns rt)
              (list_ready_lines rt) (list_ready_shown rt) _ 0 Hready)
    as (Hloop & _ & Hshown).
  rewrite Hrun. cbn [result_of stdout_of].
  split; [now rewrite Hloop|]. split; [|reflexivity].
  rewrite displayed_app, Hshown, zip3_length_min, Hids, Hdocs, Hmetas.
  rewrite !Nat.min_id. simpl. lia.
Qed.

Lemma list_shows_min_witness :
  Z.of_nat (displayed (stdout_of (Mem.run [u "list"; u "7"] Mem.three))) = 3 /\
  Z.of_nat (displayed (stdout_of (Mem.run [u "list"; u "0"] Mem.three))) = 0.
Proof.
  split.
  - destruct (list_shows_min Mem.runtime Mem.three Mem.three Mem.three
                Mem.three Mem.three tt (Mem.first_coll Mem.three)
                (u "chroma-cli.py") [u "7"] 7 3
                {| ids := map Mem.d_id (Mem.c_docs (Mem.first_coll Mem.three));
                   documents :=
                     map Mem.d_text (Mem.c_docs (Mem.first_coll Mem.three));
                   metadatas :=
                     map Mem.d_meta (Mem.c_docs (Mem.first_coll Mem.three)) |})
      as (_ & Hshown & _);
      [reflexivity | reflexivity | vm_compute; reflexivity | reflexivity
      | lia | lia | reflexivity | repeat split | reflexivity | exact Hshown].
  - destruct (list_shows_min Mem.runtime Mem.three Mem.three Mem.three
                Mem.three Mem.three tt (Mem.first_coll Mem.three)
                (u "chroma-cli.py") [u "0"] 0 3
                {| ids := []; documents := []; metadatas := [] |})
      as (_ & Hshown & _);
      [reflexivity | reflexivity | vm_compute; reflexivity | reflexivity
      | lia | lia | reflexivity | repeat split | reflexivity | exact Hshown].
Defined.
(** X4.  When the query answers with an empty list of ids, [search]
    prints its heading and the line [(no results)] and returns, with exit
    status 0; the other lists of the answer are not looked at. *)
Theorem search_no_results (rt : Runtime) (s s1 s2 s3 : Store rt)
    (client : Client rt) (c : Collection rt) (argv0 query : str)
    (args : list str) (n : Z) (result : QueryResult)
    (rest : list (list str)) :
  chroma_PersistentClient rt (VECTOR_DB_DIR rt) s = (s1, Ok client) ->
  chroma_get_collection rt client COLLECTION_NAME s1 = (s2, Ok c) ->
  limit_is rt args n ->
  chroma_query rt c [query] n s2 = (s3, Ok result) ->
  q_ids result = [] :: rest ->
  let o := main rt (argv0 :: u "search" :: query :: args) s in
  o = mkOutcome s3 [RULE; search_header query; RULE; NO_RESULTS] (Ok tt) /\
  exit_status (result_of o) = 0.
Proof.
  intros Hopen Hfound Hn Hquery Hids o. unfold o.
  rewrite (main_search_run rt argv0 query args n s Hn).
  rewrite (cmd_search_none rt s s1 s2 client c Hopen Hfound query n s3 result
             Hquery rest Hids).
  split; reflexivity.
Qed.

Lemma search_no_results_witness :
  Mem.run [u "search"; u "hello"; u "5"] [Mem.coll []]
  = mkOutcome [Mem.coll []]
      [RULE; search_header (u "hello"); RULE; NO_RESULTS] (Ok tt).
Proof.
  destruct (search_no_results Mem.runtime [Mem.coll []] [Mem.coll []]
              [Mem.coll []] [Mem.coll []] tt (Mem.coll [])
              (u "chroma-cli.py") (u "hello") [u "5"] 5
              {| q_ids := [[]]; q_documents := [[]]; q_metadatas := [[]];
                 q_distances := [[]] |} [])
    as [Hrun _];
    [reflexivity | reflexivity | vm_compute; reflexivity | reflexivity
    | reflexivity | exact Hrun].
Defined.

(** X5.  [search] shows the results in the order of the answer, as many
    as the shortest of the four lists of the answer has.  A result that
    has text and metadata gets four lines, ranked from 1: the rank with
    the similarity of the distance, the id, the type and the preview of
    the content.  When every result is such, [search] returns.  It stops
    at the first result that is not, with the exception that result
    raises: an AttributeError before any of its lines when it has no
    metadata, a TypeError after its first three lines when it has no
    text. *)
Theorem search_ranks_results (rt : Runtime) (s s1 s2 s3 : Store rt)
    (client : Client rt) (c : Collection rt) (argv0 query : str)
    (args : list str) (n : Z) (result : QueryResult)
    (ids0 : list str) (docs0 : list (option str)) (metas0 : list Meta)
    (dists0 : list float)
    (r1 : list (list str)) (r2 : list (list (option str)))
    (r3 : list (list Meta)) (r4 : list (list float)) :
  chroma_PersistentClient rt (VECTOR_DB_DIR rt) s = (s1, Ok client) ->
  chroma_get_collection rt client COLLECTION_NAME s1 = (s2, Ok c) ->
  limit_is rt args n ->
  chroma_query rt c [query] n s2 = (s3, Ok result) ->
  q_ids result = ids0 :: r1 ->
  ids0 <> [] ->
  q_documents result = docs0 :: r2 ->
  q_metadatas result = metas0 :: r3 ->
  q_distances result = dists0 :: r4 ->
  let o := main rt (argv0 :: u "search" :: query :: args) s in
  let records := zip4 ids0 docs0 metas0 dists0 in
  let shown :=
    Nat.min (List.length ids0)
      (Nat.min (List.length docs0)
         (Nat.min (List.length metas0) (List.length dists0))) in
  firstn 3 (stdout_of o) = [RULE; search_header query; RULE] /\
  (forall j id text d dist,
     forallb search_ready (firstn (Datatypes.S j) records) = true ->
     nth_error ids0 j = Some id -> nth_error docs0 j = Some (Some text) ->
     nth_error metas0 j = Some (Some d) -> nth_error dists0 j = Some dist ->
     firstn 4 (skipn (3 + 4 * j) (stdout_of o))
     = [[NL] ++ emoji_of (dict_get d DOC_TYPE (VStr UNKNOWN)) ++ u " ["
          ++ str_of_int (Z.of_nat j + 1) ++ u "] "
          ++ format_1f (similarity dist) ++ u "% match";
        u "   ID: " ++ id;
        u "   Type: " ++ str_of_value rt (dict_get d DOC_TYPE (VStr UNKNOWN));
        u "   Content: " ++ preview 100 text]) /\
  (forallb search_ready records = true ->
     result_of o = Ok tt /\
     List.length (stdout_of o) = (3 + 4 * shown)%nat /\
     displayed (stdout_of o) = shown) /\
  (forall j id doc dist,
     forallb search_ready (firstn j records) = true ->
     nth_error records j = Some (id, doc, None, dist) ->
     result_of o = Raise NO_GET /\
     List.length (stdout_of o) = (3 + 4 * j)%nat /\
     displayed (stdout_of o) = j) /\
  (forall j id d dist,
     forallb search_ready (firstn j records) = true ->
     nth_error records j = Some (id, None, Some d, dist) ->
     result_of o = Raise (not_subscriptable NONE_TYPE) /\
     skipn (3 + 4 * j) (stdout_of o)
     = [[NL] ++ emoji_of (dict_get d DOC_TYPE (VStr UNKNOWN)) ++ u " ["
          ++ str_of_int (Z.of_nat j + 1) ++ u "] "
          ++ format_1f (similarity dist) ++ u "% match";
        u "   ID: " ++ id;
        u "   Type: " ++ str_of_value rt (dict_get d DOC_TYPE (VStr UNKNOWN))] /\
     displayed (stdout_of o) = j).
Proof.
  intros Hopen Hfound Hn Hquery H1 Hsome H2 H3 H4 o records shown.
  destruct ids0 as [|id0 ids0']; [contradiction|].
  assert (Hrun : o = mkOutcome s3
            (search_heading query
             ++ fst (loop_steps (search_step rt) 0 records))
            (snd (loop_steps (search_step rt) 0 records))).
  { unfold o. rewrite (main_search_run rt argv0 query args n s Hn).
    apply (cmd_search_some rt s s1 s2 client c Hopen Hfound query n s3 result
             Hquery id0 ids0' docs0 metas0 dists0 r1 r2 r3 r4 H1 H2 H3 H4). }
  assert (Hstop : forall j x e,
            forallb search_ready (firstn j records) = true ->
            nth_error records j = Some x ->
            snd (search_step rt (Z.of_nat j) x) = Raise e ->
            result_of o = Raise e
            /\ skipn (3 + 4 * j) (stdout_of o)
               = fst (search_step rt (Z.of_nat j) x)
            /\ List.length (stdout_of o)
               = (3 + 4 * j
                  + List.length (fst (search_step rt (Z.of_nat j) x)))%nat
            /\ displayed (stdout_of o)
               = (j + displayed (fst (search_step rt (Z.of_nat j) x)))%nat).
  { intros j x e Hready Hj He.
    destruct (loop_stops (search_step rt) search_ready 4
                (search_ready_returns rt) (search_ready_lines rt)
                (search_ready_shown rt) records 0 j x e Hready Hj He)
      as (Hres & Hskip & Hlen & Hshown).
    rewrite Hrun. cbn [result_of stdout_of].
    split; [exact Hres|]. split; [exact Hskip|]. split.
    - rewrite length_app, Hlen. simpl List.length. lia.
    - rewrite displayed_app, Hshown. reflexivity. }
  split; [|split; [|split; [|split]]].
  - rewrite Hrun. reflexivity.
  - intros j id text d dist Hready Hid Hdoc Hmeta Hdist.
    rewrite Hrun. cbn [stdout_of].
    change (skipn (3 + 4 * j) (search_heading query ++ ?body))
      with (skipn (4 * j) body).
    rewrite (loop_block_at (search_step rt) search_ready 4
               (search_ready_returns rt) (search_ready_lines rt) records 0 j
               (id, Some text, Some d, dist) Hready
               (zip4_nth _ _ _ _ j _ _ _ _ Hid Hdoc Hmeta Hdist)).
    reflexivity.
  - intros Hready.
    destruct (loop_all_ready (search_step rt) search_ready 4
                (search_ready_returns rt) (search_ready_lines rt)
                (search_ready_shown rt) records 0 Hready)
      as (Hloop & Hlen & Hshown).
    rewrite Hrun. cbn [result_of stdout_of].
    split; [now rewrite Hloop|]. split.
    + rewrite length_app, Hlen. unfold records.
      rewrite zip4_length_min. reflexivity.
    + rewrite displayed_app, Hshown. unfold records.
      rewrite zip4_length_min. reflexivity.
  - intros j id doc dist Hready Hj.
    destruct (Hstop j (id, doc, None, dist) NO_GET Hready Hj eq_refl)
      as (Hres & _ & Hlen & Hshown).
    split; [exact Hres|]. split; [rewrite Hlen | rewrite Hshown];
      unfold displayed; simpl; lia.
  - intros j id d dist Hready Hj.
    destruct (Hstop j (id, None, Some d, dist) (not_subscriptable NONE_TYPE)
                Hready Hj eq_refl) as (Hres & Hskip & _ & Hshown).
    split; [exact Hres|]. split; [exact Hskip|].
    rewrite Hshown.
    change (fst (search_step rt (Z.of_nat j) (id, None, Some d, dist)))
      with [[NL] ++ (emoji_of (field_of DOC_TYPE d) ++ u " ["
              ++ str_of_int (Z.of_nat j + 1) ++ u "] "
              ++ format_1f (similarity dist) ++ u "% match");
            u "   ID: " ++ id;
            u "   Type: " ++ str_of_value rt (field_of DOC_TYPE d)].
    rewrite search_head_shown. lia.
Qed.

Lemma search_ranks_results_witness :
  result_of (Mem.run [u "search"; u "hello"; u "2"] Mem.three) = Ok tt /\
  displayed (stdout_of (Mem.run [u "search"; u "hello"; u "2"] Mem.three))
  = 2%nat /\
  firstn 4 (skipn 7
    (stdout_of (Mem.run [u "search"; u "hello"; u "2"] Mem.three)))
  = [[NL] ++ u "💬 [2] 75.0% match"; u "   ID: r1"; u "   Type: response";
     u "   Content: hi there"] /\
  result_of (Mem.run [u "search"; u "hello"] Mem.unlabelled) = Raise NO_GET /\
  List.length (stdout_of (Mem.run [u "search"; u "hello"] Mem.unlabelled))
  = 7%nat.
Proof.
  destruct (search_ranks_results Mem.runtime Mem.three Mem.three Mem.three
              Mem.three tt (Mem.first_coll Mem.three)
              (u "chroma-cli.py") (u "hello") [u "2"] 2
              {| q_ids := [[u "p1"; u "r1"]];
                 q_documents := [[Some (u "hello"); Some (u "hi there")]];
                 q_metadatas :=
                   [[Some [(DOC_TYPE, VStr (u "prompt"));
                           (SESSION_ID, VStr (u "s-1"))];
                     Some [(DOC_TYPE, VStr (u "response"));
                           (SESSION_ID, VStr (u "s-1"))]]];
                 q_distances := [[zero; (one / two)%b64]] |}
              [u "p1"; u "r1"] [Some (u "hello"); Some (u "hi there")]
              [Some [(DOC_TYPE, VStr (u "prompt"));
                     (SESSION_ID, VStr (u "s-1"))];
               Some [(DOC_TYPE, VStr (u "response"));
                     (SESSION_ID, VStr (u "s-1"))]]
              [zero; (one / two)%b64] [] [] [] [])
    as (_ & Hlines & Hall & _);
    [reflexivity | reflexivity | vm_compute; reflexivity | reflexivity
    | reflexivity | discriminate | reflexivity | reflexivity | reflexivity |].
  destruct Hall as (Hok & _ & Hshown); [reflexivity|].
  destruct (search_ranks_results Mem.runtime Mem.unlabelled Mem.unlabelled
              Mem.unlabelled Mem.unlabelled tt (Mem.first_coll Mem.unlabelled)
              (u "chroma-cli.py") (u "hello") [] 10
              {| q_ids := [[u "p1"; u "n1"]];
                 q_documents := [[Some (u "hello"); Some (u "a note")]];
                 q_metadatas :=
                   [[Some [(DOC_TYPE, VStr (u "prompt"));
                           (SESSION_ID, VStr (u "s-1"))];
                     None]];
                 q_distances := [[zero; zero]] |}
              [u "p1"; u "n1"] [Some (u "hello"); Some (u "a note")]
              [Some [(DOC_TYPE, VStr (u "prompt"));
                     (SESSION_ID, VStr (u "s-1"))];
               None]
              [zero; zero] [] [] [] [])
    as (_ & _ & _ & Hnone & _);
    [reflexivity | reflexivity | reflexivity | reflexivity
    | reflexivity | discriminate | reflexivity | reflexivity | reflexivity |].
  destruct (Hnone 1%nat (u "n1") (Some (u "a note")) zero eq_refl eq_refl)
    as (Hraise & Hlen & _).
  split; [exact Hok|]. split; [exact Hshown|]. split.
  - etransitivity;
      [exact (Hlines 1%nat (u "r1") (u "hi there")
                [(DOC_TYPE, VStr (u "response")); (SESSION_ID, VStr (u "s-1"))]
                (one / two)%b64 eq_refl eq_refl eq_refl eq_refl eq_refl)
      | vm_compute; reflexivity].
  - split; [exact Hraise | exact Hlen].
Defined.
(** X6.  [search] indexes the four lists of the answer at 0 without a
    check.  An answer that has no list of ids, or that has ids and lacks
    the list of documents, of metadata or of distances, makes it raise an
    IndexError after the heading: the process ends with status 1. *)
Theorem search_index_error (rt : Runtime) (s s1 s2 s3 : Store rt)
    (client : Client rt) (c : Collection rt) (argv0 query : str)
    (args : list str) (n : Z) (result : QueryResult) :
  chroma_PersistentClient rt (VECTOR_DB_DIR rt) s = (s1, Ok client) ->
  chroma_get_collection rt client COLLECTION_NAME s1 = (s2, Ok c) ->
  limit_is rt args n ->
  chroma_query rt c [query] n s2 = (s3, Ok result) ->
  q_ids result = [] \/
  ((exists id ids0 rest, q_ids result = (id :: ids0) :: rest) /\
   (q_documents result = [] \/ q_metadatas result = []
    \/ q_distances result = [])) ->
  let o := main rt (argv0 :: u "search" :: query :: args) s in
  o = mkOutcome s3 [RULE; search_header query; RULE]
        (Raise (Error (u "IndexError") (u "list index out of range"))) /\
  exit_status (result_of o) = 1.
Proof.
  intros Hopen Hfound Hn Hquery Hbad o.
  assert (Hrun : o = mkOutcome s3 (search_heading query) (Raise INDEX_ERROR)).
  { unfold o. rewrite (main_search_run rt argv0 query args n s Hn).
    destruct Hbad as [Hnone|[(id & ids0 & rest & Hids) Hmissing]].
    - apply (cmd_search_no_lists rt s s1 s2 client c Hopen Hfound query n s3
               result Hquery Hnone).
    - apply (cmd_search_missing rt s s1 s2 client c Hopen Hfound query n s3
               result Hquery id ids0 rest Hids Hmissing). }
  rewrite Hrun. split; reflexivity.
Qed.

Lemma search_index_error_witness :
  Faulty.run Faulty.truncated [u "search"; u "hello"] Mem.three
  = mkOutcome Mem.three [RULE; search_header (u "hello"); RULE]
      (Raise (Error (u "IndexError") (u "list index out of range"))).
Proof.
  destruct (search_index_error (Faulty.runtime Faulty.truncated) Mem.three
              Mem.three Mem.three Mem.three tt
              (hd (Mem.coll []) Mem.three)
              (u "chroma-cli.py") (u "hello") [] 10 Faulty.truncated_answer)
    as [Hrun _];
    [reflexivity | reflexivity | reflexivity | reflexivity | | exact Hrun].
  right. split; [|left; reflexivity].
  exists (u "p1"), [], []. reflexivity.
Defined.
(** ** The empty collection and failing reads *)

Section AfterRetrieval.

Variable rt : Runtime.
Variables (s s1 s2 : Store rt) (client : Client rt) (c : Collection rt).

Hypothesis client_opened :
  chroma_PersistentClient rt (VECTOR_DB_DIR rt) s = (s1, Ok client).
Hypothesis collection_found :
  chroma_get_collection rt client COLLECTION_NAME s1 = (s2, Ok c).

Lemma cmd_types_none (s3 : Store rt) :
  chroma_count rt c s2 = (s3, Ok 0) ->
  cmd_types rt s = mkOutcome s3 (types_heading ++ [NO_DOCUMENTS]) (Ok tt).
Proof.
  intros Hcount. unfold cmd_types.
  rewrite (found_continues rt s s1 s2 client client_opened _ c collection_found).
  rewrite (bind_ok _ _ _ _ _ _ (call_eq _ _ _ _ Hcount)), prepend_nil.
  reflexivity.
Qed.

Lemma cmd_types_count_raises (s3 : Store rt) (e : Exn) :
  chroma_count rt c s2 = (s3, Raise e) ->
  cmd_types rt s = mkOutcome s3 [] (Raise e).
Proof.
  intros Hcount. unfold cmd_types.
  rewrite (found_continues rt s s1 s2 client client_opened _ c collection_found).
  now rewrite (bind_raise _ _ _ _ _ _ (call_eq _ _ _ _ Hcount)).
Qed.

Lemma cmd_types_get_raises (count : Z) (s3 s4 : Store rt) (e : Exn) :
  chroma_count rt c s2 = (s3, Ok count) ->
  count <> 0 ->
  chroma_get_metadatas rt c s3 = (s4, Raise e) ->
  cmd_types rt s = mkOutcome s4 types_heading (Raise e).
Proof.
  intros Hcount Hsome Hget. unfold cmd_types.
  rewrite (found_continues rt s s1 s2 client client_opened _ c collection_found).
  rewrite (bind_ok _ _ _ _ _ _ (call_eq _ _ _ _ Hcount)), prepend_nil.
  rewrite !bind_print.
  destruct (Z.eqb_spec count 0) as [E|_]; [contradiction|].
  rewrite (bind_raise _ _ _ _ _ _ (call_eq _ _ _ _ Hget)).
  reflexivity.
Qed.

End AfterRetrieval.

Lemma cmd_status_list_raises (rt : Runtime) (s s1 s2 : Store rt)
    (client : Client rt) (e : Exn) :
  chroma_PersistentClient rt (VECTOR_DB_DIR rt) s = (s1, Ok client) ->
  chroma_list_collections rt client s1 = (s2, Raise e) ->
  cmd_status rt s
  = mkOutcome s2 [RULE; STATUS_TITLE; RULE; data_directory (VECTOR_DB_DIR rt)]
      (Raise e).
Proof.
  intros Hopen Hcols. unfold cmd_status.
  rewrite (bind_ok _ _ _ _ _ _ (get_client_run rt s s1 client Hopen)).
  rewrite prepend_nil, !bind_print.
  rewrite (bind_raise _ _ _ _ _ _ (call_eq _ _ _ _ Hcols)).
  reflexivity.
Qed.

(** X7.  On a collection that counts 0 documents, [list] and [types]
    print their heading and the line [(no documents)] and return: the
    documents are not asked for, so the store is left as [count] left it
    and a [peek] or [get] that would fail is of no consequence.  The
    heading of [list] then reports [min(n, 0)]. *)
Theorem empty_collection_is_not_read (rt : Runtime) (s s1 s2 s3 : Store rt)
    (client : Client rt) (c : Collection rt) (argv0 : str) :
  chroma_PersistentClient rt (VECTOR_DB_DIR rt) s = (s1, Ok client) ->
  chroma_get_collection rt client COLLECTION_NAME s1 = (s2, Ok c) ->
  chroma_count rt c s2 = (s3, Ok 0) ->
  (forall args n, limit_is rt args n ->
     main rt (argv0 :: u "list" :: args) s
     = mkOutcome s3 [RULE; list_header (Z.min n 0) 0; RULE; NO_DOCUMENTS]
         (Ok tt)) /\
  (forall args,
     main rt (argv0 :: u "types" :: args) s
     = mkOutcome s3 [RULE; TYPES_TITLE; RULE; NO_DOCUMENTS] (Ok tt)).
Proof.
  intros Hopen Hfound Hcount. split.
  - intros args n Hn. rewrite (main_list_run rt argv0 args n s Hn).
    apply (cmd_list_none rt s s1 s2 client c Hopen Hfound n s3 Hcount).
  - intros args. rewrite main_types.
    apply (cmd_types_none rt s s1 s2 client c Hopen Hfound s3 Hcount).
Qed.

Lemma empty_collection_is_not_read_witness :
  Faulty.run Faulty.unreadable [u "list"] [Mem.coll []]
    = mkOutcome [Mem.coll []] [RULE; list_header 0 0; RULE; NO_DOCUMENTS]
        (Ok tt) /\
  Faulty.run Faulty.unreadable [u "types"] [Mem.coll []]
    = mkOutcome [Mem.coll []] [RULE; TYPES_TITLE; RULE; NO_DOCUMENTS] (Ok tt).
Proof.
  destruct (empty_collection_is_not_read (Faulty.runtime Faulty.unreadable)
              [Mem.coll []] [Mem.coll []] [Mem.coll []] [Mem.coll []] tt
              (Mem.coll []) (u "chroma-cli.py") eq_refl eq_refl eq_refl)
    as [Hlist Htypes].
  split; [exact (Hlist [] 10 eq_refl) | exact (Htypes [])].
Defined.

(** X8.  [list] and [types] count the collection before they print
    anything and do not handle a failure of the count: the exception ends
    the command with nothing printed. *)
Theorem count_failure_ends_command (rt : Runtime) (s s1 s2 s3 : Store rt)
    (client : Client rt) (c : Collection rt) (e : Exn) (argv0 : str) :
  chroma_PersistentClient rt (VECTOR_DB_DIR rt) s = (s1, Ok client) ->
  chroma_get_collection rt client COLLECTION_NAME s1 = (s2, Ok c) ->
  chroma_count rt c s2 = (s3, Raise e) ->
  let failed : Outcome (Store rt) unit := mkOutcome s3 [] (Raise e) in
  (forall args n, limit_is rt args n ->
     main rt (argv0 :: u "list" :: args) s = failed) /\
  (forall args, main rt (argv0 :: u "types" :: args) s = failed) /\
  (is_Exception e = true -> exit_status (result_of failed) = 1).
Proof.
  intros Hopen Hfound Hcount failed. split; [|split].
  - intros args n Hn. rewrite (main_list_run rt argv0 args n s Hn).
    apply (cmd_list_count_raises rt s s1 s2 client c Hopen Hfound n s3 e Hcount).
  - intros args. rewrite main_types.
    apply (cmd_types_count_raises rt s s1 s2 client c Hopen Hfound s3 e Hcount).
  - destruct e; [discriminate | reflexivity].
Qed.

Lemma count_failure_ends_command_witness :
  let broken := [{| Mem.c_name := COLLECTION_NAME; Mem.c_docs := [];
                    Mem.c_broken := true |}] in
  Mem.run [u "list"; u "3"] broken
    = mkOutcome broken []
        (Raise (Error (u "RuntimeError") (u "segment unavailable"))) /\
  Mem.run [u "types"] broken
    = mkOutcome broken []
        (Raise (Error (u "RuntimeError") (u "segment unavailable"))).
Proof.
  intros broken.
  destruct (count_failure_ends_command Mem.runtime broken broken broken broken
              tt {| Mem.c_name := COLLECTION_NAME; Mem.c_docs := [];
                    Mem.c_broken := true |}
              (Error (u "RuntimeError") (u "segment unavailable"))
              (u "chroma-cli.py") eq_refl eq_refl eq_refl)
    as (Hlist & Htypes & _).
  split; [|exact (Htypes [])].
  apply (Hlist [u "3"] 3). vm_compute. reflexivity.
Defined.

(** X9.  A failure of the call that reads the documents is not handled
    either: [list] (on [peek]), [search] (on [query]) and [types] (on
    [get]) have printed their three heading lines when the exception ends
    them, and [status] its first four lines when listing the collections
    fails. *)
Theorem read_failure_after_heading (rt : Runtime) (s s1 : Store rt)
    (client : Client rt) (e : Exn) (argv0 : str) :
  chroma_PersistentClient rt (VECTOR_DB_DIR rt) s = (s1, Ok client) ->
  (forall s2 s3 s4 c args n count,
     chroma_get_collection rt client COLLECTION_NAME s1 = (s2, Ok c) ->
     limit_is rt args n ->
     chroma_count rt c s2 = (s3, Ok count) -> count <> 0 ->
     chroma_peek rt c (Z.min n count) s3 = (s4, Raise e) ->
     main rt (argv0 :: u "list" :: args) s
     = mkOutcome s4 [RULE; list_header (Z.min n count) count; RULE]
         (Raise e)) /\
  (forall s2 s3 c query args n,
     chroma_get_collection rt client COLLECTION_NAME s1 = (s2, Ok c) ->
     limit_is rt args n ->
     chroma_query rt c [query] n s2 = (s3, Raise e) ->
     main rt (argv0 :: u "search" :: query :: args) s
     = mkOutcome s3 [RULE; search_header query; RULE] (Raise e)) /\
  (forall s2 s3 s4 c args count,
     chroma_get_collection rt client COLLECTION_NAME s1 = (s2, Ok c) ->
     chroma_count rt c s2 = (s3, Ok count) -> count <> 0 ->
     chroma_get_metadatas rt c s3 = (s4, Raise e) ->
     main rt (argv0 :: u "types" :: args) s
     = mkOutcome s4 [RULE; TYPES_TITLE; RULE] (Raise e)) /\
  (forall s2 args,
     chroma_list_collections rt client s1 = (s2, Raise e) ->
     main rt (argv0 :: u "status" :: args) s
     = mkOutcome s2
         [RULE; STATUS_TITLE; RULE; data_directory (VECTOR_DB_DIR rt)]
         (Raise e)).
Proof.
  intros Hopen. split; [|split; [|split]].
  - intros s2 s3 s4 c args n count Hfound Hn Hcount Hsome Hpeek.
    rewrite (main_list_run rt argv0 args n s Hn).
    apply (cmd_list_peek_raises rt s s1 s2 client c Hopen Hfound n count s3 s4
             e Hcount Hsome Hpeek).
  - intros s2 s3 c query args n Hfound Hn Hquery.
    rewrite (main_search_run rt argv0 query args n s Hn).
    apply (cmd_search_query_raises rt s s1 s2 client c Hopen Hfound query n s3
             e Hquery).
  - intros s2 s3 s4 c args count Hfound Hcount Hsome Hget.
    rewrite main_types.
    apply (cmd_types_get_raises rt s s1 s2 client c Hopen Hfound count s3 s4 e
             Hcount Hsome Hget).
  - intros s2 args Hcols. rewrite main_status.
    apply (cmd_status_list_raises rt s s1 s2 client e Hopen Hcols).
Qed.

Lemma read_failure_after_heading_witness :
  Faulty.run Faulty.unreadable [u "list"; u "2"] Mem.three
    = mkOutcome Mem.three [RULE; list_header 2 3; RULE]
        (Raise Faulty.UNAVAILABLE) /\
  Faulty.run Faulty.unreadable [u "search"; u "hello"] Mem.three
    = mkOutcome Mem.three [RULE; search_header (u "hello"); RULE]
        (Raise Faulty.UNAVAILABLE) /\
  Faulty.run Faulty.unreadable [u "types"] Mem.three
    = mkOutcome Mem.three [RULE; TYPES_TITLE; RULE] (Raise Faulty.UNAVAILABLE).
Proof.
  destruct (read_failure_after_heading (Faulty.runtime Faulty.unreadable)
              Mem.three Mem.three tt Faulty.UNAVAILABLE (u "chroma-cli.py")
              eq_refl)
    as (Hlist & Hsearch & Htypes & _).
  split; [|split].
  - apply (Hlist Mem.three Mem.three Mem.three
             (hd (Mem.coll []) Mem.three)
             [u "2"] 2 3);
      [reflexivity | vm_compute; reflexivity | reflexivity | discriminate
      | reflexivity].
  - apply (Hsearch Mem.three Mem.three
             (hd (Mem.coll []) Mem.three)
             (u "hello") [] 10); reflexivity.
  - apply (Htypes Mem.three Mem.three Mem.three
             (hd (Mem.coll []) Mem.three)
             [] 3); [reflexivity | reflexivity | discriminate | reflexivity].
Defined.
(** ** The listing of [status] *)

Section StatusReads.

Variable rt : Runtime.
Hypothesis reads : read_only rt.
Variable client : Client rt.

Lemma status_entry_reads (col : CollectionInfo) (t : Store rt) :
  status_entry rt client col t
  = mkOutcome t [status_line rt client t col] (Ok tt).
Proof.
  rewrite status_entry_run. unfold status_line.
  pose proof (ro_get_collection rt reads client (name col) t) as Hget.
  destruct (chroma_get_collection rt client (name col) t) as [t1 [c|e]];
    simpl in Hget; subst t1; [|reflexivity].
  pose proof (ro_count rt reads c t) as Hcount.
  destruct (chroma_count rt c t) as [t2 [n|e]]; simpl in Hcount; subst t2;
    reflexivity.
Qed.

Lemma status_loop_reads (cols : list CollectionInfo) (t : Store rt) :
  for_each cols (status_entry rt client) t
  = mkOutcome t (map (status_line rt client t) cols) (Ok tt).
Proof.
  induction cols as [|col cols IH]; [reflexivity|].
  simpl. rewrite (bind_ok _ _ _ _ _ _ (status_entry_reads col t)), IH.
  reflexivity.
Qed.

Lemma cmd_status_reads (s : Store rt) (cols : list CollectionInfo) :
  snd (chroma_PersistentClient rt (VECTOR_DB_DIR rt) s) = Ok client ->
  snd (chroma_list_collections rt client s) = Ok cols ->
  cmd_status rt s
  = mkOutcome s
      (status_heading rt (Z.of_nat (List.length cols))
       ++ map (status_line rt client s) cols) (Ok tt).
Proof.
  intros Hopen Hcols.
  pose proof (ro_PersistentClient rt reads (VECTOR_DB_DIR rt) s) as Hs1.
  pose proof (ro_list_collections rt reads client s) as Hs2.
  destruct (chroma_PersistentClient rt (VECTOR_DB_DIR rt) s) as [s1 r1] eqn:E1.
  destruct (chroma_list_collections rt client s) as [s2 r2] eqn:E2.
  simpl in *. subst s1 s2 r1 r2.
  unfold cmd_status.
  rewrite (bind_ok _ _ _ _ _ _ (get_client_run rt s s client E1)).
  rewrite prepend_nil, !bind_print.
  rewrite (bind_ok _ _ _ _ _ _ (call_eq _ _ _ _ E2)).
  rewrite prepend_nil, bind_print, status_loop_reads. reflexivity.
Qed.

End StatusReads.

(** X10.  With a client whose calls are reads, [status] prints, after its
    heading, one line for each collection of the store in the order the
    client lists them: the name with the count when the collection can be
    retrieved and counted, the name with [(error)] otherwise.  It returns
    with the store as it found it. *)
Theorem status_reports_counts (rt : Runtime) (s : Store rt)
    (client : Client rt) (cols : list CollectionInfo) (argv0 : str) :
  read_only rt ->
  snd (chroma_PersistentClient rt (VECTOR_DB_DIR rt) s) = Ok client ->
  snd (chroma_list_collections rt client s) = Ok cols ->
  let o := main rt [argv0; u "status"] s in
  o = mkOutcome s
        ([RULE; STATUS_TITLE; RULE; data_directory (VECTOR_DB_DIR rt);
          collections_header (Z.of_nat (List.length cols))]
         ++ map (status_line rt client s) cols) (Ok tt) /\
  (forall col c n,
     In col cols ->
     snd (chroma_get_collection rt client (name col) s) = Ok c ->
     snd (chroma_count rt c s) = Ok n ->
     status_line rt client s col = count_line col n /\
     In (count_line col n) (stdout_of o)) /\
  (forall col e,
     In col cols ->
     snd (chroma_get_collection rt client (name col) s) = Raise e ->
     status_line rt client s col = error_line col).
Proof.
  intros reads Hopen Hcols o.
  assert (Hrun : o = mkOutcome s
            (status_heading rt (Z.of_nat (List.length cols))
             ++ map (status_line rt client s) cols) (Ok tt)).
  { unfold o. rewrite main_status.
    apply (cmd_status_reads rt reads client s cols Hopen Hcols). }
  split; [exact Hrun|]. split.
  - intros col c n Hin Hget Hcount.
    assert (Hline : status_line rt client s col = count_line col n).
    { unfold status_line.
      pose proof (ro_get_collection rt reads client (name col) s) as Hs.
      destruct (chroma_get_collection rt client (name col) s) as [s' r].
      simpl in *. subst s' r.
      now rewrite (surjective_pairing (chroma_count rt c s)), Hcount. }
    split; [exact Hline|].
    rewrite Hrun. cbn [stdout_of]. apply in_or_app. right.
    rewrite <- Hline. now apply in_map.
  - intros col e Hin Hget. unfold status_line.
    destruct (chroma_get_collection rt client (name col) s) as [s' r].
    simpl in Hget. now subst r.
Qed.

Lemma status_reports_counts_witness :
  stdout_of (Mem.run [u "status"] Mem.flaky)
  = [RULE; STATUS_TITLE; RULE;
     data_directory (u "/home/user/.jikime-mem/vector-db");
     collections_header 2;
     u "   • jm__jikime_mem: 3 documents"; u "   • scratch: (error)"].
Proof.
  destruct (status_reports_counts Mem.runtime Mem.flaky tt
              (map (fun c => {| name := Mem.c_name c |}) Mem.flaky)
              (u "chroma-cli.py")) as (Hrun & _);
    [constructor; reflexivity | reflexivity | reflexivity |].
  unfold Mem.run. rewrite Hrun. vm_compute. reflexivity.
Defined.
(** ** The preview is one line *)

Lemma replace_removes (a b : N) (s : str) : a <> b -> ~ In a (replace a b s).
Proof.
  intros Hab Hin. unfold replace in Hin. apply in_map_iff in Hin.
  destruct Hin as (c & Hc & _).
  destruct (N.eqb_spec c a); congruence.
Qed.

(** X11.  A preview holds no newline and at most [limit + 3] characters,
    whatever the content: the content line of a document is one line of
    the output. *)
Theorem preview_is_one_line (limit : nat) (doc : str) :
  ~ In NL (preview limit doc) /\
  len (preview limit doc) <= Z.of_nat limit + 3 /\
  ~ In NL (content_line limit doc).
Proof.
  assert (Hp : ~ In NL (preview limit doc)).
  { unfold preview. intros Hin.
    assert (Hr : ~ In NL (replace NL SP (slice_to limit doc)))
      by (apply replace_removes; discriminate).
    destruct (len doc >? Z.of_nat limit); [|contradiction].
    apply in_app_or in Hin as [Hin|Hin]; [contradiction|].
    vm_compute in Hin. intuition discriminate. }
  split; [exact Hp|]. split.
  - unfold preview, len, slice_to.
    destruct (Z.of_nat (List.length doc) >? Z.of_nat limit);
      rewrite ?length_app, replace_length, length_firstn; simpl List.length; lia.
  - unfold content_line. intros Hin.
    apply in_app_or in Hin as [Hin|Hin]; [|contradiction].
    vm_compute in Hin. intuition discriminate.
Qed.

(** ** The session labels of [types] *)

(** X12.  In the By Session list of [types] a session id of at most 12
    characters is shown whole, so that its row tells which session it is;
    a longer one is shown as its first 12 characters followed by the
    ellipsis, so that two long ids with the same first 12 characters get
    the same label.  A session id that is not a string has no row:
    [len()] raises a TypeError. *)
Theorem session_label_spec (rt : Runtime) (a b : str) (cnt : Z) :
  (len a <= 12 ->
     session_line rt (VStr a, cnt)
       = Ok (u "   📁 " ++ a ++ u ": " ++ str_of_int cnt ++ u " documents") /\
     (session_line rt (VStr a, cnt) = session_line rt (VStr b, cnt) -> a = b)) /\
  (len a > 12 ->
     session_line rt (VStr a, cnt)
       = Ok (u "   📁 " ++ (slice_to 12 a ++ u "...") ++ u ": "
             ++ str_of_int cnt ++ u " documents") /\
     len (slice_to 12 a ++ u "...") = 15 /\
     (len b > 12 -> slice_to 12 a = slice_to 12 b ->
        session_line rt (VStr a, cnt) = session_line rt (VStr b, cnt))) /\
  (forall v, is_str v = false ->
     session_line rt (v, cnt) = Raise (no_len (type_name v))).
Proof.
  assert (Hlong : forall x, len x > 12 ->
            session_line rt (VStr x, cnt)
            = Ok (u "   📁 " ++ (slice_to 12 x ++ u "...") ++ u ": "
                  ++ str_of_int cnt ++ u " documents")).
  { intros x Hx. rewrite session_line_str.
    destruct (Z.gtb_spec (len x) 12); [reflexivity | lia]. }
  assert (Hshort : forall x, len x <= 12 ->
            session_line rt (VStr x, cnt)
            = Ok (u "   📁 " ++ x ++ u ": " ++ str_of_int cnt
                  ++ u " documents")).
  { intros x Hx. rewrite session_line_str.
    destruct (Z.gtb_spec (len x) 12); [lia | reflexivity]. }
  assert (Hlen : forall x, len x > 12 -> len (slice_to 12 x ++ u "...") = 15).
  { intros x Hx. unfold len, slice_to in *.
    rewrite length_app, firstn_length_le by lia. reflexivity. }
  split; [|split].
  - intros Ha. split; [now apply Hshort|].
    rewrite (Hshort a Ha).
    destruct (Z.le_gt_cases (len b) 12) as [Hb|Hb].
    + rewrite (Hshort b Hb). intros E0.
      assert (E : u "   📁 " ++ a ++ u ": " ++ str_of_int cnt ++ u " documents"
                  = u "   📁 " ++ b ++ u ": " ++ str_of_int cnt
                    ++ u " documents") by congruence.
      apply app_inv_head in E. now apply app_inv_tail in E.
    + rewrite (Hlong b ltac:(lia)). intros E0.
      assert (E : u "   📁 " ++ a ++ u ": " ++ str_of_int cnt ++ u " documents"
                  = u "   📁 " ++ (slice_to 12 b ++ u "...") ++ u ": "
                    ++ str_of_int cnt ++ u " documents") by congruence.
      apply app_inv_head in E. apply app_inv_tail in E.
      pose proof (Hlen b ltac:(lia)) as Hb15. rewrite <- E in Hb15. lia.
  - intros Ha. split; [now apply Hlong|]. split; [now apply Hlen|].
    intros Hb Hsame. rewrite (Hlong a Ha), (Hlong b Hb), Hsame. reflexivity.
  - intros v Hv. now apply session_line_other.
Qed.

Lemma session_label_spec_witness :
  session_line Mem.runtime (VStr (u "0123456789abcdef"), 4)
    = Ok (u "   📁 0123456789ab...: 4 documents") /\
  session_line Mem.runtime (VStr (u "0123456789abcdef"), 4)
    = session_line Mem.runtime (VStr (u "0123456789ab-2"), 4) /\
  session_line Mem.runtime (VStr (u "s-1"), 2)
    = Ok (u "   📁 s-1: 2 documents").
Proof.
  split; [|split].
  - destruct (session_label_spec Mem.runtime (u "0123456789abcdef") [] 4)
      as (_ & Hlong & _).
    destruct Hlong as (Hline & _); [vm_compute; reflexivity|].
    rewrite Hline. vm_compute. reflexivity.
  - destruct (session_label_spec Mem.runtime (u "0123456789abcdef")
                (u "0123456789ab-2") 4) as (_ & Hlong & _).
    destruct Hlong as (_ & _ & Hsame); [vm_compute; reflexivity|].
    apply Hsame; vm_compute; reflexivity.
  - destruct (session_label_spec Mem.runtime (u "s-1") [] 2) as (Hshort & _).
    destruct Hshort as (Hline & _); [vm_compute; discriminate|].
    rewrite Hline. vm_compute. reflexivity.
Defined.

(** ** The order of the rows of [types] *)

Section Distinct.

Lemma filter_all {X} (p : X -> bool) (l : list X) :
  (forall x, In x l -> p x = true) -> filter p l = l.
Proof.
  induction l as [|x l IH]; intros H; [reflexivity|].
  simpl. rewrite (H x (or_introl eq_refl)). f_equal.
  apply IH. intros y Hy. apply H. now right.
Qed.

Lemma filter_andb {X} (p q : X -> bool) (l : list X) :
  filter (fun x => p x && q x) l = filter q (filter p l).
Proof.
  induction l as [|x l IH]; [reflexivity|].
  simpl. destruct (p x); simpl; [destruct (q x)|]; now rewrite IH.
Qed.

Lemma filter_swap {X} (p q : X -> bool) (l : list X) :
  filter p (filter q l) = filter q (filter p l).
Proof.
  rewrite <- !filter_andb. apply filter_ext. intros x. apply andb_comm.
Qed.

Lemma all_str_filter (p : Value -> bool) (l : list Value) :
  all_str l -> all_str (filter p l).
Proof.
  unfold all_str. rewrite !Forall_forall. intros H x Hx.
  apply filter_In in Hx as [Hx _]. now apply H.
Qed.

Lemma distinct_in (l : list Value) (x : Value) :
  all_str l -> (In x (distinct l) <-> In x l).
Proof.
  induction 1 as [|y l Hy _ IH]; simpl; [tauto|].
  rewrite filter_In, IH, negb_true_iff, (py_eqb_neq x y (or_intror Hy)).
  destruct (py_eqb x y) eqn:E.
  - apply (py_eqb_eq x y (or_intror Hy)) in E. subst. tauto.
  - apply (py_eqb_neq x y (or_intror Hy)) in E. intuition congruence.
Qed.

Lemma distinct_NoDup (l : list Value) : all_str l -> NoDup (distinct l).
Proof.
  induction 1 as [|y l Hy _ IH]; simpl; constructor.
  - rewrite filter_In, negb_true_iff, (py_eqb_neq y y (or_intror Hy)). tauto.
  - now apply NoDup_filter.
Qed.

Lemma filter_distinct (p : Value -> bool) (l : list Value) :
  all_str l -> filter p (distinct l) = distinct (filter p l).
Proof.
  induction 1 as [|x l Hx Hl IH]; [reflexivity|].
  simpl. destruct (p x) eqn:Hpx; simpl.
  - f_equal. now rewrite filter_swap, IH.
  - rewrite filter_swap, IH. apply filter_all.
    intros y Hy.
    apply (distinct_in _ y (all_str_filter p l Hl)), filter_In in Hy as [_ Hy].
    apply negb_true_iff, (py_eqb_neq y x (or_intror Hx)). congruence.
Qed.

End Distinct.

Section Order.

Import Counter.

Lemma keys_incr_eq (key : Value) (c : Counter.t) :
  keys (incr key c) = if has_key c key then keys c else keys c ++ [key].
Proof.
  unfold has_key. induction c as [|[k n] c IH]; [reflexivity|].
  simpl. destruct (py_eqb k key); simpl; [reflexivity|].
  rewrite IH. now destruct (existsb _ (keys c)).
Qed.

Lemma count_from_keys_eq (values : list Value) :
  all_str values -> forall c,
  keys (count_from c values)
  = keys c ++ distinct (filter (fun v => negb (has_key c v)) values).
Proof.
  induction 1 as [|v values Hv Hvalues IH]; intros c.
  - simpl. now rewrite app_nil_r.
  - change (count_from c (v :: values)) with (count_from (incr v c) values).
    rewrite IH, keys_incr_eq. simpl filter.
    destruct (has_key c v) eqn:Hkey; simpl negb; cbv iota.
    + f_equal. f_equal. apply filter_ext. intros w. unfold has_key.
      now rewrite keys_incr_eq, Hkey.
    + rewrite <- app_assoc. f_equal. simpl. f_equal.
      rewrite (filter_distinct _ _ (all_str_filter _ _ Hvalues)).
      rewrite <- filter_andb. f_equal.
      apply filter_ext. intros w. unfold has_key at 1.
      rewrite keys_incr_eq, Hkey, existsb_app. simpl.
      rewrite orb_false_r, negb_orb, (py_eqb_sym v w). reflexivity.
Qed.

Lemma insert_desc_stable (n : Z) (x : Value * Z) (l : Counter.t) :
  filter (fun row => snd row =? n) (insert_desc x l)
  = filter (fun row => snd row =? n) (x :: l).
Proof.
  induction l as [|y l IH]; [reflexivity|].
  cbn [insert_desc]. destruct (Z.ltb_spec (snd x) (snd y)) as [Hlt|_];
    [|reflexivity].
  cbn [filter]. rewrite IH. cbn [filter].
  destruct (Z.eqb_spec (snd x) n), (Z.eqb_spec (snd y) n); try reflexivity.
  lia.
Qed.

Lemma most_common_stable (n : Z) (c : Counter.t) :
  filter (fun row => snd row =? n) (most_common c)
  = filter (fun row => snd row =? n) c.
Proof.
  induction c as [|x c IH]; [reflexivity|].
  cbn [most_common fold_right]. fold (most_common c).
  rewrite insert_desc_stable. cbn [filter]. now rewrite IH.
Qed.

Lemma keys_with_count (n : Z) (c : Counter.t) :
  NoDup (keys c) -> all_str (keys c) ->
  keys (filter (fun row => snd row =? n) c)
  = filter (fun v => get c v =? n) (keys c).
Proof.
  induction c as [|[k m] c IH]; intros Hnd Hstr; [reflexivity|].
  inversion Hnd as [|? ? Hnotin Hrest]; subst.
  inversion Hstr as [|? ? Hk Hkeys]; subst.
  cbn [filter keys map fst snd get]. rewrite (py_eqb_refl k Hk).
  assert (Hrew : filter (fun v => (if py_eqb k v then m else get c v) =? n)
                        (keys c)
                 = filter (fun v => get c v =? n) (keys c)).
  { apply filter_ext_in. intros v Hv.
    destruct (py_eqb k v) eqn:E; [|reflexivity].
    apply (py_eqb_eq k v (or_introl Hk)) in E. subst. contradiction. }
  fold (keys c). rewrite Hrew, <- (IH Hrest Hkeys).
  destruct (m =? n); reflexivity.
Qed.

Lemma sorted_app_inv {X} (R : X -> X -> Prop) (l1 l2 : list X) :
  StronglySorted R (l1 ++ l2) ->
  forall a b, In a l1 -> In b l2 -> R a b.
Proof.
  induction l1 as [|x l1 IH]; simpl; intros Hs a b Ha Hb; [contradiction|].
  inversion Hs as [|? ? Hrest Hall]; subst.
  destruct Ha as [<-|Ha].
  - rewrite Forall_forall in Hall. apply Hall, in_or_app. now right.
  - now apply IH.
Qed.

End Order.

Lemma tally_keys_distinct (field : str) (dicts : list Dict) :
  strings_at field dicts ->
  keys (tally field dicts) = distinct (map (field_of field) dicts).
Proof.
  intros H.
  rewrite tally_count_from,
    (count_from_keys_eq _ (strings_values field dicts H)).
  simpl. f_equal. apply filter_all. reflexivity.
Qed.

(** The order of the rows of a tally. *)
Lemma tally_rows_order (field : str) (dicts : list Dict) :
  strings_at field dicts ->
  let values := map (field_of field) dicts in
  let rows := Counter.most_common (tally field dicts) in
  List.length rows = List.length (distinct values) /\
  descending rows /\
  (forall n,
     keys (filter (fun row => snd row =? n) rows)
     = filter (fun v => occurrences field v dicts =? n) (distinct values)).
Proof.
  intros Hstr values rows.
  assert (Hkeys : keys (tally field dicts) = distinct values)
    by now apply tally_keys_distinct.
  split; [|split].
  - unfold rows. rewrite most_common_length, <- Hkeys.
    unfold keys. now rewrite length_map.
  - apply most_common_sorted.
  - intros n. unfold rows.
    rewrite most_common_stable,
      (keys_with_count n _ (tally_NoDup field dicts Hstr)
         (tally_keys_str field dicts Hstr)).
    rewrite Hkeys. apply filter_ext. intros v.
    now rewrite (tally_get field dicts v Hstr).
Qed.

(** X13.  What [types] prints for documents that all have metadata, with
    strings as types and as session ids: after the By Type header one row
    for each distinct type, after the By Session header one row for each
    of the first five distinct session ids of the order below, and it
    returns.  In either list the rows are in descending order of count,
    and the rows of one count are in the order in which their values
    first occur among the documents: the counter keeps its keys in the
    order of first insertion and the sort of [most_common] is stable. *)
Theorem rows_order (rt : Runtime) (s s1 s2 s3 s4 : Store rt)
    (client : Client rt) (c : Collection rt) (count : Z) (metas : list Meta)
    (dicts : list Dict) (argv0 : str) :
  chroma_PersistentClient rt (VECTOR_DB_DIR rt) s = (s1, Ok client) ->
  chroma_get_collection rt client COLLECTION_NAME s1 = (s2, Ok c) ->
  chroma_count rt c s2 = (s3, Ok count) ->
  count <> 0 ->
  chroma_get_metadatas rt c s3 = (s4, Ok metas) ->
  all_have_metadata metas dicts ->
  strings_at DOC_TYPE dicts ->
  strings_at SESSION_ID dicts ->
  let types := map (fun d => dict_get d DOC_TYPE (VStr UNKNOWN)) dicts in
  let sessions := map (fun d => dict_get d SESSION_ID (VStr UNKNOWN)) dicts in
  let type_rows := Counter.most_common (tally DOC_TYPE dicts) in
  let session_rows := Counter.most_common (tally SESSION_ID dicts) in
  (exists session_lines,
     collect (session_line rt) (firstn 5 session_rows) = Ok session_lines /\
     main rt [argv0; u "types"] s
     = mkOutcome s4
         ([RULE; TYPES_TITLE; RULE; by_type_header count]
          ++ map (type_line rt) type_rows
          ++ BY_SESSION_HEADER :: session_lines) (Ok tt)) /\
  List.length type_rows = List.length (distinct types) /\
  descending type_rows /\
  (forall n,
     keys (filter (fun row => snd row =? n) type_rows)
     = filter (fun v => occurrences DOC_TYPE v dicts =? n) (distinct types)) /\
  List.length session_rows = List.length (distinct sessions) /\
  descending session_rows /\
  (forall n,
     keys (filter (fun row => snd row =? n) session_rows)
     = filter (fun v => occurrences SESSION_ID v dicts =? n)
         (distinct sessions)).
Proof.
  intros Hopen Hfound Hcount Hsome Hfetch Hdicts Htypes Hsessions
    types sessions type_rows session_rows.
  destruct (tally_rows_order DOC_TYPE dicts Htypes) as (T1 & T2 & T3).
  destruct (tally_rows_order SESSION_ID dicts Hsessions) as (S1 & S2 & S3).
  split; [|repeat split; assumption].
  assert (Hshown : all_str (keys (firstn 5 session_rows))).
  { pose proof (tally_keys_str SESSION_ID dicts Hsessions) as Hall.
    unfold all_str in *. rewrite Forall_forall in *. intros v Hv.
    apply Hall. unfold keys in Hv. apply in_map_iff in Hv as (row & <- & Hrow).
    apply most_common_keys. unfold keys. apply in_map.
    rewrite <- (firstn_skipn 5 (Counter.most_common _)).
    apply in_or_app. now left. }
  destruct (collect_strings rt _ Hshown) as [session_lines Hlines].
  exists session_lines. split; [exact Hlines|].
  rewrite main_types.
  rewrite (cmd_types_run rt s s1 s2 s3 s4 client c count metas
             Hopen Hfound Hcount Hfetch dicts Hdicts session_lines (Ok tt)).
  - unfold types_report, types_heading.
    destruct (Z.eqb_spec count 0); [contradiction | reflexivity].
  - now apply session_loop.
Qed.

Lemma rows_order_witness :
  Mem.run [u "types"] Mem.three
  = mkOutcome Mem.three
      [RULE; TYPES_TITLE; RULE; by_type_header 3;
       u "   📝 prompt: 2"; u "   💬 response: 1"; BY_SESSION_HEADER;
       u "   📁 s-1: 2 documents"; u "   📁 s-2: 1 documents"] (Ok tt) /\
  descending (Counter.most_common (tally SESSION_ID (Mem.dicts Mem.three))).
Proof.
  destruct (rows_order Mem.runtime Mem.three Mem.three Mem.three Mem.three
              Mem.three tt (Mem.first_coll Mem.three) 3
              (map Mem.d_meta (Mem.c_docs (Mem.first_coll Mem.three)))
              (Mem.dicts Mem.three) (u "chroma-cli.py"))
    as ((session_lines & Hlines & Hrun) & _ & _ & _ & _ & Hsorted & _);
    [reflexivity | reflexivity | reflexivity | discriminate | reflexivity
    | reflexivity | repeat constructor | repeat constructor |].
  split; [|exact Hsorted].
  vm_compute in Hlines. injection Hlines as <-.
  etransitivity; [exact Hrun | vm_compute; reflexivity].
Defined.

(** X14.  When the session ids are strings, the By Session list of
    [types] has a row for each of at most five distinct session ids, five
    when there are more; the count of a row is the number of documents of
    that session, and no session that is left out has more documents than
    one that is shown. *)
Theorem top_five_sessions (dicts : list Dict) :
  strings_at SESSION_ID dicts ->
  let sessions := map (fun d => dict_get d SESSION_ID (VStr UNKNOWN)) dicts in
  let shown := Counter.most_common_n 5 (tally SESSION_ID dicts) in
  List.length shown = Nat.min 5 (List.length (distinct sessions)) /\
  NoDup (keys shown) /\
  (forall v n, In (v, n) shown ->
     In v sessions /\ n = occurrences SESSION_ID v dicts /\ 1 <= n) /\
  (forall v n v', In (v, n) shown -> In v' sessions -> ~ In v' (keys shown) ->
     occurrences SESSION_ID v' dicts <= n).
Proof.
  intros Hstr sessions shown.
  set (rows := Counter.most_common (tally SESSION_ID dicts)).
  assert (Hsplit : rows = shown ++ skipn 5 rows)
    by (symmetry; apply firstn_skipn).
  assert (Hnd : NoDup (keys rows))
    by now apply most_common_NoDup, tally_NoDup.
  assert (Hshown : forall v n, In (v, n) shown -> In (v, n) rows).
  { intros v n Hin. rewrite Hsplit. apply in_or_app. now left. }
  split; [|split; [|split]].
  - unfold shown, Counter.most_common_n.
    rewrite length_firstn, most_common_length.
    change (distinct sessions)
      with (distinct (map (field_of SESSION_ID) dicts)).
    rewrite <- (tally_keys_distinct SESSION_ID dicts Hstr).
    unfold keys. now rewrite length_map.
  - rewrite Hsplit in Hnd. unfold keys in Hnd. rewrite map_app in Hnd.
    now apply NoDup_app_remove_r in Hnd.
  - intros v n Hin. apply Hshown in Hin.
    destruct (tally_row SESSION_ID dicts v n Hstr Hin) as (_ & Hn & Hpos).
    split; [|split; assumption].
    apply (proj1 (most_common_in _ _)) in Hin.
    assert (Hkey : In v (keys (tally SESSION_ID dicts)))
      by (change v with (fst (v, n)); now apply in_map).
    apply (tally_keys SESSION_ID dicts v Hstr) in Hkey as (d & Hd & <-).
    unfold sessions. now apply (in_map (field_of SESSION_ID)).
  - intros v n v' Hin Hv' Hout.
    assert (Hkey : In v' (keys rows)).
    { unfold sessions in Hv'. apply in_map_iff in Hv' as (d & <- & Hd).
      apply most_common_keys.
      apply (tally_keys SESSION_ID dicts _ Hstr). now exists d. }
    unfold keys in Hkey. apply in_map_iff in Hkey as ([w n'] & Hw & Hin').
    simpl in Hw. subst w.
    destruct (tally_row SESSION_ID dicts v' n' Hstr Hin') as (_ & Hn' & _).
    rewrite <- Hn'.
    rewrite Hsplit in Hin'. apply in_app_or in Hin' as [Hin'|Hin'].
    + exfalso. apply Hout. change v' with (fst (v', n')). now apply in_map.
    + pose proof (most_common_sorted (tally SESSION_ID dicts)) as Hsorted.
      fold rows in Hsorted. unfold descending in Hsorted.
      rewrite Hsplit in Hsorted.
      apply (sorted_app_inv _ _ _ Hsorted (v, n) (v', n') Hin Hin').
Qed.

Lemma top_five_sessions_witness :
  List.length (Counter.most_common_n 5 (tally SESSION_ID (Mem.dicts Mem.six)))
  = 5%nat /\
  occurrences SESSION_ID (VStr (u "s-6")) (Mem.dicts Mem.six) <= 1.
Proof.
  destruct (top_five_sessions (Mem.dicts Mem.six)) as (Hlen & _ & _ & Hleft);
    [repeat constructor|].
  split; [exact Hlen|].
  apply (Hleft (VStr (u "s-1")) 1 (VStr (u "s-6"))).
  - vm_compute. left. reflexivity.
  - vm_compute. do 5 right. left. reflexivity.
  - vm_compute. intuition discriminate.
Defined.
(** ** The percentage that [search] prints *)

Section Percentage.

Lemma str_of_int_digit (z : Z) :
  0 <= z ->
  exists c rest, str_of_int z = c :: rest /\ (48 <= c <= 57)%N.
Proof.
  intros Hz. unfold str_of_int.
  assert (Hu : forall d : Decimal.uint,
            exists c rest, bytes_of (NilZero.string_of_uint d) = c :: rest
                           /\ (48 <= c <= 57)%N).
  { intros d. destruct d; simpl; eexists; eexists; (split; [reflexivity|]);
      vm_compute; split; discriminate. }
  destruct z as [|p|p]; [| |lia].
  - apply (Hu (Decimal.D0 Decimal.Nil)).
  - apply (Hu (Pos.to_uint p)).
Qed.

Lemma round_tenths_near (q : Q) :
  2 * Z.abs (10 * Qnum q - round_tenths q * Zpos (Qden q)) <= Zpos (Qden q).
Proof.
  unfold round_tenths.
  set (a := 10 * Qnum q). set (d := Zpos (Qden q)).
  assert (Hd : 0 < d) by (unfold d; lia).
  pose proof (Z.div_mod a d ltac:(lia)) as Ha.
  pose proof (Z.mod_pos_bound a d Hd) as Hr.
  destruct (Z.ltb_spec (2 * (a mod d)) d).
  - replace (a - a / d * d) with (a mod d) by lia. lia.
  - destruct (Z.ltb_spec d (2 * (a mod d))).
    + replace (a - (a / d + 1) * d) with (a mod d - d) by lia. lia.
    + destruct (Z.even (a / d)).
      * replace (a - a / d * d) with (a mod d) by lia. lia.
      * replace (a - (a / d + 1) * d) with (a mod d - d) by lia. lia.
Qed.

Lemma round_tenths_range (q : Q) :
  0 <= Qnum q -> Qnum q <= 100 * Zpos (Qden q) ->
  0 <= round_tenths q <= 1000.
Proof.
  intros Hlo Hhi. unfold round_tenths.
  set (a := 10 * Qnum q). set (d := Zpos (Qden q)).
  assert (Hd : 0 < d) by (unfold d; lia).
  assert (Ha : 0 <= a <= 1000 * d) by (unfold a, d; lia).
  pose proof (Z.div_mod a d ltac:(lia)) as Hdm.
  pose proof (Z.mod_pos_bound a d Hd) as Hr.
  assert (Hfl : 0 <= a / d <= 1000).
  { split; [apply Z.div_pos; lia|].
    apply Z.div_le_upper_bound; lia. }
  assert (Htop : a / d = 1000 -> a mod d = 0) by nia.
  destruct (Z.ltb_spec (2 * (a mod d)) d); [lia|].
  assert (a / d <> 1000) by lia.
  destruct (Z.ltb_spec d (2 * (a mod d))); [lia|].
  destruct (Z.even (a / d)); lia.
Qed.

(** The parts of the exact value of a positive float. *)
Lemma exact_value_parts (m : positive) (e : Z) :
  -1074 <= e ->
  exists K, 0 < K /\
    K * Zpos (Qden (exact_value false m e)) = 2 ^ 1074 /\
    Qnum (exact_value false m e) * K = Zpos m * 2 ^ (e + 1074) /\
    0 < Qnum (exact_value false m e).
Proof.
  intros He. unfold exact_value.
  destruct (Z.leb_spec 0 e) as [Hpos|Hneg]; cbn [Qnum Qden].
  - exists (2 ^ 1074). pose proof (Rounding.pow2_pos e Hpos).
    split; [reflexivity|]. split; [lia|]. split.
    + rewrite (Rounding.pow2_split e 1074) by lia. lia.
    + apply Z.mul_pos_pos; lia.
  - exists (2 ^ (e + 1074)).
    pose proof (Rounding.pow2_pos (e + 1074) ltac:(lia)).
    pose proof (Rounding.pow2_pos (- e) ltac:(lia)).
    rewrite Z2Pos.id by lia.
    split; [lia|]. split; [|split; lia].
    rewrite <- (Rounding.pow2_split (e + 1074) (- e)) by lia.
    f_equal. lia.
Qed.

Lemma format_tenths_nonneg (q : Q) :
  0 <= Qnum q -> 0 <= round_tenths q ->
  format_tenths q
  = str_of_int (round_tenths q / 10) ++ u "."
    ++ str_of_int (round_tenths q mod 10).
Proof.
  intros Hq Hr. unfold format_tenths.
  destruct (Z.ltb_spec (Qnum q) 0); [lia|].
  now rewrite Z.abs_eq by lia.
Qed.

Lemma format_1f_number (x : float) :
  is_nan x = false -> sign_of x = false -> valid x ->
  format_1f x <> u "nan" /\ hd_error (format_1f x) <> Some 45%N.
Proof.
  intros Nn Sx Vx. destruct x as [s|s| |s m e]; try discriminate;
    cbn [sign_of] in Sx; subst s; cbn [format_1f].
  - split; vm_compute; discriminate.
  - split; vm_compute; discriminate.
  - apply Rounding.valid_bounds in Vx as (He & _).
    destruct (exact_value_parts m e ltac:(lia)) as (K & HK & _ & _ & Hnum).
    set (q := exact_value false m e) in *.
    assert (Hr : 0 <= round_tenths q).
    { pose proof (round_tenths_near q) as Hnear.
      assert (0 < Zpos (Qden q)) by lia. nia. }
    rewrite (format_tenths_nonneg q ltac:(lia) Hr).
    destruct (str_of_int_digit (round_tenths q / 10)) as (c & rest & -> & Hc).
    { apply Z.div_pos; lia. }
    split.
    + intros E. vm_compute in E. injection E as E _. lia.
    + simpl. intros [= E]. lia.
Qed.

End Percentage.

(** X15.  Whatever the distance, the similarity is a number with no minus
    sign: a distance that is a NaN gives 0, since [max(0, x)] keeps the 0
    unless [x > 0].  [search] therefore never prints [nan] nor a
    percentage that starts with a minus sign. *)
Theorem similarity_is_a_number (d : float) :
  valid d ->
  is_nan (similarity d) = false /\
  sign_of (similarity d) = false /\
  (is_nan d = true -> similarity d = zero) /\
  format_1f (similarity d) <> u "nan" /\
  hd_error (format_1f (similarity d)) <> Some 45%N.
Proof.
  intros V.
  assert (H : is_nan (similarity d) = false /\ sign_of (similarity d) = false
              /\ valid (similarity d)).
  { destruct (is_nan d) eqn:Nn.
    - destruct d; try discriminate. repeat split.
    - destruct (Rounding.similarity_spec_value d V Nn) as (Vs & Ns & Ss & _).
      auto. }
  destruct H as (Ns & Ss & Vs).
  split; [exact Ns|]. split; [exact Ss|]. split.
  - intros Nn. destruct d; try discriminate. reflexivity.
  - apply format_1f_number; assumption.
Qed.

Lemma similarity_is_a_number_witness :
  similarity S754_nan = zero /\
  format_1f (similarity S754_nan) <> u "nan" /\
  sign_of (similarity (S754_infinity true)) = false.
Proof.
  split; [|split].
  - destruct (similarity_is_a_number S754_nan eq_refl) as (_ & _ & H & _).
    apply H. reflexivity.
  - destruct (similarity_is_a_number S754_nan eq_refl) as (_ & _ & _ & H & _).
    exact H.
  - destruct (similarity_is_a_number (S754_infinity true) eq_refl)
      as (_ & H & _).
    exact H.
Defined.

(** X16.  For a distance that is a number and is not negative, [search]
    prints a percentage from 0.0 to 100.0: the tenths [t], between 0 and
    1000, nearest to the similarity computed, written with one digit after
    the point.  ([val x] is [x] in units of [2^-1074].) *)
Theorem percentage_in_range (d : float) :
  valid d -> (zero <= d)%b64 = true ->
  exists t,
    0 <= t <= 1000 /\
    format_1f (similarity d)
      = str_of_int (t / 10) ++ u "." ++ str_of_int (t mod 10) /\
    2 * Z.abs (10 * val (similarity d) - t * 2 ^ 1074) <= 2 ^ 1074.
Proof.
  intros V Hle.
  destruct (Rounding.leb_true_not_nan _ _ Hle) as [_ Nn].
  rewrite (Rounding.leb_val zero d ltac:(reflexivity) V ltac:(reflexivity) Nn)
    in Hle.
  apply Z.leb_le in Hle. change (val zero) with 0 in Hle.
  destruct (Rounding.similarity_spec_value d V Nn) as (Vs & Ns & Ss & Hv).
  assert (Hhi : val (similarity d) <= 100 * 2 ^ 1074).
  { rewrite Hv.
    pose proof (Rounding.similarity_value_anti 0 (val d) Hle) as Hanti.
    assert (Hz : similarity_value 0 = 100 * 2 ^ 1074)
      by (vm_compute; reflexivity).
    lia. }
  rewrite (Rounding.val_nonneg_sign _ Ss) in *.
  destruct (similarity d) as [s|s| |s m e]; try discriminate;
    cbn [sign_of] in Ss; subst s.
  - exists 0. split; [lia|]. split; [reflexivity|].
    vm_compute. discriminate.
  - exfalso. revert Hhi. apply Z.lt_nge. vm_compute. reflexivity.
  - cbn [mag] in *. cbn [format_1f].
    apply Rounding.valid_bounds in Vs as (He & _).
    destruct (exact_value_parts m e ltac:(lia)) as (K & HK & HD & HN & Hnum).
    set (q := exact_value false m e) in *.
    assert (Hden : 0 < Zpos (Qden q)) by lia.
    assert (Hq : Qnum q <= 100 * Zpos (Qden q)) by nia.
    pose proof (round_tenths_range q ltac:(lia) Hq) as Hrange.
    pose proof (round_tenths_near q) as Hnear.
    exists (round_tenths q). split; [exact Hrange|]. split.
    + apply format_tenths_nonneg; lia.
    + rewrite <- HN, <- HD.
      replace (10 * (Qnum q * K) - round_tenths q * (K * Zpos (Qden q)))
        with ((10 * Qnum q - round_tenths q * Zpos (Qden q)) * K) by ring.
      rewrite Z.abs_mul, (Z.abs_eq K) by lia.
      nia.
Qed.

Lemma percentage_in_range_witness :
  exists t,
    0 <= t <= 1000 /\
    format_1f (similarity (one / two)%b64)
      = str_of_int (t / 10) ++ u "." ++ str_of_int (t mod 10) /\
    2 * Z.abs (10 * val (similarity (one / two)%b64) - t * 2 ^ 1074)
      <= 2 ^ 1074.
Proof.
  apply (percentage_in_range (one / two)%b64); reflexivity.
Defined.
